(** * The ENACT dataset viewer: filter, navigation and answer verification

    A shallow embedding of [src/scripts/datasetViewer.js].  The class
    [DatasetViewer] keeps its session in the fields of [this] and reads
    and writes a few elements of the page; both are threaded here as one
    explicit record, each method becoming a function from record to
    record (paired with the returned boolean where the method returns
    one).  Strings are kept as strings, with the JavaScript conversions
    the code relies on ([String], [parseInt], [includes], [indexOf],
    [trim], [sort], [JSON.stringify]) written out.

    What is modelled and how:
    - the page: only what the methods read back or branch on, namely
      whether [task-select] exists, whether [step-select] exists and the
      values of its options, and whether [data-display] exists and what
      it shows; the listeners are the functions [onSettingChange] and so
      on, named as the specification names them;
    - the dataset: the list of samples as it is after [loadData] has
      fetched and parsed it; every sample has a [type] (the code reads it
      without a test);
    - strings: sequences of one-byte characters, so white space and the
      order of [sort] are those of ASCII;
    - numbers: array lengths are naturals, the index and the results of
      [parseInt] are integers, with [None] for [NaN]; lengths and
      integers are unbounded;
    - [JSON.parse]: the browser's, a parameter of the verifier and of
      the loader;
    - the file of the dataset: its text as [fetch] returns it; what
      [loadData] does with the text (trim, split into lines, drop the
      blank ones, parse each) is [parseJSONL];
    - the markup: of [getSampleHTML] the parts that are computed (the
      class of the grid, the labels of the images, the heading of the
      setting), and [formatTaskName]; the text of the templates and the
      regular expressions of [formatQuestion] are not modelled. *)

From Stdlib Require Import ZArith List String Ascii Bool Lia Decimal DecimalString DecimalNat DecimalPos DecimalZ.
From Stdlib Require Import Sorted Permutation Wellfounded Relation_Operators Lexicographic_Product.
Import ListNotations.

Local Open Scope string_scope.
Local Open Scope Z_scope.

(** ** JavaScript primitives on strings and numbers *)

Module JS.

(** [s.includes(sub)]: [sub] occurs somewhere in [s]. *)
Fixpoint includes (sub s : string) : bool :=
  String.prefix sub s ||
  match s with
  | EmptyString => false
  | String _ s' => includes sub s'
  end.

(** White space as [trim] and [parseInt] skip it, for the one-byte
    characters: tab, line feed, vertical tab, form feed, carriage return
    and space. *)
Definition isWhiteSpace (c : ascii) : bool :=
  let n := nat_of_ascii c in
  (Nat.eqb n 9 || Nat.eqb n 10 || Nat.eqb n 11 || Nat.eqb n 12 || Nat.eqb n 13 || Nat.eqb n 32)%bool.

Fixpoint trimStart (s : string) : string :=
  match s with
  | String c s' => if isWhiteSpace c then trimStart s' else s
  | EmptyString => EmptyString
  end.

(** Drops the white space at the end: a character stays when it is no
    white space or something that stays follows it. *)
Fixpoint trimEnd (s : string) : string :=
  match s with
  | EmptyString => EmptyString
  | String c s' =>
      match trimEnd s' with
      | EmptyString => if isWhiteSpace c then EmptyString else String c EmptyString
      | t => String c t
      end
  end.

Definition trim (s : string) : string := trimEnd (trimStart s).

(** [String(n)] for an array length [n]: its decimal digits. *)
Definition toString (n : nat) : string := NilEmpty.string_of_uint (Nat.to_uint n).

(** The value of a character as a digit, letters counting from ten. *)
Definition digitValue (c : ascii) : option Z :=
  let n := Z.of_nat (nat_of_ascii c) in
  if (48 <=? n) && (n <=? 57) then Some (n - 48)
  else if (97 <=? n) && (n <=? 122) then Some (n - 87)
  else if (65 <=? n) && (n <=? 90) then Some (n - 55)
  else None.

(** The longest prefix of digits of the radix, read as a number; [acc] is
    what has been read so far, [None] when no digit has been read. *)
Fixpoint parseDigits (radix : Z) (s : string) (acc : option Z) : option Z :=
  match s with
  | EmptyString => acc
  | String c s' =>
      match digitValue c with
      | Some d =>
          if d <? radix
          then parseDigits radix s'
                 (Some (radix * match acc with Some a => a | None => 0 end + d))
          else acc
      | None => acc
      end
  end.

(** [parseInt(s)] with no radix given: leading white space is skipped, a
    sign is read, a [0x] prefix selects radix sixteen, and the digits
    that follow are read as far as they go.  [None] is [NaN]. *)
Definition parseInt (s : string) : option Z :=
  let s1 := trimStart s in
  let '(sign, s2) :=
    match s1 with
    | String "-" r => (-1, r)
    | String "+" r => (1, r)
    | _ => (1, s1)
    end in
  let '(radix, s3) :=
    match s2 with
    | String "0" (String "x" r) => (16, r)
    | String "0" (String "X" r) => (16, r)
    | _ => (10, s2)
    end in
  option_map (Z.mul sign) (parseDigits radix s3 None).

(** [l.indexOf(x)]: the first position of an element strictly equal to
    [x], or [-1]; [same] is the comparison with [x]. *)
Fixpoint indexOf {A : Type} (same : A -> bool) (l : list A) : Z :=
  match l with
  | [] => -1
  | y :: l' =>
      if same y then 0
      else let i := indexOf same l' in if i <? 0 then -1 else i + 1
  end.

(** [l[i]] at an index the caller has checked to be in range. *)
Definition at_ {A : Type} (d : A) (l : list A) (i : Z) : A := nth (Z.to_nat i) l d.

(** A [Set] is filled in insertion order and keeps the first of equal
    elements; [Array.from] lists it in that order. *)
Fixpoint setFrom {A : Type} (eqb : A -> A -> bool) (l : list A) (seen : list A) : list A :=
  match l with
  | [] => seen
  | x :: l' => if existsb (eqb x) seen then setFrom eqb l' seen
               else setFrom eqb l' (seen ++ [x])
  end.

(** [sort]: the ascending arrangement under a total order [leb]. *)
Fixpoint insert {A : Type} (leb : A -> A -> bool) (x : A) (l : list A) : list A :=
  match l with
  | [] => [x]
  | y :: l' => if leb x y then x :: l else y :: insert leb x l'
  end.

Fixpoint sort {A : Type} (leb : A -> A -> bool) (l : list A) : list A :=
  match l with
  | [] => []
  | x :: l' => insert leb x (sort leb l')
  end.

End JS.

(** ** JSON values *)

(** A number as [JSON.parse] returns it.  What the viewer asks of a number
    is whether it is an integer and, if so, which; a number with a
    fractional part is kept as the digits before and after its point.
    (An infinite value, which [JSON.parse] returns for a literal out of
    range, is no integer either and is written [null] by
    [JSON.stringify]; it behaves here as [JNull] does.) *)
Inductive JSNumber :=
| Integral (z : Z)
| Fractional (whole : Decimal.int) (frac : Decimal.uint).

#[warnings="-register-all"]
Inductive JSValue :=
| JNull
| JBool (b : bool)
| JNumber (n : JSNumber)
| JString (s : string)
| JArray (elems : list JSValue)
| JObject (members : list (string * JSValue)).

Module JSON.

Definition char (n : nat) : string := String (ascii_of_nat n) EmptyString.

Definition hexDigit (n : nat) : string :=
  char (if Nat.ltb n 10 then 48 + n else 87 + n)%nat.

(** The escape of one character inside a string literal: the quote, the
    backslash and the control characters. *)
Definition escapeChar (c : ascii) : string :=
  let n := nat_of_ascii c in
  if Nat.eqb n 34 then char 92 ++ char 34
  else if Nat.eqb n 92 then char 92 ++ char 92
  else if Nat.eqb n 8 then char 92 ++ "b"
  else if Nat.eqb n 12 then char 92 ++ "f"
  else if Nat.eqb n 10 then char 92 ++ "n"
  else if Nat.eqb n 13 then char 92 ++ "r"
  else if Nat.eqb n 9 then char 92 ++ "t"
  else if Nat.ltb n 32 then char 92 ++ "u00" ++ hexDigit (n / 16) ++ hexDigit (n mod 16)
  else String c EmptyString.

Fixpoint escape (s : string) : string :=
  match s with
  | EmptyString => EmptyString
  | String c s' => escapeChar c ++ escape s'
  end.

Definition quote (s : string) : string := char 34 ++ escape s ++ char 34.

(** The text of a number: the decimal digits of an integer (JavaScript
    writes integers from ten to the twenty-first power on with an
    exponent; they are written in full here), and whole part, point and
    fraction otherwise. *)
Definition numberToString (n : JSNumber) : string :=
  match n with
  | Integral z => NilZero.string_of_int (Z.to_int z)
  | Fractional whole frac =>
      NilZero.string_of_int whole ++ "." ++ NilEmpty.string_of_uint frac
  end.

(** [JSON.stringify(v)] of a value that came out of [JSON.parse]. *)
Fixpoint stringify (v : JSValue) : string :=
  match v with
  | JNull => "null"
  | JBool true => "true"
  | JBool false => "false"
  | JNumber n => numberToString n
  | JString s => quote s
  | JArray elems =>
      "[" ++
      (fix items (l : list JSValue) : string :=
         match l with
         | [] => ""
         | x :: l' =>
             match l' with
             | [] => stringify x
             | _ :: _ => stringify x ++ "," ++ items l'
             end
         end) elems
      ++ "]"
  | JObject members =>
      "{" ++
      (fix items (l : list (string * JSValue)) : string :=
         match l with
         | [] => ""
         | (k, x) :: l' =>
             match l' with
             | [] => quote k ++ ":" ++ stringify x
             | _ :: _ => quote k ++ ":" ++ stringify x ++ "," ++ items l'
             end
         end) members
      ++ "}"
  end.

(** [JSON.stringify] of a field that may be missing: [undefined] stays
    [undefined], here [None]. *)
Definition stringifyField (v : option JSValue) : option string :=
  option_map stringify v.

End JSON.

(** ** Samples *)

(** One line of the dataset.  [type] is read unconditionally by the
    viewer; [task_name], [key_frame_ids] and [gt_answer] are tested
    before use, so they may be missing. *)
Record Sample := mkSample {
  sample_id : string;
  type_ : string;
  task_name : option string;
  key_frame_ids : option (list string);
  images : list string;
  question : string;
  gt_answer : option JSValue
}.

(** What the element [data-display] shows. *)
Inductive Display :=
| Blank
| NoDataHTML
| SampleHTML (data : Sample) (answerShown : bool).

(** ** The viewer *)

(** The fields of [this], followed by the three elements of the page the
    methods look up: [task-select] (present or not), [step-select]
    (absent, or the values of its options) and [data-display] (absent, or
    what it shows). *)
Record Viewer := mkViewer {
  allData : list Sample;
  filteredData : list Sample;
  currentIndex : Z;
  currentSetting : string;
  currentTaskName : string;
  currentStepLength : string;
  availableTaskNames : list string;
  availableStepLengths : list nat;
  showAnswer : bool;
  taskSelect : bool;
  stepSelect : option (list string);
  dataDisplay : option Display
}.

Definition set_allData (x : list Sample) (v : Viewer) : Viewer :=
  mkViewer x (filteredData v) (currentIndex v) (currentSetting v)
    (currentTaskName v) (currentStepLength v) (availableTaskNames v)
    (availableStepLengths v) (showAnswer v) (taskSelect v) (stepSelect v)
    (dataDisplay v).

Definition set_filteredData (x : list Sample) (v : Viewer) : Viewer :=
  mkViewer (allData v) x (currentIndex v) (currentSetting v)
    (currentTaskName v) (currentStepLength v) (availableTaskNames v)
    (availableStepLengths v) (showAnswer v) (taskSelect v) (stepSelect v)
    (dataDisplay v).

Definition set_currentIndex (x : Z) (v : Viewer) : Viewer :=
  mkViewer (allData v) (filteredData v) x (currentSetting v)
    (currentTaskName v) (currentStepLength v) (availableTaskNames v)
    (availableStepLengths v) (showAnswer v) (taskSelect v) (stepSelect v)
    (dataDisplay v).

Definition set_currentSetting (x : string) (v : Viewer) : Viewer :=
  mkViewer (allData v) (filteredData v) (currentIndex v) x
    (currentTaskName v) (currentStepLength v) (availableTaskNames v)
    (availableStepLengths v) (showAnswer v) (taskSelect v) (stepSelect v)
    (dataDisplay v).

Definition set_currentTaskName (x : string) (v : Viewer) : Viewer :=
  mkViewer (allData v) (filteredData v) (currentIndex v) (currentSetting v)
    x (currentStepLength v) (availableTaskNames v)
    (availableStepLengths v) (showAnswer v) (taskSelect v) (stepSelect v)
    (dataDisplay v).

Definition set_currentStepLength (x : string) (v : Viewer) : Viewer :=
  mkViewer (allData v) (filteredData v) (currentIndex v) (currentSetting v)
    (currentTaskName v) x (availableTaskNames v)
    (availableStepLengths v) (showAnswer v) (taskSelect v) (stepSelect v)
    (dataDisplay v).

Definition set_availableTaskNames (x : list string) (v : Viewer) : Viewer :=
  mkViewer (allData v) (filteredData v) (currentIndex v) (currentSetting v)
    (currentTaskName v) (currentStepLength v) x
    (availableStepLengths v) (showAnswer v) (taskSelect v) (stepSelect v)
    (dataDisplay v).

Definition set_availableStepLengths (x : list nat) (v : Viewer) : Viewer :=
  mkViewer (allData v) (filteredData v) (currentIndex v) (currentSetting v)
    (currentTaskName v) (currentStepLength v) (availableTaskNames v)
    x (showAnswer v) (taskSelect v) (stepSelect v)
    (dataDisplay v).

Definition set_showAnswer (x : bool) (v : Viewer) : Viewer :=
  mkViewer (allData v) (filteredData v) (currentIndex v) (currentSetting v)
    (currentTaskName v) (currentStepLength v) (availableTaskNames v)
    (availableStepLengths v) x (taskSelect v) (stepSelect v)
    (dataDisplay v).

Definition set_stepSelect (x : option (list string)) (v : Viewer) : Viewer :=
  mkViewer (allData v) (filteredData v) (currentIndex v) (currentSetting v)
    (currentTaskName v) (currentStepLength v) (availableTaskNames v)
    (availableStepLengths v) (showAnswer v) (taskSelect v) x
    (dataDisplay v).

Definition set_dataDisplay (x : option Display) (v : Viewer) : Viewer :=
  mkViewer (allData v) (filteredData v) (currentIndex v) (currentSetting v)
    (currentTaskName v) (currentStepLength v) (availableTaskNames v)
    (availableStepLengths v) (showAnswer v) (taskSelect v) (stepSelect v)
    x.

(** A string used as a condition: the empty string is false. *)
Definition truthy (s : string) : bool := negb (String.eqb s "").

(** [n === x] for an array length [n] and the result [x] of [parseInt];
    [NaN] equals nothing. *)
Definition sameNumber (x : option Z) (n : nat) : bool :=
  match x with
  | Some z => Z.of_nat n =? z
  | None => false
  end.

(** [item.task_name === name]; a missing name equals none. *)
Definition taskNameIs (name : string) (item : Sample) : bool :=
  match task_name item with
  | Some t => String.eqb t name
  | None => false
  end.

Definition getSettingFromType (type : string) : string :=
  if JS.includes "forward" type then "forward"
  else if JS.includes "inverse" type then "inverse"
  else "".

(** *** Filtering *)

(** The callback of [allData.filter] in [filterData]. *)
Definition keeps (v : Viewer) (item : Sample) : bool :=
  if truthy (currentSetting v) &&
     negb (String.eqb (getSettingFromType (type_ item)) (currentSetting v))
  then false
  else if truthy (currentTaskName v) && negb (taskNameIs (currentTaskName v) item)
  then false
  else if truthy (currentStepLength v) &&
          negb (sameNumber (JS.parseInt (currentStepLength v))
                  (match key_frame_ids item with
                   | Some ids => List.length ids
                   | None => 0%nat
                   end))
  then false
  else true.

Definition filterData (v : Viewer) : Viewer :=
  set_showAnswer false
    (set_currentIndex 0
       (set_filteredData (filter (keeps v) (allData v)) v)).

(** *** The option lists *)

(** [Array.from(taskNames).sort()] and
    [Array.from(stepLengths).sort((a, b) => a - b)] in
    [populateFilterOptions]: the distinct non-empty task names in the
    order of their characters, the distinct step lengths in numeric
    order. *)
Definition sortedTaskNames (data : list Sample) : list string :=
  JS.sort String.leb
    (JS.setFrom String.eqb
       (flat_map (fun item =>
                    match task_name item with
                    | Some t => if truthy t then [t] else []
                    | None => []
                    end) data) []).

Definition sortedStepLengths (data : list Sample) : list nat :=
  JS.sort Nat.leb
    (JS.setFrom Nat.eqb
       (flat_map (fun item =>
                    match key_frame_ids item with
                    | Some ids => [List.length ids]
                    | None => []
                    end) data) []).

Definition updateFilterSelectors (v : Viewer) : Viewer :=
  let v1 :=
    if taskSelect v then
      match availableTaskNames v with
      | first :: _ =>
          if negb (truthy (currentTaskName v)) then set_currentTaskName first v else v
      | [] => v
      end
    else v in
  match stepSelect v1 with
  | Some _ =>
      let v2 := set_stepSelect (Some (map JS.toString (availableStepLengths v1))) v1 in
      match availableStepLengths v2 with
      | first :: _ =>
          if negb (truthy (currentStepLength v2))
          then set_currentStepLength (JS.toString first) v2
          else v2
      | [] => v2
      end
  | None => v1
  end.

Definition populateFilterOptions (v : Viewer) : Viewer :=
  updateFilterSelectors
    (set_availableStepLengths (sortedStepLengths (allData v))
       (set_availableTaskNames (sortedTaskNames (allData v)) v)).

(** The samples [populateStepLengthsForCurrentFilters] does not skip:
    those of the current setting and task. *)
Definition inCurrentSettingAndTask (v : Viewer) (item : Sample) : bool :=
  if truthy (currentSetting v) &&
     negb (String.eqb (getSettingFromType (type_ item)) (currentSetting v))
  then false
  else if truthy (currentTaskName v) && negb (taskNameIs (currentTaskName v) item)
  then false
  else true.

Definition populateStepLengthsForCurrentFilters (v : Viewer) : Viewer :=
  let v1 :=
    set_availableStepLengths
      (sortedStepLengths (filter (inCurrentSettingAndTask v) (allData v))) v in
  match stepSelect v1 with
  | Some _ =>
      let v2 := set_stepSelect (Some (map JS.toString (availableStepLengths v1))) v1 in
      match availableStepLengths v2 with
      | first :: _ =>
          if negb (truthy (currentStepLength v2)) ||
             negb (existsb (sameNumber (JS.parseInt (currentStepLength v2)))
                     (availableStepLengths v2))
          then set_currentStepLength (JS.toString first) v2
          else v2
      | [] => v2
      end
  | None => v1
  end.

(** *** Rendering *)

Definition updateUI (v : Viewer) : Viewer :=
  match dataDisplay v with
  | None => v
  | Some _ =>
      match filteredData v with
      | [] => set_dataDisplay (Some NoDataHTML) v
      | _ :: _ =>
          if currentIndex v <? 0 then v
          else
            match nth_error (filteredData v) (Z.to_nat (currentIndex v)) with
            | Some currentData =>
                set_dataDisplay (Some (SampleHTML currentData (showAnswer v))) v
            | None => v
            end
      end
  end.

Definition updateFilterUI (v : Viewer) : Viewer :=
  match stepSelect v with
  | Some options =>
      if existsb (String.eqb (currentStepLength v)) options then v
      else
        match options with
        | first :: _ => filterData (set_currentStepLength first v)
        | [] => v
        end
  | None => v
  end.

(** *** Start-up, after the dataset has been fetched and parsed *)

Definition construct (taskSel : bool) (stepSel : option (list string))
    (display : option Display) : Viewer :=
  mkViewer [] [] 0 "forward" "" "" [] [] false taskSel stepSel display.

Definition loadData (samples : list Sample) (v : Viewer) : Viewer :=
  filterData (set_allData samples v).

Definition init (samples : list Sample) (v : Viewer) : Viewer :=
  updateUI (updateFilterUI (filterData (populateFilterOptions (loadData samples v)))).

(** *** The listeners of the three selectors and of the answer toggle *)

Definition onSettingChange (value : string) (v : Viewer) : Viewer :=
  updateUI
    (filterData
       (populateStepLengthsForCurrentFilters
          (set_currentStepLength "" (set_currentSetting value v)))).

Definition onTaskChange (value : string) (v : Viewer) : Viewer :=
  updateUI
    (filterData
       (populateStepLengthsForCurrentFilters
          (set_currentStepLength "" (set_currentTaskName value v)))).

Definition onStepChange (value : string) (v : Viewer) : Viewer :=
  updateUI (filterData (set_currentStepLength value v)).

Definition onToggleReveal (v : Viewer) : Viewer :=
  updateUI (set_showAnswer (negb (showAnswer v)) v).

(** *** Hierarchical navigation *)

Definition settings : list string := [""; "forward"; "inverse"].

Definition moveToNextSetting (v : Viewer) : bool * Viewer :=
  let currentSettingIndex := JS.indexOf (String.eqb (currentSetting v)) settings in
  if currentSettingIndex <? Z.of_nat (List.length settings) - 1 then
    (true,
     updateFilterUI
       (updateUI
          (filterData
             (set_currentSetting (JS.at_ "" settings (currentSettingIndex + 1)) v))))
  else (false, v).

Definition moveToNextTask (v : Viewer) : bool * Viewer :=
  if truthy (currentTaskName v) then
    let currentTaskIndex :=
      JS.indexOf (String.eqb (currentTaskName v)) (availableTaskNames v) in
    if currentTaskIndex <? Z.of_nat (List.length (availableTaskNames v)) - 1 then
      (true,
       updateFilterUI
         (updateUI
            (populateStepLengthsForCurrentFilters
               (filterData
                  (set_currentStepLength ""
                     (set_currentTaskName
                        (JS.at_ "" (availableTaskNames v) (currentTaskIndex + 1)) v))))))
    else moveToNextSetting (set_currentTaskName "" v)
  else moveToNextSetting v.

Definition moveToNextCategory (v : Viewer) : bool * Viewer :=
  if truthy (currentStepLength v) then
    let currentStepIndex :=
      JS.indexOf (sameNumber (JS.parseInt (currentStepLength v)))
        (availableStepLengths v) in
    if currentStepIndex <? Z.of_nat (List.length (availableStepLengths v)) - 1 then
      (true,
       updateFilterUI
         (updateUI
            (filterData
               (set_currentStepLength
                  (JS.toString (JS.at_ 0%nat (availableStepLengths v) (currentStepIndex + 1)))
                  v))))
    else moveToNextTask (set_currentStepLength "" v)
  else moveToNextTask v.

Definition lastIndex (v : Viewer) : Z :=
  Z.max 0 (Z.of_nat (List.length (filteredData v)) - 1).

Definition moveToPreviousSetting (v : Viewer) : bool * Viewer :=
  let currentSettingIndex := JS.indexOf (String.eqb (currentSetting v)) settings in
  if 0 <? currentSettingIndex then
    let v1 := filterData (set_currentSetting (JS.at_ "" settings (currentSettingIndex - 1)) v) in
    (true, updateFilterUI (updateUI (set_currentIndex (lastIndex v1) v1)))
  else (false, v).

Definition moveToPreviousTask (v : Viewer) : bool * Viewer :=
  if truthy (currentTaskName v) then
    let currentTaskIndex :=
      JS.indexOf (String.eqb (currentTaskName v)) (availableTaskNames v) in
    if 0 <? currentTaskIndex then
      let v1 :=
        populateStepLengthsForCurrentFilters
          (filterData
             (set_currentStepLength ""
                (set_currentTaskName
                   (JS.at_ "" (availableTaskNames v) (currentTaskIndex - 1)) v))) in
      (true, updateFilterUI (updateUI (set_currentIndex (lastIndex v1) v1)))
    else moveToPreviousSetting (set_currentTaskName "" v)
  else moveToPreviousSetting v.

Definition moveToPreviousCategory (v : Viewer) : bool * Viewer :=
  if truthy (currentStepLength v) then
    let currentStepIndex :=
      JS.indexOf (sameNumber (JS.parseInt (currentStepLength v)))
        (availableStepLengths v) in
    if 0 <? currentStepIndex then
      let v1 :=
        filterData
          (set_currentStepLength
             (JS.toString (JS.at_ 0%nat (availableStepLengths v) (currentStepIndex - 1)))
             v) in
      (true, updateFilterUI (updateUI (set_currentIndex (lastIndex v1) v1)))
    else moveToPreviousTask (set_currentStepLength "" v)
  else moveToPreviousTask v.

Definition navigateNext (v : Viewer) : Viewer :=
  if currentIndex v <? Z.of_nat (List.length (filteredData v)) - 1 then
    updateUI (set_showAnswer false (set_currentIndex (currentIndex v + 1) v))
  else snd (moveToNextCategory v).

Definition navigatePrevious (v : Viewer) : Viewer :=
  if 0 <? currentIndex v then
    updateUI (set_showAnswer false (set_currentIndex (currentIndex v - 1) v))
  else snd (moveToPreviousCategory v).

(** ** The answer verifier *)

(** What [verifyAnswer] writes into the result element. *)
Inductive Verdict :=
| InvalidFormat
| NotAnArray
| NotInRange
| Correct
| MaybeIncorrect.

(** The callback of [userAnswer.every]. *)
Definition validNumber (num : JSValue) : bool :=
  match num with
  | JNumber (Integral z) => (1 <=? z) && (z <=? 10)
  | _ => false
  end.

Section Verifier.

(** [JSON.parse] is the browser's; [None] stands for its throwing. *)
Variable JSON_parse : string -> option JSValue.

Definition verifyAnswer (inputValue : string) (gtAnswer : option JSValue) : Verdict :=
  let userInput := JS.trim inputValue in
  match JSON_parse userInput with
  | None => InvalidFormat
  | Some userAnswer =>
      match userAnswer with
      | JArray elems =>
          if negb (forallb validNumber elems) then NotInRange
          else
            match JSON.stringifyField gtAnswer with
            | Some gt => if String.eqb (JSON.stringify userAnswer) gt
                         then Correct else MaybeIncorrect
            | None => MaybeIncorrect
            end
      | _ => NotAnArray
      end
  end.

End Verifier.

(** ** The filter as the specification words it *)

Inductive Setting := NoSetting | Forward | Inverse.

Record FilterState := mkFilterState {
  setting : Setting;
  taskName : option string;
  stepCount : option nat
}.

(** The setting a sample's [type] encodes: "forward" if it contains that
    word, "inverse" if it contains that one, none otherwise. *)
Definition derivedSetting (s : Sample) : Setting :=
  if JS.includes "forward" (type_ s) then Forward
  else if JS.includes "inverse" (type_ s) then Inverse
  else NoSetting.

(** The number of key frames, zero for a sample without the field. *)
Definition stepCountOf (s : Sample) : nat :=
  match key_frame_ids s with
  | Some ids => List.length ids
  | None => 0%nat
  end.

Definition matches (fs : FilterState) (s : Sample) : Prop :=
  (setting fs = NoSetting \/ derivedSetting s = setting fs) /\
  (taskName fs = None \/ task_name s = taskName fs) /\
  (stepCount fs = None \/ stepCount fs = Some (stepCountOf s)).

Definition Setting_eq_dec (a b : Setting) : {a = b} + {a <> b}.
Proof. decide equality. Defined.

Definition option_string_eq_dec (a b : option string) : {a = b} + {a <> b}.
Proof. decide equality. apply string_dec. Defined.

Definition option_nat_eq_dec (a b : option nat) : {a = b} + {a <> b}.
Proof. decide equality. apply Nat.eq_dec. Defined.

Definition matches_dec (fs : FilterState) (s : Sample) :
  {matches fs s} + {~ matches fs s}.
Proof.
  unfold matches.
  destruct (Setting_eq_dec (setting fs) NoSetting) as [A|A];
    [| destruct (Setting_eq_dec (derivedSetting s) (setting fs)) as [A'|A'] ];
    (destruct (option_string_eq_dec (taskName fs) None) as [B|B];
     [| destruct (option_string_eq_dec (task_name s) (taskName fs)) as [B'|B'] ]);
    (destruct (option_nat_eq_dec (stepCount fs) None) as [C|C];
     [| destruct (option_nat_eq_dec (stepCount fs) (Some (stepCountOf s))) as [C'|C'] ]);
    try (left; tauto); right; tauto.
Defined.

(** How the viewer's three strings hold a filter state: the empty string
    is "none" or "unset". *)
Definition settingString (x : Setting) : string :=
  match x with
  | NoSetting => ""
  | Forward => "forward"
  | Inverse => "inverse"
  end.

Definition taskNameString (x : option string) : string :=
  match x with
  | Some t => t
  | None => ""
  end.

Definition stepCountString (x : option nat) : string :=
  match x with
  | Some n => JS.toString n
  | None => ""
  end.

Definition withFilterState (fs : FilterState) (v : Viewer) : Viewer :=
  set_currentStepLength (stepCountString (stepCount fs))
    (set_currentTaskName (taskNameString (taskName fs))
       (set_currentSetting (settingString (setting fs)) v)).

(** ** The session as a transition system *)

(** What the user can do once the page is up: change one of the three
    selectors, toggle the answer, or press next or previous (a button or
    an arrow key). *)
Inductive Event :=
| SettingChange (value : string)
| TaskChange (value : string)
| StepChange (value : string)
| ToggleReveal
| Next
| Previous.

Definition handle (e : Event) (v : Viewer) : Viewer :=
  match e with
  | SettingChange value => onSettingChange value v
  | TaskChange value => onTaskChange value v
  | StepChange value => onStepChange value v
  | ToggleReveal => onToggleReveal v
  | Next => navigateNext v
  | Previous => navigatePrevious v
  end.

Fixpoint run (es : list Event) (v : Viewer) : Viewer :=
  match es with
  | [] => v
  | e :: es' => run es' (handle e v)
  end.

(** [n] presses of next. *)
Fixpoint advance (n : nat) (v : Viewer) : Viewer :=
  match n with
  | O => v
  | S n' => advance n' (navigateNext v)
  end.

(** ** What the theorems say of a session *)

(** The index points into the filtered list, or is zero when the list is
    empty. *)
Definition indexInRange (v : Viewer) : Prop :=
  0 <= currentIndex v <= lastIndex v.

(** A property of the index and the filtered list, read off a session. *)
Definition holds (P : Z -> list Sample -> Prop) (v : Viewer) : Prop :=
  P (currentIndex v) (filteredData v).

(** The filtered list is the one the current filter state selects. *)
Definition filterApplied (v : Viewer) : Prop :=
  filteredData v = filter (keeps v) (allData v).

(** The positions of the current step length and task name in their
    option lists, as the category moves compute them. *)
Definition currentStepIndex (v : Viewer) : Z :=
  JS.indexOf (sameNumber (JS.parseInt (currentStepLength v))) (availableStepLengths v).

Definition currentTaskIndex (v : Viewer) : Z :=
  JS.indexOf (String.eqb (currentTaskName v)) (availableTaskNames v).

(** No next step length, or no next task, to move to: none is selected,
    or the selected one is the last of its options. *)
Definition stepExhausted (v : Viewer) : Prop :=
  currentStepLength v = "" \/
  currentStepIndex v = Z.of_nat (List.length (availableStepLengths v)) - 1.

Definition taskExhausted (v : Viewer) : Prop :=
  currentTaskName v = "" \/
  currentTaskIndex v = Z.of_nat (List.length (availableTaskNames v)) - 1.

(** No previous step length, or no previous task, to move to. *)
Definition stepAtFirst (v : Viewer) : Prop :=
  currentStepLength v = "" \/ currentStepIndex v <= 0.

Definition taskAtFirst (v : Viewer) : Prop :=
  currentTaskName v = "" \/ currentTaskIndex v <= 0.

(** The step counts seen among the samples of the current setting and
    task. *)
Definition observedStepCount (v : Viewer) (n : nat) : Prop :=
  exists s ids,
    In s (allData v) /\ inCurrentSettingAndTask v s = true /\
    key_frame_ids s = Some ids /\ List.length ids = n.

(** [observedStepCount], decided. *)
Definition observedStepCountb (v : Viewer) (n : nat) : bool :=
  existsb (fun s => inCurrentSettingAndTask v s &&
                    match key_frame_ids s with
                    | Some ids => Nat.eqb (List.length ids) n
                    | None => false
                    end) (allData v).

(** The invariant of the filter state: a selected step length is one of
    the step counts seen among the samples of the current setting and
    task. *)
Definition stepCountObserved (v : Viewer) : Prop :=
  currentStepLength v = "" \/
  exists n, JS.parseInt (currentStepLength v) = Some (Z.of_nat n) /\
            observedStepCount v n.

(** The step length a selector change ends with: the first of the new
    options when the page has the step selector and there is an option,
    unset otherwise. *)
Definition defaultStepLength (v : Viewer) : string :=
  match stepSelect v, availableStepLengths v with
  | Some _, first :: _ => JS.toString first
  | _, _ => ""
  end.

(** The order a comparison function decides, and its strict part. *)
Definition leBy {A : Type} (leb : A -> A -> bool) (x y : A) : Prop := leb x y = true.

Definition ltBy {A : Type} (leb : A -> A -> bool) (x y : A) : Prop :=
  leb x y = true /\ x <> y.

(** *** What holds of the option lists throughout a session *)

(** The options of the step selector, when the page has it, are the
    available step lengths. *)
Definition optionsInStep (v : Viewer) : Prop :=
  forall opts, stepSelect v = Some opts ->
               opts = map JS.toString (availableStepLengths v).

(** Both option lists are strictly ascending, and no task is named by
    the empty string. *)
Record wellFormed (v : Viewer) : Prop := mkWellFormed {
  wf_options : optionsInStep v;
  wf_steps : StronglySorted Nat.lt (availableStepLengths v);
  wf_tasks : StronglySorted (ltBy String.leb) (availableTaskNames v);
  wf_named : ~ In "" (availableTaskNames v)
}.

(** ** The walk that repeated presses of next make *)

(** The sample under the index, if there is one. *)
Definition currentItem (v : Viewer) : option Sample :=
  if currentIndex v <? 0 then None
  else nth_error (filteredData v) (Z.to_nat (currentIndex v)).








(** The lexicographic order on ranks. *)
Definition closer : nat * (nat * (nat * nat)) -> nat * (nat * (nat * nat)) -> Prop :=
  slexprod nat (nat * (nat * nat)) Nat.lt
    (slexprod nat (nat * nat) Nat.lt (slexprod nat nat Nat.lt Nat.lt)).

(** ** Reading a stringified array *)

(** The integer [z] as a JSON value. *)
Definition intValue (z : Z) : JSValue := JNumber (Integral z).







(** ** Example data *)

Definition sample (i type task : string) (frames : nat) : Sample :=
  mkSample i type (Some task) (Some (repeat "frame" frames)) [] "" None.

(** A page with all three elements, before the script has run. *)
Definition page : Viewer := construct true (Some []) (Some Blank).

Definition demo1 : Sample := sample "s1" "forward_dynamics" "cook" 2.
Definition demo2 : Sample := sample "s2" "forward_dynamics" "wash" 2.
Definition demo3 : Sample := sample "s3" "forward_dynamics" "wash" 3.
Definition demo4 : Sample := sample "s4" "inverse_dynamics" "cook" 3.

Definition demo : list Sample := [demo1; demo2; demo3; demo4].

(** The session on [demo] after [n] presses of next. *)
Definition demoAfter (n : nat) : Viewer := advance n (init demo page).

(** Three samples of one category, and the session at the second. *)
Definition trio : list Sample :=
  [ sample "t1" "forward_dynamics" "cook" 2;
    sample "t2" "forward_dynamics" "cook" 2;
    sample "t3" "forward_dynamics" "cook" 2 ].

Definition atSecond : Viewer := run [Next] (init trio page).

(** The session on [demo] after six presses of next: the last sample,
    under "inverse", with the last step length selected. *)
Definition atEnd : Viewer := run [Next; Next; Next; Next; Next; Next] (init demo page).

(** A dataset in which the first task has no sample under "inverse", and
    the session on it with "inverse" and the second task selected. *)
Definition sparse : list Sample :=
  [ sample "a" "forward_dynamics" "cook" 2;
    sample "b" "inverse_dynamics" "wash" 2 ].

Definition atInverseWash : Viewer :=
  run [SettingChange "inverse"; TaskChange "wash"] (init sparse page).

(** The session on [demo] with setting none, at the first task and the
    first step length. *)
Definition atVeryFirst : Viewer := run [SettingChange ""] (init demo page).

(** The session on [demo] after the task selector has been set to the
    first task and next pressed three times: the last sample of the last
    task under "forward". *)
Definition atLastForward : Viewer :=
  run [TaskChange "cook"; Next; Next; Next] (init demo page).

(** A stand-in for [JSON.parse] on the inputs of the specification's
    examples, for evaluating the verifier on them. *)
Definition exampleParse (s : string) : option JSValue :=
  if String.eqb s "[1,2,3]" then Some (JArray (map intValue [1; 2; 3]))
  else if String.eqb s "[1,2]" then Some (JArray (map intValue [1; 2]))
  else if String.eqb s "[1,11]" then Some (JArray (map intValue [1; 11]))
  else if String.eqb s "[1.5]" then
    Some (JArray [JNumber (Fractional (Pos (D1 Nil)) (D5 Nil))])
  else if String.eqb s "{}" then Some (JObject [])
  else None.

(** ** Lines, words and letters *)

Module Text.

(** [s.split(sep)] for a separator of one character: the pieces between
    its occurrences, of which there is always at least one. *)
Fixpoint split (sep : ascii) (s : string) : list string :=
  match s with
  | EmptyString => [EmptyString]
  | String c s' =>
      if Ascii.eqb c sep then EmptyString :: split sep s'
      else
        match split sep s' with
        | piece :: rest => String c piece :: rest
        | [] => [String c EmptyString]
        end
  end.

(** [l.join(sep)]. *)
Fixpoint joinWith (sep : string) (l : list string) : string :=
  match l with
  | [] => ""
  | x :: l' =>
      match l' with
      | [] => x
      | _ :: _ => x ++ sep ++ joinWith sep l'
      end
  end.

(** What [\d] matches. *)
Definition isDigit (c : ascii) : bool :=
  let n := nat_of_ascii c in (Nat.leb 48 n && Nat.leb n 57)%bool.

Fixpoint allDigits (s : string) : bool :=
  match s with
  | EmptyString => true
  | String c s' => isDigit c && allDigits s'
  end.

(** [c.toUpperCase()] of a one-byte character: the small letters move to
    the capitals. *)
Definition toUpperCase (c : ascii) : ascii :=
  let n := nat_of_ascii c in
  if (Nat.leb 97 n && Nat.leb n 122)%bool then ascii_of_nat (n - 32) else c.

(** The character [c] occurs in [s]. *)
Fixpoint has (c : ascii) (s : string) : bool :=
  match s with
  | EmptyString => false
  | String c' s' => Ascii.eqb c' c || has c s'
  end.


End Text.

(** ** The lines of the dataset file *)

Section Loader.

(** [JSON.parse] is the browser's; [None] stands for its throwing. *)
Variable JSON_parse : string -> option JSValue.

(** [lines.map(line => JSON.parse(line))]: the parsed lines, or [None]
    when a line makes [JSON.parse] throw. *)
Fixpoint parseLines (lines : list string) : option (list JSValue) :=
  match lines with
  | [] => Some []
  | line :: rest =>
      match JSON_parse line with
      | Some x =>
          match parseLines rest with
          | Some xs => Some (x :: xs)
          | None => None
          end
      | None => None
      end
  end.

(** The lines [loadData] hands to [JSON.parse]: those of the trimmed
    text that are not blank. *)
Definition recordLines (text : string) : list string :=
  filter (fun line => truthy (JS.trim line)) (Text.split "010" (JS.trim text)).

(** The expression [loadData] assigns to [allData], for the text of the
    fetched file. *)
Definition parseJSONL (text : string) : option (list JSValue) :=
  parseLines (recordLines text).

End Loader.

(** ** The names and labels the page shows *)

(** [taskName.replace(/_\d+$/, '')]: the name is cut at the first
    underscore that has digits, and nothing else, between it and the end
    of the name. *)
Fixpoint withoutTimestamp (taskName : string) : string :=
  match taskName with
  | EmptyString => EmptyString
  | String c s' =>
      if (Ascii.eqb c "_" && truthy s' && Text.allDigits s')%bool then EmptyString
      else String c (withoutTimestamp s')
  end.

(** [word.charAt(0).toUpperCase() + word.slice(1)]. *)
Definition capitalize (word : string) : string :=
  match word with
  | EmptyString => EmptyString
  | String c rest => String (Text.toUpperCase c) rest
  end.

Definition formatTaskName (taskName : string) : string :=
  Text.joinWith " " (map capitalize (Text.split "_" (withoutTimestamp taskName))).

(** In [getSampleHTML]: the class of the grid of images, the labels of
    the images and the heading of the setting. *)
Definition gridClass (numImages : nat) : string :=
  if Nat.eqb numImages 3 then "images-grid-3col"
  else if Nat.eqb numImages 4 then "images-grid-4col"
  else if Nat.leb 5 numImages then "images-grid-5col"
  else "images-grid-2col".

(** [Array.from({length: numImages - 1}, ...)] is empty when the length
    is not positive. *)
Definition imageLabels (numImages : nat) : list string :=
  "Current State" ::
  map (fun i => "Next State " ++ JS.toString (i + 1)) (seq 0 (numImages - 1)).



(** ** The walk that repeated presses of previous make *)

(** [n] presses of previous. *)
Fixpoint retreat (n : nat) (v : Viewer) : Viewer :=
  match n with
  | O => v
  | S n' => retreat n' (navigatePrevious v)
  end.

(** How far a position is from the global start, one number per level of
    the hierarchy. *)
Definition settingsBefore (v : Viewer) : nat :=
  Z.to_nat (JS.indexOf (String.eqb (currentSetting v)) settings + 1).

Definition tasksBefore (v : Viewer) : nat :=
  if truthy (currentTaskName v) then Z.to_nat (currentTaskIndex v + 2) else 0%nat.

Definition stepsBefore (v : Viewer) : nat :=
  if truthy (currentStepLength v) then Z.to_nat (currentStepIndex v + 2) else 0%nat.

Definition itemsBefore (v : Viewer) : nat := Z.to_nat (currentIndex v).

Definition rankBack (v : Viewer) : nat * (nat * (nat * nat)) :=
  (settingsBefore v, (tasksBefore v, (stepsBefore v, itemsBefore v))).

(** ** What further theorems say of a session *)

(** What [data-display] shows is the sample under the index with the
    answer as [showAnswer] says, or the no-data message when the filtered
    list is empty; nothing is asked of a page without the element. *)
Definition displayCurrent (v : Viewer) : Prop :=
  match dataDisplay v with
  | None => True
  | Some d =>
      match filteredData v with
      | [] => d = NoDataHTML
      | _ :: _ =>
          exists s, currentItem v = Some s /\ d = SampleHTML s (showAnswer v)
      end
  end.

(** Every sample in the filtered list, and the one on display, is a
    sample of the dataset. *)
Definition fromDataset (v : Viewer) : Prop :=
  incl (filteredData v) (allData v) /\
  forall s b, dataDisplay v = Some (SampleHTML s b) -> In s (allData v).

(** What no handler changes: the dataset, the names of the tasks, and
    which of the three elements the page has. *)
Definition sameDataset (a b : Viewer) : Prop :=
  allData a = allData b /\
  availableTaskNames a = availableTaskNames b /\
  taskSelect a = taskSelect b /\
  (stepSelect a = None <-> stepSelect b = None) /\
  (dataDisplay a = None <-> dataDisplay b = None).

(** The state a failed category move leaves: task and step length
    cleared, all else as before. *)
Definition cleared (v : Viewer) : Viewer :=
  set_currentTaskName "" (set_currentStepLength "" v).

(** * Properties *)

(** ** The conversions between step lengths and strings *)

Section Conversions.

Lemma to_uint_not_Nil (n : nat) : Nat.to_uint n <> Nil.
Proof.
  intros H. pose proof (DecimalNat.Unsigned.of_to n) as E.
  rewrite H in E. cbn in E. subst n. discriminate H.
Qed.

Lemma parseDigits_uint (d : uint) (a : nat) :
  JS.parseDigits 10 (NilEmpty.string_of_uint d) (Some (Z.of_nat a)) =
  Some (Z.of_nat (Nat.of_uint_acc d a)).
Proof.
  revert a.
  induction d; intros a; cbn [NilEmpty.string_of_uint JS.parseDigits Nat.of_uint_acc];
    try reflexivity;
    (match goal with
     | |- context [JS.digitValue ?c] =>
         let r := eval vm_compute in (JS.digitValue c) in
         change (JS.digitValue c) with r
     end);
    cbv iota beta;
    (match goal with
     | |- context [?x <? 10] =>
         let r := eval vm_compute in (x <? 10) in change (x <? 10) with r
     end);
    cbv iota;
    rewrite <- IHd; do 2 f_equal; rewrite Nat.tail_mul_spec; lia.
Qed.

Lemma parseDigits_first (d : uint) :
  d <> Nil ->
  JS.parseDigits 10 (NilEmpty.string_of_uint d) None =
  JS.parseDigits 10 (NilEmpty.string_of_uint d) (Some 0).
Proof.
  destruct d; intros H; try reflexivity. now elim H.
Qed.

(** A string of digits has no white space or sign in front, and no
    hexadecimal prefix: [parseInt] reads it in radix ten from its first
    character. *)
Lemma parseInt_uint (d : uint) :
  JS.parseInt (NilEmpty.string_of_uint d) =
  JS.parseDigits 10 (NilEmpty.string_of_uint d) None.
Proof.
  destruct d as [|d|d|d|d|d|d|d|d|d|d]; try reflexivity;
    unfold JS.parseInt;
    cbn [NilEmpty.string_of_uint JS.trimStart];
    (match goal with
     | |- context [JS.isWhiteSpace ?c] =>
         let r := eval vm_compute in (JS.isWhiteSpace c) in
         change (JS.isWhiteSpace c) with r
     end);
    cbv iota;
    try (destruct (JS.parseDigits 10 _ None) as [z|]; cbn [option_map];
         [ f_equal; destruct z; reflexivity | reflexivity ]).
  destruct d; cbn [NilEmpty.string_of_uint];
    (destruct (JS.parseDigits 10 _ None) as [z|]; cbn [option_map];
     [ f_equal; destruct z; reflexivity | reflexivity ]).
Qed.

Lemma parseInt_toString (n : nat) :
  JS.parseInt (JS.toString n) = Some (Z.of_nat n).
Proof.
  unfold JS.toString.
  rewrite parseInt_uint, parseDigits_first by apply to_uint_not_Nil.
  change 0 with (Z.of_nat 0). rewrite parseDigits_uint.
  do 2 f_equal. apply DecimalNat.Unsigned.of_to.
Qed.

Lemma toString_inj (n m : nat) : JS.toString n = JS.toString m -> n = m.
Proof.
  intros H. apply (f_equal JS.parseInt) in H.
  rewrite !parseInt_toString in H. injection H. lia.
Qed.

Lemma truthy_toString (n : nat) : truthy (JS.toString n) = true.
Proof.
  unfold truthy, JS.toString.
  pose proof (to_uint_not_Nil n) as H.
  destruct (Nat.to_uint n); try reflexivity. now elim H.
Qed.

Lemma truthy_false (s : string) : truthy s = false <-> s = "".
Proof.
  unfold truthy. rewrite negb_false_iff. apply String.eqb_eq.
Qed.

Lemma truthy_true (s : string) : truthy s = true <-> s <> "".
Proof.
  unfold truthy. rewrite negb_true_iff. apply String.eqb_neq.
Qed.

Lemma sameNumber_toString (n m : nat) :
  sameNumber (JS.parseInt (JS.toString n)) m = Nat.eqb m n.
Proof.
  rewrite parseInt_toString. unfold sameNumber.
  destruct (Nat.eqb_spec m n) as [->|Hne].
  - apply Z.eqb_refl.
  - apply Z.eqb_neq. lia.
Qed.

End Conversions.

(** ** Filtering *)

Section Filtering.

Lemma getSettingFromType_derived (s : Sample) :
  getSettingFromType (type_ s) = settingString (derivedSetting s).
Proof.
  unfold getSettingFromType, derivedSetting.
  destruct (JS.includes "forward" (type_ s)); [reflexivity|].
  destruct (JS.includes "inverse" (type_ s)); reflexivity.
Qed.

Lemma settingString_inj (a b : Setting) : settingString a = settingString b -> a = b.
Proof. destruct a, b; simpl; congruence. Qed.

Lemma settingString_eqb (a b : Setting) :
  String.eqb (settingString a) (settingString b) = true <-> a = b.
Proof.
  rewrite String.eqb_eq. split; [apply settingString_inj | now intros ->].
Qed.

Lemma keeps_matches (fs : FilterState) (v : Viewer) (s : Sample) :
  taskName fs <> Some "" ->
  keeps (withFilterState fs v) s = true <-> matches fs s.
Proof.
  intros Hne. unfold keeps, matches, withFilterState, taskNameIs. cbn.
  rewrite getSettingFromType_derived.
  fold (stepCountOf s).
  destruct fs as [st tn sc]; cbn in *.
  assert (Hs : (truthy (settingString st) &&
                negb (String.eqb (settingString (derivedSetting s)) (settingString st)))%bool = false
               <-> (st = NoSetting \/ derivedSetting s = st)).
  { destruct st; cbn; try tauto;
      destruct (derivedSetting s); cbn; split; (tauto || (intros [H|H]; congruence) || congruence). }
  assert (Ht : (truthy (taskNameString tn) &&
                negb match task_name s with
                     | Some t => String.eqb t (taskNameString tn)
                     | None => false
                     end)%bool = false
               <-> (tn = None \/ task_name s = tn)).
  { destruct tn as [t|]; cbn; [| tauto].
    assert (truthy t = true) as -> by (apply truthy_true; congruence).
    cbn. rewrite negb_false_iff.
    destruct (task_name s) as [t'|].
    - rewrite String.eqb_eq. split; [intros ->; now right | intros [H|H]; congruence].
    - split; [discriminate | intros [H|H]; congruence]. }
  assert (Hc : (truthy (stepCountString sc) &&
                negb (sameNumber (JS.parseInt (stepCountString sc)) (stepCountOf s)))%bool = false
               <-> (sc = None \/ sc = Some (stepCountOf s))).
  { destruct sc as [n|]; cbn; [| tauto].
    rewrite truthy_toString, sameNumber_toString. cbn. rewrite negb_false_iff, Nat.eqb_eq.
    split; [intros ->; now right | intros [H|H]; congruence]. }
  destruct (truthy (settingString st) && _)%bool.
  - split; [discriminate | intros [H _]; apply Hs in H; discriminate].
  - destruct (truthy (taskNameString tn) && _)%bool.
    + split; [discriminate | intros (_ & H & _); apply Ht in H; discriminate].
    + destruct (truthy (stepCountString sc) && _)%bool.
      * split; [discriminate | intros (_ & _ & H); apply Hc in H; discriminate].
      * split; [intros _ | reflexivity].
        repeat split; [apply Hs | apply Ht | apply Hc]; reflexivity.
Qed.

(** C1.  For every list of samples and every filter state, [filterData]
    leaves in [filteredData] exactly the samples that match the state, in
    load order: a sample stays iff its derived setting is the selected one
    (or none is selected), its task is the selected one (or none is) and
    its number of key frames, zero without the field, is the selected
    step count (or none is).  The empty task name is the viewer's
    "unset", so a state naming it is not a selection. *)
Theorem filterData_exact (samples : list Sample) (fs : FilterState) (v : Viewer) :
  taskName fs <> Some "" ->
  filteredData (filterData (withFilterState fs (set_allData samples v))) =
  filter (fun s => if matches_dec fs s then true else false) samples.
Proof.
  intros Hne. cbn. apply filter_ext. intros s.
  destruct (matches_dec fs s) as [H|H].
  - now apply (keeps_matches fs (set_allData samples v) s Hne).
  - apply not_true_is_false. intros K. apply H.
    now apply (keeps_matches fs (set_allData samples v) s Hne).
Qed.

End Filtering.

(** The same at a concrete selection: forward, the task wash, three key
    frames. *)
Lemma filterData_exact_witness :
  filteredData
    (filterData
       (withFilterState (mkFilterState Forward (Some "wash") (Some 3%nat))
          (set_allData demo page))) =
  filter (fun s => if matches_dec (mkFilterState Forward (Some "wash") (Some 3%nat)) s
                   then true else false) demo.
Proof. apply filterData_exact. cbn. discriminate. Defined.

(** ** What the helpers leave alone *)

Section Frames.

Ltac break_ifs :=
  repeat match goal with
         | |- context [match ?c with _ => _ end] => destruct c eqn:?
         end.

Lemma updateUI_fields (v : Viewer) :
  allData (updateUI v) = allData v /\
  filteredData (updateUI v) = filteredData v /\
  currentIndex (updateUI v) = currentIndex v /\
  currentSetting (updateUI v) = currentSetting v /\
  currentTaskName (updateUI v) = currentTaskName v /\
  currentStepLength (updateUI v) = currentStepLength v /\
  availableTaskNames (updateUI v) = availableTaskNames v /\
  availableStepLengths (updateUI v) = availableStepLengths v /\
  showAnswer (updateUI v) = showAnswer v /\
  taskSelect (updateUI v) = taskSelect v /\
  stepSelect (updateUI v) = stepSelect v.
Proof. unfold updateUI. break_ifs; cbn; repeat split; congruence. Qed.

Lemma updateUI_absent (v : Viewer) : dataDisplay v = None -> updateUI v = v.
Proof. unfold updateUI. now intros ->. Qed.

Lemma updateFilterUI_index (v : Viewer) :
  (updateFilterUI v = v) \/
  (exists first, updateFilterUI v = filterData (set_currentStepLength first v)).
Proof.
  unfold updateFilterUI. break_ifs; eauto.
Qed.

Lemma populate_fields (v : Viewer) :
  allData (populateStepLengthsForCurrentFilters v) = allData v /\
  filteredData (populateStepLengthsForCurrentFilters v) = filteredData v /\
  currentIndex (populateStepLengthsForCurrentFilters v) = currentIndex v /\
  currentSetting (populateStepLengthsForCurrentFilters v) = currentSetting v /\
  currentTaskName (populateStepLengthsForCurrentFilters v) = currentTaskName v /\
  availableTaskNames (populateStepLengthsForCurrentFilters v) = availableTaskNames v /\
  showAnswer (populateStepLengthsForCurrentFilters v) = showAnswer v /\
  taskSelect (populateStepLengthsForCurrentFilters v) = taskSelect v /\
  dataDisplay (populateStepLengthsForCurrentFilters v) = dataDisplay v.
Proof.
  unfold populateStepLengthsForCurrentFilters. break_ifs; cbn; repeat split; congruence.
Qed.

End Frames.

(** ** The navigation index *)

(** Two facts about the index are kept by every handler: it is not
    negative, and it points into the filtered list.  Both are instances
    of one argument, made once for any property of the index and the
    list that holds of index zero and of the last index. *)
Section IndexInvariant.

Variable P : Z -> list Sample -> Prop.
Hypothesis P_zero : forall l, P 0 l.
Hypothesis P_last : forall l, P (Z.max 0 (Z.of_nat (List.length l) - 1)) l.
Hypothesis P_succ : forall i l, P i l -> i < Z.of_nat (List.length l) - 1 -> P (i + 1) l.
Hypothesis P_pred : forall i l, P i l -> 0 < i -> P (i - 1) l.

Local Abbreviation holds := (holds P).

Ltac break_ifs :=
  repeat match goal with
         | |- context [match ?c with _ => _ end] => destruct c eqn:?
         end.

Ltac open_moves :=
  unfold moveToNextCategory, moveToNextTask, moveToNextSetting,
    moveToPreviousCategory, moveToPreviousTask, moveToPreviousSetting.

Lemma filterData_holds (v : Viewer) : holds (filterData v).
Proof. apply P_zero. Qed.

Lemma atLast_holds (v : Viewer) : holds (set_currentIndex (lastIndex v) v).
Proof. apply P_last. Qed.

Lemma updateUI_holds (v : Viewer) : holds v -> holds (updateUI v).
Proof.
  unfold holds. destruct (updateUI_fields v) as (_ & -> & -> & _). auto.
Qed.

Lemma updateFilterUI_holds (v : Viewer) : holds v -> holds (updateFilterUI v).
Proof.
  intros H. destruct (updateFilterUI_index v) as [->|[first ->]]; trivial.
  apply filterData_holds.
Qed.

Lemma populate_holds (v : Viewer) :
  holds v -> holds (populateStepLengthsForCurrentFilters v).
Proof.
  unfold holds. destruct (populate_fields v) as (_ & -> & -> & _). auto.
Qed.

Lemma set_currentStepLength_holds (x : string) (v : Viewer) :
  holds v -> holds (set_currentStepLength x v).
Proof. auto. Qed.

Lemma set_currentTaskName_holds (x : string) (v : Viewer) :
  holds v -> holds (set_currentTaskName x v).
Proof. auto. Qed.

Lemma set_showAnswer_holds (x : bool) (v : Viewer) :
  holds v -> holds (set_showAnswer x v).
Proof. auto. Qed.

Ltac keep :=
  repeat first
    [ assumption
    | apply filterData_holds
    | apply atLast_holds
    | apply updateUI_holds
    | apply updateFilterUI_holds
    | apply populate_holds
    | apply set_currentStepLength_holds
    | apply set_currentTaskName_holds
    | apply set_showAnswer_holds ].

Lemma moveToNextCategory_holds (v : Viewer) :
  holds v -> holds (snd (moveToNextCategory v)).
Proof.
  intros H. open_moves; break_ifs; cbn [snd]; keep.
Qed.

Lemma moveToPreviousCategory_holds (v : Viewer) :
  holds v -> holds (snd (moveToPreviousCategory v)).
Proof.
  intros H. open_moves; break_ifs; cbn [snd]; keep.
Qed.

Lemma navigateNext_holds (v : Viewer) : holds v -> holds (navigateNext v).
Proof.
  intros H. unfold navigateNext.
  destruct (currentIndex v <? _) eqn:E.
  - apply updateUI_holds. apply Z.ltb_lt in E. now apply P_succ.
  - now apply moveToNextCategory_holds.
Qed.

Lemma navigatePrevious_holds (v : Viewer) : holds v -> holds (navigatePrevious v).
Proof.
  intros H. unfold navigatePrevious.
  destruct (0 <? currentIndex v) eqn:E.
  - apply updateUI_holds. apply Z.ltb_lt in E. now apply P_pred.
  - now apply moveToPreviousCategory_holds.
Qed.

Lemma handle_holds (e : Event) (v : Viewer) : holds v -> holds (handle e v).
Proof.
  intros H. destruct e; cbn [handle].
  - unfold onSettingChange. keep.
  - unfold onTaskChange. keep.
  - unfold onStepChange. keep.
  - unfold onToggleReveal. keep.
  - now apply navigateNext_holds.
  - now apply navigatePrevious_holds.
Qed.

Lemma init_holds (samples : list Sample) (v : Viewer) : holds (init samples v).
Proof. unfold init, loadData. keep. Qed.

End IndexInvariant.

Section Index.

Lemma handle_nonneg (e : Event) (v : Viewer) :
  0 <= currentIndex v -> 0 <= currentIndex (handle e v).
Proof.
  apply (handle_holds (fun i _ => 0 <= i) ltac:(cbv beta; intros; lia) ltac:(cbv beta; intros; lia)
           ltac:(cbv beta; intros; lia) ltac:(cbv beta; intros; lia) e v).
Qed.

Lemma handle_inRange (e : Event) (v : Viewer) :
  indexInRange v -> indexInRange (handle e v).
Proof.
  apply (handle_holds (fun i l => 0 <= i <= Z.max 0 (Z.of_nat (List.length l) - 1))
           ltac:(cbv beta; intros; lia) ltac:(cbv beta; intros; lia) ltac:(cbv beta; intros; lia) ltac:(cbv beta; intros; lia)
           e v).
Qed.

Lemma init_inRange (samples : list Sample) (v : Viewer) :
  indexInRange (init samples v).
Proof.
  apply (init_holds (fun i l => 0 <= i <= Z.max 0 (Z.of_nat (List.length l) - 1))
           ltac:(cbv beta; intros; lia) samples v).
Qed.

Lemma run_inRange (es : list Event) (v : Viewer) :
  indexInRange v -> indexInRange (run es v).
Proof.
  revert v. induction es as [|e es IH]; intros v H; cbn [run]; trivial.
  apply IH. now apply handle_inRange.
Qed.

Lemma atLast_index (w : Viewer) :
  currentIndex (set_currentIndex (lastIndex w) w) =
  Z.max 0 (Z.of_nat (List.length (filteredData (set_currentIndex (lastIndex w) w))) - 1).
Proof. reflexivity. Qed.

(** A successful backward move ends with the assignment of the last
    index, followed only by the two renderers. *)
Lemma moveToPreviousCategory_assigns (v v' : Viewer) :
  moveToPreviousCategory v = (true, v') ->
  exists w,
    currentIndex w = Z.max 0 (Z.of_nat (List.length (filteredData w)) - 1) /\
    v' = updateFilterUI (updateUI w).
Proof.
  unfold moveToPreviousCategory, moveToPreviousTask, moveToPreviousSetting.
  repeat match goal with
         | |- context [if ?c then _ else _] => destruct c eqn:?
         end;
    intros [= <-];
    (eexists; split; [| reflexivity]; apply atLast_index).
Qed.

(** C10.  Every handler keeps [currentIndex] at zero or above.
    [filterData] resets it to zero; a backward category move assigns
    [max(0, length - 1)] of the list it has just filtered, after which
    only the renderers run, and these leave the index or filter again; so
    the index after the move is never negative, and is zero when the
    list it ends with is empty; [updateUI] shows an empty list as the
    no-data message. *)
Theorem currentIndex_nonneg (v : Viewer) (e : Event) :
  0 <= currentIndex v ->
  0 <= currentIndex (handle e v) /\
  currentIndex (filterData v) = 0 /\
  (forall v', moveToPreviousCategory v = (true, v') ->
     (exists w,
        currentIndex w = Z.max 0 (Z.of_nat (List.length (filteredData w)) - 1) /\
        v' = updateFilterUI (updateUI w)) /\
     0 <= currentIndex v' /\
     (filteredData v' = [] -> currentIndex v' = 0)) /\
  (forall d, dataDisplay v = Some d -> filteredData v = [] ->
     dataDisplay (updateUI v) = Some NoDataHTML).
Proof.
  intros H. split; [now apply handle_nonneg|]. split; [reflexivity|]. split.
  - intros v' Hv'. split; [exact (moveToPreviousCategory_assigns v v' Hv')|].
    destruct (moveToPreviousCategory_assigns v v' Hv') as (w & Hw & ->).
    pose (Q := fun (i : Z) (l : list Sample) =>
                 0 <= i <= Z.max 0 (Z.of_nat (List.length l) - 1)).
    assert (R : holds Q (updateFilterUI (updateUI w))).
    { apply (updateFilterUI_holds Q); [unfold Q; intros; lia|].
      apply (updateUI_holds Q). unfold holds, Q. rewrite Hw. lia. }
    unfold holds, Q in R.
    split; [lia|].
    intros E. rewrite E in R. cbn in R. lia.
  - intros d Hd He. unfold updateUI. now rewrite Hd, He.
Qed.

Lemma currentIndex_nonneg_witness :
  0 <= currentIndex (init demo page) /\
  0 <= currentIndex (handle Previous (init demo page)).
Proof.
  assert (H : 0 <= currentIndex (init demo page)) by (vm_compute; discriminate).
  split; [exact H|].
  exact (proj1 (currentIndex_nonneg (init demo page) Previous H)).
Defined.

End Index.

(** ** Moving inside one category *)

Section WithinCategory.

(** C6.  From an index that is neither the first nor the last of the
    filtered list, [navigateNext] followed by [navigatePrevious] comes
    back to the same index and the same filter state (and the same
    filtered list). *)
Theorem advance_then_retreat (v : Viewer) :
  indexInRange v ->
  currentIndex v <> 0 ->
  currentIndex v <> Z.of_nat (List.length (filteredData v)) - 1 ->
  let v' := navigatePrevious (navigateNext v) in
  currentIndex v' = currentIndex v /\
  currentSetting v' = currentSetting v /\
  currentTaskName v' = currentTaskName v /\
  currentStepLength v' = currentStepLength v /\
  filteredData v' = filteredData v.
Proof.
  intros R H0 Hl. unfold indexInRange, lastIndex in R. cbv zeta.
  unfold navigateNext.
  assert (E : (currentIndex v <? Z.of_nat (List.length (filteredData v)) - 1) = true)
    by (apply Z.ltb_lt; lia).
  rewrite E. unfold navigatePrevious.
  set (w := set_showAnswer false (set_currentIndex (currentIndex v + 1) v)).
  destruct (updateUI_fields w) as (_ & Fd & Fi & Fs & Ft & Fl & _).
  assert (E' : (0 <? currentIndex (updateUI w)) = true)
    by (apply Z.ltb_lt; rewrite Fi; cbn; lia).
  rewrite E'.
  set (w' := set_showAnswer false
               (set_currentIndex (currentIndex (updateUI w) - 1) (updateUI w))).
  destruct (updateUI_fields w') as (_ & Fd' & Fi' & Fs' & Ft' & Fl' & _).
  rewrite Fd', Fi', Fs', Ft', Fl'. subst w'. cbn.
  rewrite Fd, Fi, Fs, Ft, Fl. subst w. cbn.
  repeat split; lia.
Qed.

Lemma advance_then_retreat_witness :
  currentIndex (navigatePrevious (navigateNext atSecond)) = currentIndex atSecond.
Proof.
  refine (proj1 (advance_then_retreat atSecond _ _ _)).
  - vm_compute. split; discriminate.
  - vm_compute. discriminate.
  - vm_compute. discriminate.
Defined.

End WithinCategory.

(** ** Running off the end *)

Section GlobalEnd.

Lemma set_currentStepLength_same (v : Viewer) :
  currentStepLength v = "" -> set_currentStepLength "" v = v.
Proof. destruct v; cbn; now intros ->. Qed.

Lemma set_currentTaskName_same (v : Viewer) :
  currentTaskName v = "" -> set_currentTaskName "" v = v.
Proof. destruct v; cbn; now intros ->. Qed.

Lemma moveToNextSetting_inverse (v : Viewer) :
  currentSetting v = "inverse" -> moveToNextSetting v = (false, v).
Proof. unfold moveToNextSetting. now intros ->. Qed.

Lemma moveToNextTask_last (v : Viewer) :
  currentSetting v = "inverse" ->
  (currentTaskName v = "" \/
   currentTaskIndex v = Z.of_nat (List.length (availableTaskNames v)) - 1) ->
  moveToNextTask v = (false, set_currentTaskName "" v).
Proof.
  intros Hs Ht. unfold moveToNextTask.
  destruct (truthy (currentTaskName v)) eqn:T.
  - destruct Ht as [Ht|Ht]; [apply truthy_false in Ht; congruence|].
    fold (currentTaskIndex v). rewrite Ht, Z.ltb_irrefl.
    now apply moveToNextSetting_inverse.
  - apply truthy_false in T. rewrite (set_currentTaskName_same v T).
    now apply moveToNextSetting_inverse.
Qed.

Lemma moveToNextCategory_last (v : Viewer) :
  currentSetting v = "inverse" ->
  (currentStepLength v = "" \/
   currentStepIndex v = Z.of_nat (List.length (availableStepLengths v)) - 1) ->
  (currentTaskName v = "" \/
   currentTaskIndex v = Z.of_nat (List.length (availableTaskNames v)) - 1) ->
  moveToNextCategory v =
  (false, set_currentTaskName "" (set_currentStepLength "" v)).
Proof.
  intros Hs Hl Ht. unfold moveToNextCategory.
  destruct (truthy (currentStepLength v)) eqn:T.
  - destruct Hl as [Hl|Hl]; [apply truthy_false in Hl; congruence|].
    fold (currentStepIndex v). rewrite Hl, Z.ltb_irrefl.
    now apply moveToNextTask_last.
  - apply truthy_false in T. rewrite (set_currentStepLength_same v T).
    now apply moveToNextTask_last.
Qed.

(** C9.  At the last item of the filtered list, with the setting at
    "inverse" and each of step length and task name either unset or at
    the last of its options, [navigateNext] finds no next category and
    the move returns false; yet it has cleared the step length and the
    task name, and nothing else: the filtered list and the index are the
    ones of the filter that was in force before.  So the call changes the
    session whenever a step length or a task name was selected. *)
Theorem failed_advance_clears (v : Viewer) :
  Z.of_nat (List.length (filteredData v)) - 1 <= currentIndex v ->
  currentSetting v = "inverse" ->
  (currentStepLength v = "" \/
   currentStepIndex v = Z.of_nat (List.length (availableStepLengths v)) - 1) ->
  (currentTaskName v = "" \/
   currentTaskIndex v = Z.of_nat (List.length (availableTaskNames v)) - 1) ->
  moveToNextCategory v = (false, navigateNext v) /\
  navigateNext v = set_currentTaskName "" (set_currentStepLength "" v) /\
  currentStepLength (navigateNext v) = "" /\
  currentTaskName (navigateNext v) = "" /\
  filteredData (navigateNext v) = filteredData v /\
  currentIndex (navigateNext v) = currentIndex v /\
  (currentStepLength v <> "" \/ currentTaskName v <> "" -> navigateNext v <> v).
Proof.
  intros Hi Hs Hl Ht.
  assert (E : navigateNext v = set_currentTaskName "" (set_currentStepLength "" v)).
  { unfold navigateNext.
    assert ((currentIndex v <? Z.of_nat (List.length (filteredData v)) - 1) = false) as ->
      by (apply Z.ltb_ge; lia).
    now rewrite moveToNextCategory_last. }
  rewrite E. split; [now apply moveToNextCategory_last|].
  repeat split.
  intros Hne Hv. apply (f_equal currentStepLength) in Hv as H1.
  apply (f_equal currentTaskName) in Hv as H2. cbn in H1, H2.
  destruct Hne; congruence.
Qed.

Lemma failed_advance_clears_witness :
  moveToNextCategory atEnd = (false, navigateNext atEnd) /\
  navigateNext atEnd <> atEnd.
Proof.
  assert (H : Z.of_nat (List.length (filteredData atEnd)) - 1 <= currentIndex atEnd)
    by (vm_compute; discriminate).
  assert (Hs : currentSetting atEnd = "inverse") by reflexivity.
  assert (Hl : currentStepLength atEnd = "" \/
               currentStepIndex atEnd =
               Z.of_nat (List.length (availableStepLengths atEnd)) - 1)
    by (right; reflexivity).
  assert (Ht : currentTaskName atEnd = "" \/
               currentTaskIndex atEnd =
               Z.of_nat (List.length (availableTaskNames atEnd)) - 1)
    by (left; reflexivity).
  destruct (failed_advance_clears atEnd H Hs Hl Ht) as (M & _ & _ & _ & _ & _ & N).
  split; [exact M|]. apply N. left. vm_compute. discriminate.
Defined.

End GlobalEnd.

(** ** Sets, sorting and positions *)

Section Lists.

Context {A : Type}.
Variable eqb : A -> A -> bool.
Hypothesis eqb_spec : forall x y, eqb x y = true <-> x = y.

Lemma existsb_eqb (x : A) (l : list A) : existsb (eqb x) l = true <-> In x l.
Proof.
  rewrite existsb_exists. split.
  - intros (y & Hy & E). apply eqb_spec in E. now subst.
  - intros H. exists x. split; trivial. now apply eqb_spec.
Qed.

Lemma setFrom_In (l seen : list A) (x : A) :
  In x (JS.setFrom eqb l seen) <-> In x seen \/ In x l.
Proof.
  revert seen. induction l as [|y l IH]; intros seen; cbn.
  - tauto.
  - destruct (existsb (eqb y) seen) eqn:E; rewrite IH.
    + apply existsb_eqb in E. split; [tauto|]. intros [H|[<-|H]]; tauto.
    + rewrite in_app_iff. cbn. tauto.
Qed.

Lemma setFrom_NoDup (l seen : list A) :
  NoDup seen -> NoDup (JS.setFrom eqb l seen).
Proof.
  revert seen. induction l as [|y l IH]; intros seen H; cbn; trivial.
  destruct (existsb (eqb y) seen) eqn:E; apply IH; trivial.
  assert (N : ~ In y seen).
  { intros K. apply existsb_eqb in K. congruence. }
  clear E. induction H as [|z seen Hz H IHs]; cbn.
  - constructor; [tauto | constructor].
  - constructor.
    + rewrite in_app_iff. cbn. cbn in N. intuition congruence.
    + apply IHs. cbn in N. tauto.
Qed.

Variable leb : A -> A -> bool.
Hypothesis leb_total : forall x y, leb x y = true \/ leb y x = true.
Hypothesis leb_trans : forall x y z, leb x y = true -> leb y z = true -> leb x z = true.
Hypothesis leb_antisym : forall x y, leb x y = true -> leb y x = true -> x = y.

Local Abbreviation le := (leBy leb).
Local Abbreviation lt := (ltBy leb).

Lemma insert_perm (x : A) (l : list A) : Permutation (JS.insert leb x l) (x :: l).
Proof.
  induction l as [|y l IH]; cbn; [reflexivity|].
  destruct (leb x y); [reflexivity|].
  rewrite IH. apply perm_swap.
Qed.

Lemma sort_perm (l : list A) : Permutation (JS.sort leb l) l.
Proof.
  induction l as [|x l IH]; cbn; [reflexivity|].
  rewrite insert_perm. now constructor.
Qed.

Lemma insert_sorted (x : A) (l : list A) :
  StronglySorted le l -> StronglySorted le (JS.insert leb x l).
Proof.
  induction 1 as [|y l Hs IH Hy]; cbn.
  - constructor; constructor.
  - destruct (leb x y) eqn:E.
    + constructor; [now constructor|].
      constructor; [exact E|].
      rewrite Forall_forall in *. intros z Hz. apply (leb_trans x y z E), Hy, Hz.
    + constructor; trivial.
      assert (Hyx : le y x) by (destruct (leb_total x y); [congruence | assumption]).
      rewrite Forall_forall in *. intros z Hz.
      apply (Permutation_in _ (insert_perm x l)) in Hz.
      destruct Hz as [<-|Hz]; auto.
Qed.

Lemma sort_sorted (l : list A) : StronglySorted le (JS.sort leb l).
Proof.
  induction l as [|x l IH]; cbn; [constructor|]. now apply insert_sorted.
Qed.

Lemma sort_NoDup (l : list A) : NoDup l -> NoDup (JS.sort leb l).
Proof.
  intros H. apply (Permutation_NoDup (l := l)); trivial.
  symmetry. apply sort_perm.
Qed.

Lemma sorted_strict (l : list A) :
  StronglySorted le l -> NoDup l -> StronglySorted lt l.
Proof.
  induction 1 as [|x l Hs IH Hx]; intros N; constructor.
  - apply IH. now inversion N.
  - inversion N as [|? ? Hn _]; subst.
    rewrite Forall_forall in *. intros z Hz. split; [now apply Hx|].
    intros ->. contradiction.
Qed.

(** The sorted list of a set: strictly ascending, with the elements of
    the list the set was filled from. *)
Lemma sort_setFrom (l : list A) :
  StronglySorted lt (JS.sort leb (JS.setFrom eqb l [])) /\
  forall x, In x (JS.sort leb (JS.setFrom eqb l [])) <-> In x l.
Proof.
  split.
  - apply sorted_strict; [apply sort_sorted|].
    apply sort_NoDup, setFrom_NoDup. constructor.
  - intros x. split; intros H.
    + apply (Permutation_in _ (sort_perm _)) in H.
      apply setFrom_In in H. cbn in H. tauto.
    + apply (Permutation_in _ (Permutation_sym (sort_perm _))).
      apply setFrom_In. now right.
Qed.

End Lists.

(** ** The two orders the viewer sorts by *)

Section Orders.

Lemma ascii_compare_refl (a : ascii) : Ascii.compare a a = Eq.
Proof. unfold Ascii.compare. apply N.compare_refl. Qed.

Lemma ascii_compare_lt_trans (a b c : ascii) :
  Ascii.compare a b = Lt -> Ascii.compare b c = Lt -> Ascii.compare a c = Lt.
Proof.
  unfold Ascii.compare. rewrite !N.compare_lt_iff. apply N.lt_trans.
Qed.

Lemma string_leb_trans (s1 s2 s3 : string) :
  String.leb s1 s2 = true -> String.leb s2 s3 = true -> String.leb s1 s3 = true.
Proof.
  unfold String.leb. revert s2 s3.
  induction s1 as [|a s1 IH]; intros [|b s2] [|c s3]; cbn; try congruence.
  destruct (Ascii.compare a b) eqn:E1; try congruence;
    destruct (Ascii.compare b c) eqn:E2; try congruence.
  - apply Ascii.compare_eq_iff in E1, E2. subst. rewrite ascii_compare_refl. apply IH.
  - apply Ascii.compare_eq_iff in E1. subst. now rewrite E2.
  - apply Ascii.compare_eq_iff in E2. subst. now rewrite E1.
  - now rewrite (ascii_compare_lt_trans a b c E1 E2).
Qed.

Lemma Nat_leb_total (x y : nat) : Nat.leb x y = true \/ Nat.leb y x = true.
Proof. rewrite !Nat.leb_le. lia. Qed.

Lemma Nat_leb_trans (x y z : nat) :
  Nat.leb x y = true -> Nat.leb y z = true -> Nat.leb x z = true.
Proof. rewrite !Nat.leb_le. lia. Qed.

Lemma lt_Nat_leb (x y : nat) : ltBy Nat.leb x y <-> (x < y)%nat.
Proof. unfold ltBy. rewrite Nat.leb_le. lia. Qed.

(** [sortedStepLengths] lists, in strictly ascending order, the lengths of
    [key_frame_ids] over the samples that have the field. *)
Lemma sortedStepLengths_spec (data : list Sample) :
  StronglySorted (fun x y => (x < y)%nat) (sortedStepLengths data) /\
  forall n, In n (sortedStepLengths data) <->
            exists s ids, In s data /\ key_frame_ids s = Some ids /\ List.length ids = n.
Proof.
  unfold sortedStepLengths.
  destruct (sort_setFrom Nat.eqb Nat.eqb_eq Nat.leb Nat_leb_total Nat_leb_trans
              (flat_map (fun item => match key_frame_ids item with
                                     | Some ids => [List.length ids]
                                     | None => []
                                     end) data)) as [S I].
  split.
  - revert S. apply StronglySorted_ind; [constructor|].
    intros a l _ IH Ha. constructor; trivial.
    rewrite Forall_forall in *. intros x Hx. now apply lt_Nat_leb, Ha.
  - intros n. rewrite I, in_flat_map. split.
    + intros (s & Hs & Hn). destruct (key_frame_ids s) as [ids|] eqn:K; [|contradiction].
      destruct Hn as [<-|[]]. eauto.
    + intros (s & ids & Hs & K & <-). exists s. rewrite K. cbn. auto.
Qed.

(** [sortedTaskNames] lists, in strictly ascending order, the non-empty
    task names of the samples. *)
Lemma sortedTaskNames_spec (data : list Sample) :
  StronglySorted (ltBy String.leb) (sortedTaskNames data) /\
  forall t, In t (sortedTaskNames data) <->
            t <> "" /\ exists s, In s data /\ task_name s = Some t.
Proof.
  unfold sortedTaskNames.
  destruct (sort_setFrom String.eqb String.eqb_eq String.leb String.leb_total
              string_leb_trans
              (flat_map (fun item => match task_name item with
                                     | Some t => if truthy t then [t] else []
                                     | None => []
                                     end) data)) as [S I].
  split; trivial.
  intros t. rewrite I, in_flat_map. split.
  - intros (s & Hs & Ht). destruct (task_name s) as [t'|] eqn:K; [|contradiction].
    destruct (truthy t') eqn:T; [|contradiction].
    destruct Ht as [<-|[]]. apply truthy_true in T. eauto.
  - intros (Hne & s & Hs & K). exists s. rewrite K.
    apply truthy_true in Hne. rewrite Hne. cbn. auto.
Qed.

End Orders.

(** ** Changing a selector *)

Section SelectorChange.

Lemma keeps_ext (a b : Viewer) (s : Sample) :
  currentSetting a = currentSetting b ->
  currentTaskName a = currentTaskName b ->
  currentStepLength a = currentStepLength b ->
  keeps a s = keeps b s.
Proof. unfold keeps. now intros -> -> ->. Qed.

Lemma inCurrentSettingAndTask_ext (a b : Viewer) (s : Sample) :
  currentSetting a = currentSetting b ->
  currentTaskName a = currentTaskName b ->
  inCurrentSettingAndTask a s = inCurrentSettingAndTask b s.
Proof. unfold inCurrentSettingAndTask. now intros -> ->. Qed.

Lemma observedStepCount_ext (a b : Viewer) (n : nat) :
  allData a = allData b ->
  currentSetting a = currentSetting b ->
  currentTaskName a = currentTaskName b ->
  observedStepCount a n <-> observedStepCount b n.
Proof.
  intros Hd Hs Ht. unfold observedStepCount. rewrite Hd.
  split; intros (s & ids & H1 & H2 & H3); exists s, ids;
    (split; [exact H1|]); (split; [|exact H3]);
    [ rewrite <- (inCurrentSettingAndTask_ext a b s Hs Ht)
    | rewrite (inCurrentSettingAndTask_ext a b s Hs Ht) ]; exact H2.
Qed.

Lemma filterData_applied (v : Viewer) : filterApplied (filterData v).
Proof. reflexivity. Qed.

Lemma updateUI_applied (v : Viewer) : filterApplied v -> filterApplied (updateUI v).
Proof.
  unfold filterApplied.
  destruct (updateUI_fields v) as (-> & -> & _ & Hs & Ht & Hl & _).
  intros ->. apply filter_ext. intros s. symmetry. now apply keeps_ext.
Qed.

(** What [populateStepLengthsForCurrentFilters] computes, when it is
    entered with the step length reset. *)
Lemma populate_after_reset (w : Viewer) :
  currentStepLength w = "" ->
  let w' := populateStepLengthsForCurrentFilters w in
  availableStepLengths w' =
    sortedStepLengths (filter (inCurrentSettingAndTask w) (allData w)) /\
  stepSelect w' =
    option_map (fun _ => map JS.toString (availableStepLengths w')) (stepSelect w) /\
  currentStepLength w' = defaultStepLength w'.
Proof.
  intros E. unfold populateStepLengthsForCurrentFilters, defaultStepLength.
  destruct w as [ad fd ci cs ct cl atn asl sa ts ss dd]. cbn in *. subst cl.
  destruct ss as [opts|]; cbn; [|repeat split].
  match goal with
  | |- context [JS.sort Nat.leb ?l] => destruct (JS.sort Nat.leb l) as [|first rest]
  end; cbn; repeat split.
Qed.

Lemma populate_available (w : Viewer) (n : nat) :
  In n (availableStepLengths (populateStepLengthsForCurrentFilters w)) <->
  observedStepCount w n.
Proof.
  assert (E : availableStepLengths (populateStepLengthsForCurrentFilters w) =
              sortedStepLengths (filter (inCurrentSettingAndTask w) (allData w))).
  { unfold populateStepLengthsForCurrentFilters.
    repeat match goal with
           | |- context [match ?c with _ => _ end] => destruct c eqn:?
           end; reflexivity. }
  rewrite E. destruct (sortedStepLengths_spec (filter (inCurrentSettingAndTask w) (allData w)))
    as [_ ->].
  unfold observedStepCount. split.
  - intros (s & ids & Hs & K & L). apply filter_In in Hs. exists s, ids. tauto.
  - intros (s & ids & Hs & Hc & K & L). exists s, ids. rewrite filter_In. tauto.
Qed.

Lemma populate_sorted (w : Viewer) :
  StronglySorted (fun x y => (x < y)%nat)
    (availableStepLengths (populateStepLengthsForCurrentFilters w)).
Proof.
  assert (E : availableStepLengths (populateStepLengthsForCurrentFilters w) =
              sortedStepLengths (filter (inCurrentSettingAndTask w) (allData w))).
  { unfold populateStepLengthsForCurrentFilters.
    repeat match goal with
           | |- context [match ?c with _ => _ end] => destruct c eqn:?
           end; reflexivity. }
  rewrite E. apply sortedStepLengths_spec.
Qed.

(** The common part of the two listeners: the selector's field has been
    assigned and the step length reset; the step lengths are recomputed,
    the filter applied and the page redrawn. *)
Lemma change_then_refresh (w : Viewer) :
  currentStepLength w = "" ->
  let v' := updateUI (filterData (populateStepLengthsForCurrentFilters w)) in
  currentSetting v' = currentSetting w /\
  currentTaskName v' = currentTaskName w /\
  StronglySorted (fun x y => (x < y)%nat) (availableStepLengths v') /\
  (forall n, In n (availableStepLengths v') <-> observedStepCount v' n) /\
  currentStepLength v' = defaultStepLength v' /\
  filterApplied v' /\
  currentIndex v' = 0.
Proof.
  intros E v'. subst v'.
  set (p := populateStepLengthsForCurrentFilters w).
  destruct (updateUI_fields (filterData p))
    as (Fa & Fd & Fi & Fs & Ft & Fl & _ & Fas & _ & _ & Fss).
  destruct (populate_fields w) as (Pa & _ & _ & Ps & Pt & _).
  destruct (populate_after_reset w E) as (_ & _ & Pl). fold p in Pa, Ps, Pt, Pl.
  assert (Ea : allData w = allData (updateUI (filterData p))) by (rewrite Fa; cbn; congruence).
  assert (Es : currentSetting w = currentSetting (updateUI (filterData p)))
    by (rewrite Fs; cbn; congruence).
  assert (Et : currentTaskName w = currentTaskName (updateUI (filterData p)))
    by (rewrite Ft; cbn; congruence).
  split; [congruence|]. split; [congruence|].
  rewrite Fi, Fas, Fl.
  cbn [currentIndex availableStepLengths
       currentStepLength filterData set_showAnswer set_currentIndex set_filteredData].
  repeat split; trivial.
  - apply populate_sorted.
  - intros H. apply populate_available in H.
    now apply (observedStepCount_ext w).
  - intros H. apply populate_available.
    now apply (observedStepCount_ext w) in H.
  - rewrite Pl. unfold defaultStepLength. rewrite Fss, Fas. reflexivity.
  - apply updateUI_applied, filterData_applied.
Qed.

(** C7.  A change of the setting selector, and likewise of the task
    selector, forgets the step length that was selected, recomputes the
    available step lengths for the new pair of setting and task (the
    step counts seen among its samples, ascending), applies the filter
    and puts the index at zero.  Recomputing the options selects their
    first as the new step length when the page has the step selector, so
    the filter is applied with that one. *)
Theorem selector_change_resets (value : string) (v : Viewer) :
  (let v' := onSettingChange value v in
   v' = onSettingChange value (set_currentStepLength "" v) /\
   currentSetting v' = value /\
   currentTaskName v' = currentTaskName v /\
   StronglySorted (fun x y => (x < y)%nat) (availableStepLengths v') /\
   (forall n, In n (availableStepLengths v') <-> observedStepCount v' n) /\
   currentStepLength v' = defaultStepLength v' /\
   filterApplied v' /\
   currentIndex v' = 0) /\
  (let v' := onTaskChange value v in
   v' = onTaskChange value (set_currentStepLength "" v) /\
   currentSetting v' = currentSetting v /\
   currentTaskName v' = value /\
   StronglySorted (fun x y => (x < y)%nat) (availableStepLengths v') /\
   (forall n, In n (availableStepLengths v') <-> observedStepCount v' n) /\
   currentStepLength v' = defaultStepLength v' /\
   filterApplied v' /\
   currentIndex v' = 0).
Proof.
  split; cbv zeta.
  - split; [unfold onSettingChange; do 3 f_equal|].
    exact (change_then_refresh
             (set_currentStepLength "" (set_currentSetting value v)) eq_refl).
  - split; [unfold onTaskChange; do 3 f_equal|].
    exact (change_then_refresh
             (set_currentStepLength "" (set_currentTaskName value v)) eq_refl).
Qed.

End SelectorChange.

(** ** Stringified arrays of small integers *)

Section Stringify.


















End Stringify.

(** ** The answer verifier *)

Section VerifierOutcomes.

Variable JSON_parse : string -> option JSValue.



End VerifierOutcomes.

(** ** Positions in the option lists *)

Section Positions.

Context {A : Type}.

Lemma indexOf_bounds (p : A -> bool) (l : list A) :
  -1 <= JS.indexOf p l < Z.of_nat (List.length l).
Proof.
  induction l as [|x l IH]; cbn [JS.indexOf List.length]; [lia|].
  destruct (p x); [lia|].
  destruct (JS.indexOf p l <? 0) eqn:E; [lia|]. apply Z.ltb_ge in E. lia.
Qed.

Lemma indexOf_ext (p q : A -> bool) (l : list A) :
  (forall x, p x = q x) -> JS.indexOf p l = JS.indexOf q l.
Proof.
  intros H. induction l as [|x l IH]; cbn; [reflexivity|]. now rewrite H, IH.
Qed.

Lemma indexOf_found (p : A -> bool) (l : list A) (d : A) :
  0 <= JS.indexOf p l -> p (nth (Z.to_nat (JS.indexOf p l)) l d) = true.
Proof.
  induction l as [|x l IH]; cbn [JS.indexOf]; [lia|].
  destruct (p x) eqn:Px; [intros _; exact Px|].
  destruct (JS.indexOf p l <? 0) eqn:E; [lia|]. apply Z.ltb_ge in E. intros _.
  replace (Z.to_nat (JS.indexOf p l + 1)) with (S (Z.to_nat (JS.indexOf p l))) by lia.
  cbn [nth]. now apply IH.
Qed.

(** The first position where [p] holds. *)
Lemma indexOf_first (p : A -> bool) (l : list A) (d : A) (n : nat) :
  (n < List.length l)%nat ->
  p (nth n l d) = true ->
  (forall k, (k < n)%nat -> p (nth k l d) = false) ->
  JS.indexOf p l = Z.of_nat n.
Proof.
  revert n. induction l as [|x l IH]; intros n Hn Hp Hk; cbn in Hn; [lia|].
  cbn [JS.indexOf]. destruct n as [|n].
  - cbn in Hp. now rewrite Hp.
  - pose proof (Hk 0%nat ltac:(lia)) as H0. cbn [nth] in H0. rewrite H0.
    rewrite (IH n); [| lia | exact Hp | intros k Hlt; apply (Hk (S k)); lia].
    destruct (Z.of_nat n <? 0) eqn:E; [apply Z.ltb_lt in E; lia | lia].
Qed.

Variable eqb : A -> A -> bool.
Hypothesis eqb_spec : forall x y, eqb x y = true <-> x = y.

(** In a list without repetition, an element is found where it is. *)
Lemma indexOf_nth (l : list A) (d : A) (n : nat) :
  NoDup l -> (n < List.length l)%nat ->
  JS.indexOf (eqb (nth n l d)) l = Z.of_nat n.
Proof.
  intros N Hn. apply (indexOf_first _ l d n Hn).
  - now apply eqb_spec.
  - intros k Hk. destruct (eqb (nth n l d) (nth k l d)) eqn:E; trivial.
    apply eqb_spec in E. apply (proj1 (NoDup_nth l d) N) in E; lia.
Qed.

End Positions.

Section Ascending.

Lemma sorted_nth {A : Type} (lt' : A -> A -> Prop) (l : list A) (d : A) (i j : nat) :
  StronglySorted lt' l -> (i < j)%nat -> (j < List.length l)%nat ->
  lt' (nth i l d) (nth j l d).
Proof.
  intros S. revert i j. induction S as [|x l S IH Hx]; intros i j Hij Hj; cbn in Hj; [lia|].
  destruct j as [|j]; [lia|]. destruct i as [|i]; cbn [nth].
  - rewrite Forall_forall in Hx. apply Hx, nth_In. lia.
  - apply IH; lia.
Qed.

Lemma sorted_NoDup {A : Type} (lt' : A -> A -> Prop) (l : list A) :
  (forall x, ~ lt' x x) -> StronglySorted lt' l -> NoDup l.
Proof.
  intros Irr. induction 1 as [|x l S IH Hx]; constructor; trivial.
  intros K. rewrite Forall_forall in Hx. now apply (Irr x), Hx.
Qed.

End Ascending.

(** ** The option lists stay well formed *)

Section WellFormed.

Lemma wellFormed_frame (a b : Viewer) :
  availableStepLengths b = availableStepLengths a ->
  availableTaskNames b = availableTaskNames a ->
  stepSelect b = stepSelect a ->
  wellFormed a -> wellFormed b.
Proof.
  intros Hs Ht Ho [W1 W2 W3 W4]. split; unfold optionsInStep; rewrite ?Hs, ?Ht, ?Ho; trivial.
Qed.

Lemma filterData_wellFormed (v : Viewer) : wellFormed v -> wellFormed (filterData v).
Proof. now apply wellFormed_frame. Qed.

Lemma updateUI_wellFormed (v : Viewer) : wellFormed v -> wellFormed (updateUI v).
Proof.
  destruct (updateUI_fields v) as (_ & _ & _ & _ & _ & _ & Ht & Hs & _ & _ & Ho).
  now apply wellFormed_frame.
Qed.

Lemma updateFilterUI_wellFormed (v : Viewer) :
  wellFormed v -> wellFormed (updateFilterUI v).
Proof.
  intros H. destruct (updateFilterUI_index v) as [->|[first ->]]; trivial.
  now apply (wellFormed_frame v).
Qed.

Lemma populate_wellFormed (v : Viewer) :
  wellFormed v -> wellFormed (populateStepLengthsForCurrentFilters v).
Proof.
  intros [W1 W2 W3 W4].
  pose proof (populate_sorted v) as S.
  destruct (populate_fields v) as (_ & _ & _ & _ & _ & Ht & _).
  split; rewrite ?Ht; trivial.
  unfold optionsInStep, populateStepLengthsForCurrentFilters.
  destruct (stepSelect (set_availableStepLengths _ v)) as [o|] eqn:O.
  - cbv zeta. set (v2 := set_stepSelect _ _).
    assert (E : stepSelect v2 = Some (map JS.toString (availableStepLengths v2)))
      by reflexivity.
    destruct (availableStepLengths v2) as [|first rest] eqn:L;
      [| destruct (_ || _)%bool ]; cbn [stepSelect availableStepLengths set_currentStepLength];
      rewrite ?L, E; now intros opts [= <-].
  - rewrite O. discriminate.
Qed.

Lemma set_currentStepLength_wellFormed (x : string) (v : Viewer) :
  wellFormed v -> wellFormed (set_currentStepLength x v).
Proof. now apply wellFormed_frame. Qed.

Lemma set_currentTaskName_wellFormed (x : string) (v : Viewer) :
  wellFormed v -> wellFormed (set_currentTaskName x v).
Proof. now apply wellFormed_frame. Qed.

Lemma set_currentSetting_wellFormed (x : string) (v : Viewer) :
  wellFormed v -> wellFormed (set_currentSetting x v).
Proof. now apply wellFormed_frame. Qed.

Lemma set_currentIndex_wellFormed (x : Z) (v : Viewer) :
  wellFormed v -> wellFormed (set_currentIndex x v).
Proof. now apply wellFormed_frame. Qed.

Lemma set_showAnswer_wellFormed (x : bool) (v : Viewer) :
  wellFormed v -> wellFormed (set_showAnswer x v).
Proof. now apply wellFormed_frame. Qed.

Ltac keep_wf :=
  repeat first
    [ assumption
    | apply filterData_wellFormed
    | apply updateUI_wellFormed
    | apply updateFilterUI_wellFormed
    | apply populate_wellFormed
    | apply set_currentStepLength_wellFormed
    | apply set_currentTaskName_wellFormed
    | apply set_currentSetting_wellFormed
    | apply set_currentIndex_wellFormed
    | apply set_showAnswer_wellFormed ].

Lemma moveToNextCategory_wellFormed (v : Viewer) :
  wellFormed v -> wellFormed (snd (moveToNextCategory v)).
Proof.
  intros H. unfold moveToNextCategory, moveToNextTask, moveToNextSetting.
  repeat match goal with
         | |- context [if ?c then _ else _] => destruct c eqn:?
         end; cbn [snd]; keep_wf.
Qed.

Lemma moveToPreviousCategory_wellFormed (v : Viewer) :
  wellFormed v -> wellFormed (snd (moveToPreviousCategory v)).
Proof.
  intros H. unfold moveToPreviousCategory, moveToPreviousTask, moveToPreviousSetting.
  repeat match goal with
         | |- context [if ?c then _ else _] => destruct c eqn:?
         end; cbn [snd]; keep_wf.
Qed.

Lemma handle_wellFormed (e : Event) (v : Viewer) :
  wellFormed v -> wellFormed (handle e v).
Proof.
  intros H. destruct e; cbn [handle].
  - unfold onSettingChange. keep_wf.
  - unfold onTaskChange. keep_wf.
  - unfold onStepChange. keep_wf.
  - unfold onToggleReveal. keep_wf.
  - unfold navigateNext. destruct (_ <? _); [keep_wf|].
    now apply moveToNextCategory_wellFormed.
  - unfold navigatePrevious. destruct (_ <? _); [keep_wf|].
    now apply moveToPreviousCategory_wellFormed.
Qed.

Lemma run_wellFormed (es : list Event) (v : Viewer) :
  wellFormed v -> wellFormed (run es v).
Proof.
  revert v. induction es as [|e es IH]; intros v H; cbn [run]; trivial.
  apply IH. now apply handle_wellFormed.
Qed.

Lemma advance_wellFormed (n : nat) (v : Viewer) :
  wellFormed v -> wellFormed (advance n v).
Proof.
  revert v. induction n as [|n IH]; intros v H; cbn [advance]; trivial.
  apply IH. exact (handle_wellFormed Next v H).
Qed.

(** Start-up leaves the option lists well formed, whatever the page and
    the dataset. *)
Lemma init_wellFormed (samples : list Sample) (v : Viewer) :
  wellFormed (init samples v).
Proof.
  unfold init. apply updateUI_wellFormed, updateFilterUI_wellFormed, filterData_wellFormed.
  unfold populateFilterOptions.
  set (w := set_availableStepLengths _ _).
  assert (Hs : availableStepLengths w = sortedStepLengths samples) by reflexivity.
  assert (Ht : availableTaskNames w = sortedTaskNames samples) by reflexivity.
  unfold updateFilterSelectors.
  set (w1 := if taskSelect w then _ else w).
  assert (Hs1 : availableStepLengths w1 = sortedStepLengths samples).
  { subst w1. destruct (taskSelect w); trivial.
    destruct (availableTaskNames w); trivial. destruct (negb _); trivial. }
  assert (Ht1 : availableTaskNames w1 = sortedTaskNames samples).
  { subst w1. destruct (taskSelect w); trivial.
    destruct (availableTaskNames w); trivial. destruct (negb _); trivial. }
  destruct (sortedStepLengths_spec samples) as [S _].
  destruct (sortedTaskNames_spec samples) as [T I].
  assert (N : ~ In "" (sortedTaskNames samples)) by (intros K; apply I in K; tauto).
  clearbody w1. clear w Hs Ht.
  destruct (stepSelect w1) as [opts|] eqn:O.
  - cbn [availableStepLengths set_stepSelect].
    destruct (availableStepLengths w1) as [|first rest] eqn:L;
      [| destruct (negb _) ];
      (split; cbn; unfold optionsInStep; cbn; rewrite ?L, ?Ht1;
       first [ intros ? [= <-]; reflexivity
             | rewrite <- Hs1 in S; exact S
             | assumption ]).
  - split; unfold optionsInStep; rewrite ?Hs1, ?Ht1, ?O; trivial. discriminate.
Qed.

End WellFormed.

(** ** Moving to the next category *)

Section NextCategory.

Lemma updateFilterUI_noop (w : Viewer) :
  (forall opts, stepSelect w = Some opts -> In (currentStepLength w) opts \/ opts = []) ->
  updateFilterUI w = w.
Proof.
  intros H. unfold updateFilterUI. destruct (stepSelect w) as [opts|]; trivial.
  destruct (H opts eq_refl) as [Hin| ->]; [|reflexivity].
  assert (existsb (String.eqb (currentStepLength w)) opts = true) as ->; trivial.
  apply existsb_exists. exists (currentStepLength w). split; trivial. apply String.eqb_refl.
Qed.

Lemma moveToNextCategory_exhausted (v : Viewer) :
  stepExhausted v ->
  moveToNextCategory v = moveToNextTask (set_currentStepLength "" v).
Proof.
  intros H. unfold moveToNextCategory.
  destruct (truthy (currentStepLength v)) eqn:T.
  - destruct H as [H|H]; [apply truthy_false in H; congruence|].
    fold (currentStepIndex v). now rewrite H, Z.ltb_irrefl.
  - apply truthy_false in T. now rewrite set_currentStepLength_same.
Qed.

Lemma moveToNextTask_exhausted (v : Viewer) :
  taskExhausted v ->
  moveToNextTask v = moveToNextSetting (set_currentTaskName "" v).
Proof.
  intros H. unfold moveToNextTask.
  destruct (truthy (currentTaskName v)) eqn:T.
  - destruct H as [H|H]; [apply truthy_false in H; congruence|].
    fold (currentTaskIndex v). now rewrite H, Z.ltb_irrefl.
  - apply truthy_false in T. now rewrite set_currentTaskName_same.
Qed.

(** The step length found at a position of the available ones, and its
    successor there: the next larger one. *)
Lemma step_found (v : Viewer) :
  0 <= currentStepIndex v ->
  JS.parseInt (currentStepLength v) =
  Some (Z.of_nat (nth (Z.to_nat (currentStepIndex v)) (availableStepLengths v) 0%nat)).
Proof.
  intros H. pose proof (indexOf_found _ (availableStepLengths v) 0%nat H) as F.
  fold (currentStepIndex v) in F. unfold sameNumber in F.
  destruct (JS.parseInt (currentStepLength v)) as [z|]; [|discriminate].
  apply Z.eqb_eq in F. now rewrite F.
Qed.

Lemma next_larger (l : list nat) (i : nat) :
  StronglySorted Nat.lt l -> (i + 1 < List.length l)%nat ->
  (nth i l 0 < nth (i + 1) l 0)%nat /\
  forall k, In k l -> (nth i l 0 < k)%nat -> (nth (i + 1) l 0 <= k)%nat.
Proof.
  intros Hs Hi. split; [apply (sorted_nth Nat.lt); trivial; lia|].
  intros k Hk Hlt. destruct (In_nth l k 0%nat Hk) as (j & Hj & <-).
  destruct (Nat.lt_trichotomy j (i + 1)) as [L|[->|G]].
  - exfalso. destruct (Nat.eq_dec j i) as [->|Ne]; [lia|].
    assert (nth j l 0 < nth i l 0)%nat by (apply (sorted_nth Nat.lt); trivial; lia). lia.
  - lia.
  - assert (nth (i + 1) l 0 < nth j l 0)%nat by (apply (sorted_nth Nat.lt); trivial; lia). lia.
Qed.






End NextCategory.

(** ** Moving to the previous category *)

Section PreviousCategory.

Lemma moveToPreviousCategory_exhausted (v : Viewer) :
  stepAtFirst v ->
  moveToPreviousCategory v = moveToPreviousTask (set_currentStepLength "" v).
Proof.
  intros H. unfold moveToPreviousCategory.
  destruct (truthy (currentStepLength v)) eqn:T.
  - destruct H as [H|H]; [apply truthy_false in H; congruence|].
    fold (currentStepIndex v).
    assert ((0 <? currentStepIndex v) = false) as -> by (apply Z.ltb_ge; lia).
    reflexivity.
  - apply truthy_false in T. now rewrite set_currentStepLength_same.
Qed.

Lemma moveToPreviousTask_exhausted (v : Viewer) :
  taskAtFirst v ->
  moveToPreviousTask v = moveToPreviousSetting (set_currentTaskName "" v).
Proof.
  intros H. unfold moveToPreviousTask.
  destruct (truthy (currentTaskName v)) eqn:T.
  - destruct H as [H|H]; [apply truthy_false in H; congruence|].
    fold (currentTaskIndex v).
    assert ((0 <? currentTaskIndex v) = false) as -> by (apply Z.ltb_ge; lia).
    reflexivity.
  - apply truthy_false in T. now rewrite set_currentTaskName_same.
Qed.

Lemma next_smaller (l : list nat) (i : nat) :
  StronglySorted Nat.lt l -> (i + 1 < List.length l)%nat ->
  forall k, In k l -> (k < nth (i + 1) l 0)%nat -> (k <= nth i l 0)%nat.
Proof.
  intros Hs Hi k Hk Hlt. destruct (In_nth l k 0%nat Hk) as (j & Hj & <-).
  destruct (Nat.lt_trichotomy j i) as [L|[->|G]].
  - assert (nth j l 0 < nth i l 0)%nat by (apply (sorted_nth Nat.lt); trivial; lia). lia.
  - lia.
  - exfalso. destruct (Nat.eq_dec j (i + 1)) as [->|Ne]; [lia|].
    assert (nth (i + 1) l 0 < nth j l 0)%nat by (apply (sorted_nth Nat.lt); trivial; lia).
    lia.
Qed.

Lemma moveToPreviousCategory_step (v : Viewer) :
  wellFormed v ->
  currentStepLength v <> "" ->
  0 < currentStepIndex v ->
  let m := nth (Z.to_nat (currentStepIndex v - 1)) (availableStepLengths v) 0%nat in
  let v1 := filterData (set_currentStepLength (JS.toString m) v) in
  moveToPreviousCategory v = (true, updateUI (set_currentIndex (lastIndex v1) v1)).
Proof.
  intros W Hne Hi m v1. unfold moveToPreviousCategory.
  apply truthy_true in Hne. rewrite Hne. fold (currentStepIndex v).
  assert ((0 <? currentStepIndex v) = true) as -> by (apply Z.ltb_lt; lia).
  f_equal. unfold JS.at_. fold m. fold v1. apply updateFilterUI_noop.
  intros opts Ho. left.
  set (w := set_currentIndex (lastIndex v1) v1) in *.
  destruct (updateUI_fields w) as (_ & _ & _ & _ & _ & Fl & _ & _ & _ & _ & Fo).
  rewrite Fl. rewrite Fo in Ho. cbn in Ho |- *.
  rewrite (wf_options v W opts Ho). apply in_map. apply nth_In.
  pose proof (indexOf_bounds (sameNumber (JS.parseInt (currentStepLength v)))
                (availableStepLengths v)) as B.
  fold (currentStepIndex v) in B. lia.
Qed.

Lemma moveToPreviousCategory_task (v : Viewer) :
  stepAtFirst v ->
  currentTaskName v <> "" ->
  0 < currentTaskIndex v ->
  let t := nth (Z.to_nat (currentTaskIndex v - 1)) (availableTaskNames v) "" in
  let v1 := populateStepLengthsForCurrentFilters
              (filterData (set_currentStepLength "" (set_currentTaskName t v))) in
  moveToPreviousCategory v = (true, updateUI (set_currentIndex (lastIndex v1) v1)).
Proof.
  intros Hs Hne Hi t v1. rewrite (moveToPreviousCategory_exhausted v Hs).
  unfold moveToPreviousTask. cbn [currentTaskName set_currentStepLength availableTaskNames].
  apply truthy_true in Hne. rewrite Hne.
  change (JS.indexOf (String.eqb (currentTaskName v)) (availableTaskNames v))
    with (currentTaskIndex v).
  assert ((0 <? currentTaskIndex v) = true) as -> by (apply Z.ltb_lt; lia).
  f_equal.
  change (updateFilterUI (updateUI (set_currentIndex (lastIndex v1) v1)) =
          updateUI (set_currentIndex (lastIndex v1) v1)).
  set (u := filterData (set_currentStepLength "" (set_currentTaskName t v))) in *.
  assert (E : currentStepLength u = "") by reflexivity.
  destruct (populate_after_reset u E) as (_ & Po & Pl). fold v1 in Po, Pl.
  apply updateFilterUI_noop. intros opts Ho.
  destruct (updateUI_fields (set_currentIndex (lastIndex v1) v1))
    as (_ & _ & _ & _ & _ & Fl & _ & _ & _ & _ & Fo).
  rewrite Fl. rewrite Fo in Ho.
  cbn [currentStepLength stepSelect set_currentIndex] in Ho |- *.
  rewrite Pl. rewrite Po in Ho. unfold defaultStepLength. rewrite Po.
  destruct (stepSelect u); [|discriminate]. cbn in Ho |- *. injection Ho as <-.
  destruct (availableStepLengths v1); [now right | left; now left].
Qed.

Lemma moveToPreviousCategory_setting (v : Viewer) :
  stepAtFirst v -> taskAtFirst v ->
  currentSetting v = "forward" \/ currentSetting v = "inverse" ->
  let previous := if String.eqb (currentSetting v) "forward" then "" else "forward" in
  let v1 := filterData
              (set_currentSetting previous
                 (set_currentTaskName "" (set_currentStepLength "" v))) in
  moveToPreviousCategory v =
  (true, updateFilterUI (updateUI (set_currentIndex (lastIndex v1) v1))).
Proof.
  intros Hs Ht Hc previous v1. rewrite (moveToPreviousCategory_exhausted v Hs).
  rewrite moveToPreviousTask_exhausted by exact Ht.
  unfold moveToPreviousSetting.
  cbn [currentSetting set_currentTaskName set_currentStepLength].
  subst v1 previous. destruct Hc as [-> | ->]; reflexivity.
Qed.

Lemma moveToPreviousCategory_none (v : Viewer) :
  stepAtFirst v -> taskAtFirst v -> currentSetting v = "" ->
  moveToPreviousCategory v =
  (false, set_currentTaskName "" (set_currentStepLength "" v)).
Proof.
  intros Hs Ht Hc. rewrite (moveToPreviousCategory_exhausted v Hs).
  rewrite moveToPreviousTask_exhausted by exact Ht.
  unfold moveToPreviousSetting.
  cbn [currentSetting set_currentTaskName set_currentStepLength].
  now rewrite Hc.
Qed.

(** C4, as the code has it.  [moveToPreviousCategory] mirrors
    [moveToNextCategory], trying step length, task and setting in this
    order.  (1) With a step length selected that is not the first, it
    selects the next smaller one and filters.  (2) Otherwise, with a
    task selected that is not the first, it selects the one before, with
    the filter applied with the step length cleared and the available
    step lengths recomputed.  In both cases the index ends at
    [max(0, length - 1)] of the new filtered list: its last item, or zero
    when the category it moved to is empty.  (3) Otherwise, from
    "forward" or "inverse", it selects the setting before in the cycle
    and filters; the index stays in range, and is the last one when the
    page has no step option.  (4) Otherwise, at setting none, it returns
    false, having cleared step length and task name: it changes nothing
    when neither was selected. *)
Theorem moveToPreviousCategory_mirror (v : Viewer) :
  wellFormed v ->
  let v' := snd (moveToPreviousCategory v) in
  (currentStepLength v <> "" ->
   0 < currentStepIndex v ->
   let n := nth (Z.to_nat (currentStepIndex v)) (availableStepLengths v) 0%nat in
   let m := nth (Z.to_nat (currentStepIndex v - 1)) (availableStepLengths v) 0%nat in
   JS.parseInt (currentStepLength v) = Some (Z.of_nat n) /\
   (m < n)%nat /\
   (forall k, In k (availableStepLengths v) -> (k < n)%nat -> (k <= m)%nat) /\
   fst (moveToPreviousCategory v) = true /\
   currentStepLength v' = JS.toString m /\
   currentSetting v' = currentSetting v /\
   currentTaskName v' = currentTaskName v /\
   filterApplied v' /\
   currentIndex v' = Z.max 0 (Z.of_nat (List.length (filteredData v')) - 1)) /\
  (stepAtFirst v ->
   currentTaskName v <> "" ->
   0 < currentTaskIndex v ->
   let t := nth (Z.to_nat (currentTaskIndex v - 1)) (availableTaskNames v) "" in
   ltBy String.leb t (currentTaskName v) /\
   fst (moveToPreviousCategory v) = true /\
   currentTaskName v' = t /\
   currentSetting v' = currentSetting v /\
   StronglySorted Nat.lt (availableStepLengths v') /\
   (forall n, In n (availableStepLengths v') <-> observedStepCount v' n) /\
   filteredData v' = filter (keeps (set_currentStepLength "" v')) (allData v') /\
   currentStepLength v' = defaultStepLength v' /\
   currentIndex v' = Z.max 0 (Z.of_nat (List.length (filteredData v')) - 1)) /\
  (stepAtFirst v ->
   taskAtFirst v ->
   currentSetting v = "forward" \/ currentSetting v = "inverse" ->
   fst (moveToPreviousCategory v) = true /\
   currentSetting v' = (if String.eqb (currentSetting v) "forward" then "" else "forward") /\
   filterApplied v' /\
   0 <= currentIndex v' <= Z.max 0 (Z.of_nat (List.length (filteredData v')) - 1) /\
   (stepSelect v = None \/ stepSelect v = Some [] ->
    currentIndex v' = Z.max 0 (Z.of_nat (List.length (filteredData v')) - 1))) /\
  (stepAtFirst v ->
   taskAtFirst v ->
   currentSetting v = "" ->
   moveToPreviousCategory v =
   (false, set_currentTaskName "" (set_currentStepLength "" v)) /\
   (currentStepLength v = "" -> currentTaskName v = "" ->
    moveToPreviousCategory v = (false, v))).
Proof.
  intros W. cbv zeta. repeat apply conj.
  - (* previous step length *)
    intros Hne Hi.
    pose proof (indexOf_bounds (sameNumber (JS.parseInt (currentStepLength v)))
                  (availableStepLengths v)) as B.
    fold (currentStepIndex v) in B.
    rewrite (moveToPreviousCategory_step v W Hne Hi). cbn [fst snd].
    set (i := Z.to_nat (currentStepIndex v - 1)).
    replace (Z.to_nat (currentStepIndex v)) with (i + 1)%nat by lia.
    destruct (next_larger (availableStepLengths v) i (wf_steps v W) ltac:(lia)) as [L1 _].
    pose proof (next_smaller (availableStepLengths v) i (wf_steps v W) ltac:(lia)) as L2.
    set (v1 := filterData _).
    set (w := set_currentIndex (lastIndex v1) v1).
    destruct (updateUI_fields w) as (_ & Fd & Fi & Fs & Ft & Fl & _).
    rewrite Fi, Fs, Ft, Fl, Fd.
    repeat split; trivial.
    + replace (i + 1)%nat with (Z.to_nat (currentStepIndex v)) by lia.
      apply step_found. lia.
    + apply updateUI_applied. unfold filterApplied. subst w. cbn. reflexivity.
  - (* previous task *)
    intros Hs Hne Hi.
    pose proof (indexOf_bounds (String.eqb (currentTaskName v)) (availableTaskNames v)) as B.
    fold (currentTaskIndex v) in B.
    rewrite (moveToPreviousCategory_task v Hs Hne Hi). cbn [fst snd].
    set (t := nth _ _ _).
    set (u := filterData (set_currentStepLength "" (set_currentTaskName t v))).
    assert (E : currentStepLength u = "") by reflexivity.
    assert (Us : currentSetting u = currentSetting v) by reflexivity.
    assert (Ut : currentTaskName u = t) by reflexivity.
    assert (Ua : allData u = allData v) by reflexivity.
    assert (Ud : filteredData u =
                 filter (keeps (set_currentStepLength "" (set_currentTaskName t v)))
                   (allData v)) by reflexivity.
    destruct (populate_after_reset u E) as (_ & Po & Pl).
    destruct (populate_fields u) as (Pa & Pd & Pi & Ps & Pt & _).
    pose proof (populate_sorted u) as Psort.
    pose proof (fun n => populate_available u n) as Pav.
    set (p := populateStepLengthsForCurrentFilters u) in *.
    set (w := set_currentIndex (lastIndex p) p).
    assert (Wa : allData w = allData p) by reflexivity.
    assert (Wd : filteredData w = filteredData p) by reflexivity.
    assert (Wi : currentIndex w = lastIndex p) by reflexivity.
    assert (Ws : currentSetting w = currentSetting p) by reflexivity.
    assert (Wt : currentTaskName w = currentTaskName p) by reflexivity.
    assert (Wl : currentStepLength w = currentStepLength p) by reflexivity.
    assert (Was : availableStepLengths w = availableStepLengths p) by reflexivity.
    assert (Wo : stepSelect w = stepSelect p) by reflexivity.
    destruct (updateUI_fields w)
      as (Fa & Fd & Fi & Fs & Ft & Fl & _ & Fas & _ & _ & Fo).
    assert (Lt : ltBy String.leb t (currentTaskName v)).
    { assert (F : String.eqb (currentTaskName v)
                    (nth (Z.to_nat (currentTaskIndex v)) (availableTaskNames v) "") = true)
        by (apply (indexOf_found (String.eqb (currentTaskName v)));
            fold (currentTaskIndex v); lia).
      apply String.eqb_eq in F. rewrite F at 1. subst t.
      apply (sorted_nth (ltBy String.leb)); [apply (wf_tasks v W) | lia | lia]. }
    split; [exact Lt|]. split; [reflexivity|].
    rewrite Ft, Fs, Fas, Fd, Fa, Fl, Fi, Wt, Ws, Was, Wd, Wa, Wl, Wi, Pt, Ps, Pd, Pa.
    split; [exact Ut|]. split; [exact Us|]. split; [exact Psort|].
    split.
    { intros n. rewrite Pav. apply observedStepCount_ext; congruence. }
    split.
    { rewrite Ud, Ua. apply filter_ext. intros x. apply keeps_ext; cbn; congruence. }
    split.
    { rewrite Pl. unfold defaultStepLength. now rewrite Fo, Fas, Wo, Was. }
    unfold lastIndex. now rewrite Pd.
  - (* previous setting *)
    intros Hs Ht Hc.
    rewrite (moveToPreviousCategory_setting v Hs Ht Hc). cbn [fst snd].
    set (v1 := filterData _).
    assert (Hv1 : currentSetting v1 =
                  if String.eqb (currentSetting v) "forward" then "" else "forward")
      by reflexivity.
    assert (Ho1 : stepSelect v1 = stepSelect v) by reflexivity.
    assert (Hl1 : currentStepLength v1 = "") by reflexivity.
    set (w := set_currentIndex (lastIndex v1) v1).
    assert (Ww : filterApplied w) by reflexivity.
    assert (Wi : currentIndex w = Z.max 0 (Z.of_nat (List.length (filteredData w)) - 1))
      by reflexivity.
    destruct (updateUI_fields w) as (_ & Fd & Fi & Fs & _ & Fl & _ & _ & _ & _ & Fo).
    split; [reflexivity|].
    assert (K : stepSelect v = None \/ stepSelect v = Some [] ->
                updateFilterUI (updateUI w) = updateUI w).
    { intros K. apply updateFilterUI_noop. intros opts Hopts. right.
      rewrite Fo in Hopts. change (stepSelect w) with (stepSelect v) in Hopts.
      destruct K as [K|K]; congruence. }
    destruct (updateFilterUI_index (updateUI w)) as [E|[first E]].
    + rewrite E, Fs, Fi, Fd. repeat split; trivial; try lia.
      now apply updateUI_applied.
    + split; [rewrite E; cbn; now rewrite Fs|].
      split; [rewrite E; apply filterData_applied|].
      split; [rewrite E; cbn; lia|].
      intros H. rewrite (K H), Fi, Fd. exact Wi.
  - (* nothing before *)
    intros Hs Ht Hc. split; [now apply moveToPreviousCategory_none|].
    intros Hl Hn. rewrite (moveToPreviousCategory_none v Hs Ht Hc).
    now rewrite (set_currentStepLength_same v Hl), (set_currentTaskName_same v Hn).
Qed.

Lemma moveToPreviousCategory_mirror_witness :
  (fst (moveToPreviousCategory (demoAfter 4)) = true /\
   filterApplied (snd (moveToPreviousCategory (demoAfter 4)))) /\
  (fst (moveToPreviousCategory (demoAfter 2)) = true /\
   currentSetting (snd (moveToPreviousCategory (demoAfter 2))) =
   currentSetting (demoAfter 2)) /\
  (fst (moveToPreviousCategory (demoAfter 0)) = true /\
   filterApplied (snd (moveToPreviousCategory (demoAfter 0)))) /\
  moveToPreviousCategory atVeryFirst =
  (false, set_currentTaskName "" (set_currentStepLength "" atVeryFirst)).
Proof.
  assert (W : forall n, wellFormed (demoAfter n))
    by (intros n; apply advance_wellFormed, init_wellFormed).
  assert (W' : wellFormed atVeryFirst) by apply run_wellFormed, init_wellFormed.
  split; [|split; [|split]].
  - destruct (moveToPreviousCategory_mirror (demoAfter 4) (W 4%nat)) as (A & _).
    assert (H1 : currentStepLength (demoAfter 4) <> "") by (vm_compute; discriminate).
    assert (H2 : 0 < currentStepIndex (demoAfter 4)) by (vm_compute; reflexivity).
    destruct (A H1 H2) as (_ & _ & _ & F & _ & _ & _ & I & _). exact (conj F I).
  - destruct (moveToPreviousCategory_mirror (demoAfter 2) (W 2%nat)) as (_ & B & _).
    assert (H1 : stepAtFirst (demoAfter 2)) by (right; vm_compute; discriminate).
    assert (H2 : currentTaskName (demoAfter 2) <> "") by (vm_compute; discriminate).
    assert (H3 : 0 < currentTaskIndex (demoAfter 2)) by (vm_compute; reflexivity).
    destruct (B H1 H2 H3) as (_ & F & _ & I & _). exact (conj F I).
  - destruct (moveToPreviousCategory_mirror (demoAfter 0) (W 0%nat)) as (_ & _ & C & _).
    assert (H1 : stepAtFirst (demoAfter 0)) by (right; vm_compute; discriminate).
    assert (H2 : taskAtFirst (demoAfter 0)) by (right; vm_compute; discriminate).
    assert (H3 : currentSetting (demoAfter 0) = "forward" \/
                 currentSetting (demoAfter 0) = "inverse")
      by (left; vm_compute; reflexivity).
    destruct (C H1 H2 H3) as (F & _ & I & _). exact (conj F I).
  - destruct (moveToPreviousCategory_mirror atVeryFirst W') as (_ & _ & _ & D).
    assert (H1 : stepAtFirst atVeryFirst) by (right; vm_compute; discriminate).
    assert (H2 : taskAtFirst atVeryFirst) by (right; vm_compute; discriminate).
    assert (H3 : currentSetting atVeryFirst = "") by (vm_compute; reflexivity).
    exact (proj1 (D H1 H2 H3)).
Defined.

(** Against C4 as the specification words it.  On [sparse], from the
    first sample under "inverse" and the second task, the move succeeds
    into the task before, which has no sample under "inverse": the
    filtered list is empty and the index is zero, not [length - 1], and
    no last sample of an earlier category with samples is reached.  On
    [demo], from the first sample under setting none, first task and
    first step length, the move fails but is no no-op: it clears the task
    name and the step length. *)
Lemma moveToPreviousCategory_counterexample :
  (fst (moveToPreviousCategory atInverseWash) = true /\
   filteredData (snd (moveToPreviousCategory atInverseWash)) = [] /\
   currentIndex (snd (moveToPreviousCategory atInverseWash)) <>
   Z.of_nat (List.length (filteredData (snd (moveToPreviousCategory atInverseWash)))) - 1) /\
  (currentIndex atVeryFirst = 0 /\
   fst (moveToPreviousCategory atVeryFirst) = false /\
   snd (moveToPreviousCategory atVeryFirst) <> atVeryFirst).
Proof.
  repeat apply conj.
  - vm_compute. reflexivity.
  - vm_compute. reflexivity.
  - vm_compute. discriminate.
  - vm_compute. reflexivity.
  - vm_compute. reflexivity.
  - intros H. apply (f_equal currentTaskName) in H. vm_compute in H. discriminate H.
Defined.

End PreviousCategory.

(** ** The selected step length and the samples *)

Section StepInvariant.

Lemma observedStepCountb_spec (v : Viewer) (n : nat) :
  observedStepCountb v n = true <-> observedStepCount v n.
Proof.
  unfold observedStepCountb, observedStepCount. rewrite existsb_exists. split.
  - intros (s & Hs & H). apply andb_prop in H as [H1 H2].
    destruct (key_frame_ids s) as [ids|] eqn:K; [|discriminate].
    apply Nat.eqb_eq in H2. exists s, ids. auto.
  - intros (s & ids & Hs & H1 & K & L). exists s. split; trivial.
    rewrite H1, K. cbn. now apply Nat.eqb_eq.
Qed.

(** After a change of the setting or of the task, the selected step
    length is unset or one of those observed. *)
Lemma selector_change_observed (w : Viewer) :
  currentStepLength w = "" ->
  stepCountObserved (updateUI (filterData (populateStepLengthsForCurrentFilters w))).
Proof.
  intros E. destruct (change_then_refresh w E) as (_ & _ & _ & Hav & Hl & _).
  set (v' := updateUI _) in *. unfold stepCountObserved. rewrite Hl.
  unfold defaultStepLength in *.
  destruct (stepSelect v'); [|now left].
  destruct (availableStepLengths v') as [|first rest] eqn:L; [now left|].
  right. exists first. split; [apply parseInt_toString|].
  apply Hav. now left.
Qed.

(** C8, where it holds and where the code breaks it.  The two selector
    listeners leave the selected step length unset or among the step
    counts observed for the new setting and task.  [navigateNext] does
    not: on [demo], from the last sample of the last task under
    "forward", where the invariant holds, it moves to "inverse" and, the
    step options not having been recomputed, selects the step length 2,
    which no sample under "inverse" has; the filtered list is empty. *)
Theorem stepCount_stale_after_setting_move :
  (forall value v,
     stepCountObserved (onSettingChange value v) /\
     stepCountObserved (onTaskChange value v)) /\
  stepCountObserved atLastForward /\
  currentSetting (navigateNext atLastForward) = "inverse" /\
  currentStepLength (navigateNext atLastForward) = JS.toString 2 /\
  filteredData (navigateNext atLastForward) = [] /\
  ~ stepCountObserved (navigateNext atLastForward).
Proof.
  split; [|split; [|split; [|split; [|split]]]].
  - intros value v. split.
    + exact (selector_change_observed
               (set_currentStepLength "" (set_currentSetting value v)) eq_refl).
    + exact (selector_change_observed
               (set_currentStepLength "" (set_currentTaskName value v)) eq_refl).
  - right. exists 3%nat. split; [vm_compute; reflexivity|].
    apply observedStepCountb_spec. vm_compute. reflexivity.
  - vm_compute. reflexivity.
  - vm_compute. reflexivity.
  - vm_compute. reflexivity.
  - intros [H|(n & Hn & Ho)].
    + vm_compute in H. discriminate H.
    + assert (E : JS.parseInt (currentStepLength (navigateNext atLastForward)) = Some 2)
        by (vm_compute; reflexivity).
      rewrite E in Hn. injection Hn as Hn. assert (n = 2%nat) by lia. subst n.
      apply observedStepCountb_spec in Ho. vm_compute in Ho. discriminate Ho.
Qed.

End StepInvariant.

(** ** The walk of repeated presses of next *)

Section Walk.

Lemma closer_wf : well_founded closer.
Proof. unfold closer. repeat apply wf_slexprod; apply Nat.lt_wf_0. Qed.


Lemma ltBy_irrefl {A : Type} (leb : A -> A -> bool) (x : A) : ~ ltBy leb x x.
Proof. intros [_ H]. now apply H. Qed.

Lemma steps_NoDup (v : Viewer) : wellFormed v -> NoDup (availableStepLengths v).
Proof.
  intros W. apply (sorted_NoDup Nat.lt); [apply Nat.lt_irrefl | apply (wf_steps v W)].
Qed.

Lemma tasks_NoDup (v : Viewer) : wellFormed v -> NoDup (availableTaskNames v).
Proof.
  intros W. apply (sorted_NoDup (ltBy String.leb)); [apply ltBy_irrefl | apply (wf_tasks v W)].
Qed.




(** Inside the filtered list. *)
Lemma navigateNext_inside (v : Viewer) :
  currentIndex v < Z.of_nat (List.length (filteredData v)) - 1 ->
  navigateNext v = updateUI (set_showAnswer false (set_currentIndex (currentIndex v + 1) v)) /\
  filteredData (navigateNext v) = filteredData v /\
  currentIndex (navigateNext v) = currentIndex v + 1 /\
  currentSetting (navigateNext v) = currentSetting v /\
  currentTaskName (navigateNext v) = currentTaskName v /\
  currentStepLength (navigateNext v) = currentStepLength v /\
  availableTaskNames (navigateNext v) = availableTaskNames v /\
  availableStepLengths (navigateNext v) = availableStepLengths v.
Proof.
  intros H. unfold navigateNext.
  assert ((currentIndex v <? Z.of_nat (List.length (filteredData v)) - 1) = true) as ->
    by (apply Z.ltb_lt; lia).
  split; [reflexivity|].
  destruct (updateUI_fields (set_showAnswer false (set_currentIndex (currentIndex v + 1) v)))
    as (_ & Fd & Fi & Fs & Ft & Fl & Ftn & Fas & _).
  rewrite Fd, Fi, Fs, Ft, Fl, Ftn, Fas. repeat split.
Qed.


(** The position of a step length that has just been selected from the
    available ones. *)
Lemma stepIndex_selected (w : Viewer) (i : nat) :
  NoDup (availableStepLengths w) ->
  (i < List.length (availableStepLengths w))%nat ->
  currentStepLength w = JS.toString (nth i (availableStepLengths w) 0%nat) ->
  currentStepIndex w = Z.of_nat i.
Proof.
  intros N Hi E. unfold currentStepIndex. rewrite E.
  rewrite (indexOf_ext _ (Nat.eqb (nth i (availableStepLengths w) 0%nat))).
  - now apply (indexOf_nth Nat.eqb Nat.eqb_eq).
  - intros x. rewrite sameNumber_toString. apply Nat.eqb_sym.
Qed.

Lemma taskIndex_selected (w : Viewer) (i : nat) :
  NoDup (availableTaskNames w) ->
  (i < List.length (availableTaskNames w))%nat ->
  currentTaskName w = nth i (availableTaskNames w) "" ->
  currentTaskIndex w = Z.of_nat i.
Proof.
  intros N Hi E. unfold currentTaskIndex. rewrite E.
  now apply (indexOf_nth String.eqb String.eqb_eq).
Qed.

Lemma updateFilterUI_setting (w : Viewer) :
  currentSetting (updateFilterUI w) = currentSetting w.
Proof. destruct (updateFilterUI_index w) as [->|[first ->]]; reflexivity. Qed.

















End Walk.

(** ** Substrings and the setting of a sample *)

Section Substrings.

Lemma prefix_app (p s : string) :
  String.prefix p s = true <-> exists b, s = p ++ b.
Proof.
  revert s. induction p as [|c p IH]; intros s.
  - split; [intros _; now exists s | now destruct s].
  - destruct s as [|c' s]; cbn.
    + split; [discriminate | intros [b H]; discriminate H].
    + destruct (Ascii.ascii_dec c c') as [->|Hne].
      * rewrite IH. split; intros [b H]; exists b; [now rewrite H | now injection H].
      * split; [discriminate | intros [b H]; injection H; intros _ E; now elim Hne].
Qed.

Lemma includes_spec (sub s : string) :
  JS.includes sub s = true <-> exists a b, s = a ++ sub ++ b.
Proof.
  induction s as [|c s IH]; cbn [JS.includes]; rewrite orb_true_iff, prefix_app.
  - split.
    + intros [[b H]|H]; [now exists "", b | discriminate].
    + intros ([|c a] & b & H); [left; now exists b | discriminate H].
  - rewrite IH. split.
    + intros [[b H]|(a & b & H)]; [now exists "", b|].
      exists (String c a), b. now rewrite H.
    + intros ([|c' a] & b & H); [left; now exists b|].
      right. injection H as _ H. now exists a, b.
Qed.

(** X1.  [getSettingFromType] answers "forward" exactly for the types in
    which that word occurs somewhere, "inverse" exactly for those in
    which "inverse" occurs and "forward" does not, and the empty string
    for the rest: "forward" wins when both occur. *)
Theorem getSettingFromType_substring (type : string) :
  let contains (word : string) := exists a b, type = a ++ word ++ b in
  (getSettingFromType type = "forward" <-> contains "forward") /\
  (getSettingFromType type = "inverse" <->
     contains "inverse" /\ ~ contains "forward") /\
  (getSettingFromType type = "" <->
     ~ contains "forward" /\ ~ contains "inverse").
Proof.
  cbv zeta. unfold getSettingFromType.
  rewrite <- !includes_spec.
  destruct (JS.includes "forward" type), (JS.includes "inverse" type);
    repeat split; try discriminate; try reflexivity;
    try (intros [H1 H2]; try discriminate; try (now elim H1); now elim H2).
Qed.


End Substrings.

(** ** White space around a text *)

Section WhiteSpace.














End WhiteSpace.


(** ** The lines of the dataset file *)

Section Lines.

Variable JSON_parse : string -> option JSValue.









End Lines.


(** ** The name of a task as the selector shows it *)

Section TaskNames.

Lemma has_app (c : ascii) (a b : string) :
  Text.has c (a ++ b) = (Text.has c a || Text.has c b)%bool.
Proof.
  induction a as [|c' a IH]; cbn; [reflexivity|]. now rewrite IH, orb_assoc.
Qed.

Lemma split_pieces (sep : ascii) (s : string) :
  Forall (fun piece => Text.has sep piece = false) (Text.split sep s).
Proof.
  induction s as [|c s IH]; cbn [Text.split].
  - repeat constructor.
  - destruct (Ascii.eqb c sep) eqn:E.
    + constructor; [reflexivity | exact IH].
    + destruct (Text.split sep s) as [|piece rest].
      * repeat constructor. cbn. now rewrite E.
      * inversion IH as [|? ? Hp Hr]; subst. constructor; [|exact Hr].
        cbn. now rewrite E, Hp.
Qed.

Lemma toUpperCase_underscore (c : ascii) :
  Ascii.eqb (Text.toUpperCase c) "_" = Ascii.eqb c "_".
Proof.
  destruct c as [[] [] [] [] [] [] [] []]; vm_compute; reflexivity.
Qed.

Lemma capitalize_has (word : string) :
  Text.has "_" (capitalize word) = Text.has "_" word.
Proof.
  destruct word as [|c rest]; cbn; [reflexivity|].
  now rewrite toUpperCase_underscore.
Qed.

Lemma joinWith_has (c : ascii) (sep : string) (l : list string) :
  Text.has c sep = false ->
  Forall (fun piece => Text.has c piece = false) l ->
  Text.has c (Text.joinWith sep l) = false.
Proof.
  intros Hsep H. induction H as [|x l Hx H IH]; cbn [Text.joinWith]; [reflexivity|].
  destruct l as [|y l]; [exact Hx|].
  now rewrite !has_app, Hx, Hsep, IH.
Qed.

Lemma allDigits_app (a b : string) :
  Text.allDigits (a ++ b) = (Text.allDigits a && Text.allDigits b)%bool.
Proof.
  induction a as [|c a IH]; cbn; [reflexivity|]. now rewrite IH, andb_assoc.
Qed.

Lemma allDigits_underscore (a b : string) :
  Text.allDigits (a ++ String "_" b) = false.
Proof.
  rewrite allDigits_app. cbn. apply andb_false_r.
Qed.

(** The cut falls at the last underscore when digits, and at least one,
    follow it to the end. *)
Lemma withoutTimestamp_suffix (name digits : string) :
  digits <> "" -> Text.allDigits digits = true ->
  withoutTimestamp (name ++ "_" ++ digits) = name.
Proof.
  intros Hne Hd. change ("_" ++ digits) with (String "_" digits).
  induction name as [|c name IH].
  - cbn. assert (truthy digits = true) as -> by now apply truthy_true.
    now rewrite Hd.
  - change (String c name ++ String "_" digits)
      with (String c (name ++ String "_" digits)).
    cbn [withoutTimestamp]. rewrite IH.
    now rewrite allDigits_underscore, andb_false_r.
Qed.

(** X6.  The name [formatTaskName] returns holds no underscore: the
    words of the task name are set apart by spaces. *)
Theorem formatTaskName_no_underscore (taskName : string) :
  Text.has "_" (formatTaskName taskName) = false.
Proof.
  unfold formatTaskName. apply joinWith_has; [reflexivity|].
  apply Forall_map.
  eapply Forall_impl; [| apply split_pieces].
  intros piece H. cbv beta. now rewrite capitalize_has.
Qed.

(** X7.  [formatTaskName] drops a time stamp: for a name followed by an
    underscore and one or more digits it returns the capitalised words
    of the name alone, so two names that differ in the time stamp only
    are shown the same. *)
Theorem formatTaskName_timestamp (name digits digits' : string) :
  digits <> "" -> Text.allDigits digits = true ->
  digits' <> "" -> Text.allDigits digits' = true ->
  formatTaskName (name ++ "_" ++ digits) =
    Text.joinWith " " (map capitalize (Text.split "_" name)) /\
  formatTaskName (name ++ "_" ++ digits) = formatTaskName (name ++ "_" ++ digits').
Proof.
  intros H1 H2 H3 H4. unfold formatTaskName.
  now rewrite !withoutTimestamp_suffix.
Qed.

End TaskNames.

Lemma formatTaskName_timestamp_witness :
  formatTaskName ("wash_dishes" ++ "_" ++ "1700000000") = "Wash Dishes" /\
  formatTaskName ("wash_dishes" ++ "_" ++ "1700000000") =
  formatTaskName ("wash_dishes" ++ "_" ++ "42").
Proof.
  apply (formatTaskName_timestamp "wash_dishes" "1700000000" "42");
    first [discriminate | reflexivity].
Defined.

(** ** The grid of images *)

Section Images.

(** X8.  The grid of [getSampleHTML] has as many columns as there are
    images, but no fewer than two and no more than five. *)
Theorem gridClass_columns (numImages : nat) :
  gridClass numImages =
  "images-grid-" ++ JS.toString (Nat.min 5 (Nat.max 2 numImages)) ++ "col".
Proof.
  do 5 (destruct numImages as [|numImages]; [reflexivity|]).
  reflexivity.
Qed.



End Images.


(** ** The two refreshers of the step selector *)

Section Refreshing.

Lemma populate_again (v : Viewer) (l : list nat) :
  l = sortedStepLengths (filter (inCurrentSettingAndTask v) (allData v)) ->
  availableStepLengths v = l ->
  stepSelect v = None \/ stepSelect v = Some (map JS.toString l) ->
  (stepSelect v <> None -> l <> [] ->
   existsb (sameNumber (JS.parseInt (currentStepLength v))) l = true) ->
  populateStepLengthsForCurrentFilters v = v.
Proof.
  intros El Ea So Hc. unfold populateStepLengthsForCurrentFilters. cbv zeta.
  rewrite <- El.
  assert (R : set_availableStepLengths l v = v) by (rewrite <- Ea; destruct v; reflexivity).
  rewrite R.
  destruct So as [So|So]; rewrite So; [reflexivity|].
  assert (R' : set_stepSelect (Some (map JS.toString (availableStepLengths v))) v = v)
    by (rewrite Ea, <- So; destruct v; reflexivity).
  rewrite R', Ea.
  destruct l as [|first rest]; [reflexivity|].
  rewrite Hc by (try rewrite So; discriminate).
  assert (truthy (currentStepLength v) = true) as ->.
  { destruct (truthy (currentStepLength v)) eqn:T; [reflexivity|].
    apply truthy_false in T. exfalso.
    assert (K : existsb (sameNumber (JS.parseInt (currentStepLength v))) (first :: rest) = true)
      by (apply Hc; try rewrite So; discriminate).
    rewrite T in K. clear -K. induction (first :: rest); [discriminate|]. cbn in K. auto. }
  reflexivity.
Qed.

Lemma populate_post (v : Viewer) :
  let l := sortedStepLengths (filter (inCurrentSettingAndTask v) (allData v)) in
  let v' := populateStepLengthsForCurrentFilters v in
  availableStepLengths v' = l /\
  stepSelect v' = option_map (fun _ => map JS.toString l) (stepSelect v) /\
  (stepSelect v <> None -> l <> [] ->
   existsb (sameNumber (JS.parseInt (currentStepLength v'))) l = true).
Proof.
  intros l. unfold populateStepLengthsForCurrentFilters. cbv zeta.
  cbn [stepSelect set_availableStepLengths availableStepLengths set_stepSelect].
  fold l.
  destruct (stepSelect v) as [opts|] eqn:So.
  - cbn [option_map]. destruct l as [|first rest].
    + split; [reflexivity | split; [reflexivity|]]. intros _ H. now elim H.
    + cbn [currentStepLength set_stepSelect set_availableStepLengths].
      destruct (existsb (sameNumber (JS.parseInt (currentStepLength v))) (first :: rest)) eqn:Ex.
      * destruct (negb (truthy (currentStepLength v))); cbn [orb negb];
          (split; [reflexivity | split; [reflexivity|]]); intros _ _;
          cbn [currentStepLength set_currentStepLength existsb];
          [now rewrite sameNumber_toString, Nat.eqb_refl | exact Ex].
      * rewrite orb_true_r. split; [reflexivity | split; [reflexivity|]]. intros _ _.
        cbn [currentStepLength set_currentStepLength existsb].
        now rewrite sameNumber_toString, Nat.eqb_refl.
  - cbn [stepSelect availableStepLengths set_availableStepLengths]. rewrite So.
    split; [reflexivity | split; [reflexivity|]]. intros H. now elim H.
Qed.

(** X10.  After [populateStepLengthsForCurrentFilters], on a page with
    the step selector and with some step length available, the selected
    step length reads as one of the available numbers; and running the
    method again changes nothing. *)
Theorem populate_idempotent (v : Viewer) :
  let v' := populateStepLengthsForCurrentFilters v in
  populateStepLengthsForCurrentFilters v' = v' /\
  (stepSelect v <> None -> availableStepLengths v' <> [] ->
   existsb (sameNumber (JS.parseInt (currentStepLength v')))
     (availableStepLengths v') = true).
Proof.
  intros v'. destruct (populate_post v) as (Ea & So & Hc). fold v' in Ea, So, Hc.
  destruct (populate_fields v) as (Fa & _ & _ & Fs & Ft & _). fold v' in Fa, Fs, Ft.
  set (l := sortedStepLengths (filter (inCurrentSettingAndTask v) (allData v))) in *.
  split.
  - apply (populate_again v' l).
    + rewrite Fa. unfold l. f_equal. apply filter_ext. intros s.
      symmetry. now apply inCurrentSettingAndTask_ext.
    + exact Ea.
    + rewrite So. destruct (stepSelect v); [now right | now left].
    + intros H. apply Hc. intros K. apply H. rewrite So, K. reflexivity.
  - rewrite Ea. exact Hc.
Qed.

(** X11.  After [updateFilterUI], on a page whose step selector has
    options, the selected step length is one of them; a filter that was
    applied stays applied; and running the method again changes
    nothing. *)
Theorem updateFilterUI_selects_option (v : Viewer) :
  updateFilterUI (updateFilterUI v) = updateFilterUI v /\
  (filterApplied v -> filterApplied (updateFilterUI v)) /\
  (forall opts, stepSelect v = Some opts -> opts <> [] ->
     stepSelect (updateFilterUI v) = Some opts /\
     In (currentStepLength (updateFilterUI v)) opts).
Proof.
  destruct (stepSelect v) as [opts|] eqn:So.
  - destruct (existsb (String.eqb (currentStepLength v)) opts) eqn:Ex.
    + assert (U : updateFilterUI v = v) by (unfold updateFilterUI; now rewrite So, Ex).
      rewrite !U. split; [reflexivity | split; [trivial|]].
      intros o [= <-] _. split; [exact So|].
      exact (proj1 (existsb_eqb String.eqb String.eqb_eq _ _) Ex).
    + destruct opts as [|first rest].
      * assert (U : updateFilterUI v = v) by (unfold updateFilterUI; now rewrite So, Ex).
        rewrite !U. split; [reflexivity | split; [trivial|]].
        intros o [= <-] H. now elim H.
      * assert (U : updateFilterUI v = filterData (set_currentStepLength first v))
          by (unfold updateFilterUI; now rewrite So, Ex).
        rewrite !U. split; [|split].
        -- unfold updateFilterUI.
           cbn [stepSelect filterData set_showAnswer set_currentIndex set_filteredData
                  set_currentStepLength currentStepLength].
           rewrite So. cbn [existsb]. now rewrite String.eqb_refl.
        -- intros _. apply filterData_applied.
        -- intros o [= <-] _. split; [exact So | now left].
  - assert (U : updateFilterUI v = v) by (unfold updateFilterUI; now rewrite So).
    rewrite !U. split; [reflexivity | split; [trivial | discriminate]].
Qed.

End Refreshing.

(** ** What the page shows *)

Section Showing.

Lemma updateUI_shows (v : Viewer) : indexInRange v -> displayCurrent (updateUI v).
Proof.
  unfold indexInRange, lastIndex, displayCurrent, updateUI, currentItem. intros R.
  destruct (dataDisplay v) as [d|] eqn:D; [|now rewrite D].
  destruct (filteredData v) as [|x l] eqn:F.
  - cbn. now rewrite F.
  - assert ((currentIndex v <? 0) = false) as K by (apply Z.ltb_ge; lia).
    rewrite K.
    destruct (nth_error (x :: l) (Z.to_nat (currentIndex v))) as [s|] eqn:N.
    + cbn. rewrite F, K, N. now exists s.
    + exfalso. apply nth_error_None in N. cbn [List.length] in R, N. lia.
Qed.

Lemma filterData_inRange (v : Viewer) : indexInRange (filterData v).
Proof. unfold indexInRange, lastIndex. cbn. lia. Qed.

(** X12.  Whenever the index points into the filtered list, [updateUI]
    leaves on the page the sample under the index, with the answer shown
    or hidden as [showAnswer] says, or the no-data message when the list
    is empty.  Hence the page shows the current sample after every
    change of a selector, after the toggle, and after a move inside the
    filtered list. *)
Theorem page_shows_current (v : Viewer) (value : string) :
  indexInRange v ->
  displayCurrent (updateUI v) /\
  displayCurrent (onSettingChange value v) /\
  displayCurrent (onTaskChange value v) /\
  displayCurrent (onStepChange value v) /\
  displayCurrent (onToggleReveal v) /\
  (currentIndex v < Z.of_nat (List.length (filteredData v)) - 1 ->
   displayCurrent (navigateNext v)) /\
  (0 < currentIndex v -> displayCurrent (navigatePrevious v)).
Proof.
  intros R. repeat split.
  - now apply updateUI_shows.
  - apply updateUI_shows, filterData_inRange.
  - apply updateUI_shows, filterData_inRange.
  - apply updateUI_shows, filterData_inRange.
  - apply updateUI_shows. exact R.
  - intros H. unfold navigateNext.
    assert ((currentIndex v <? Z.of_nat (List.length (filteredData v)) - 1) = true) as ->
      by (apply Z.ltb_lt; lia).
    apply updateUI_shows. unfold indexInRange, lastIndex in *. cbn. lia.
  - intros H. unfold navigatePrevious.
    assert ((0 <? currentIndex v) = true) as -> by (apply Z.ltb_lt; lia).
    apply updateUI_shows. unfold indexInRange, lastIndex in *. cbn. lia.
Qed.

(** X13.  The answer toggle flips [showAnswer] and nothing else of the
    session; on a page that shows the current sample, toggling twice
    restores the page and the session exactly. *)
Theorem toggle_twice (v : Viewer) :
  displayCurrent v ->
  showAnswer (onToggleReveal v) = negb (showAnswer v) /\
  filteredData (onToggleReveal v) = filteredData v /\
  currentIndex (onToggleReveal v) = currentIndex v /\
  currentSetting (onToggleReveal v) = currentSetting v /\
  currentTaskName (onToggleReveal v) = currentTaskName v /\
  currentStepLength (onToggleReveal v) = currentStepLength v /\
  onToggleReveal (onToggleReveal v) = v.
Proof.
  intros D. unfold onToggleReveal.
  destruct (updateUI_fields (set_showAnswer (negb (showAnswer v)) v))
    as (_ & Fd & Fi & Fs & Ft & Fl & _ & _ & Fa & _).
  repeat split; try assumption.
  destruct v as [all filt idx set task step names avail show tsel ssel disp].
  unfold displayCurrent, currentItem in D. cbn in D.
  unfold updateUI. cbn.
  destruct disp as [d|]; cbn; [|now rewrite negb_involutive].
  destruct filt as [|x l]; cbn.
  - rewrite negb_involutive. now subst d.
  - destruct D as (s & Hs & ->).
    destruct (idx <? 0) eqn:K; [discriminate Hs|].
    rewrite Hs. cbn. rewrite K, Hs. cbn. now rewrite negb_involutive.
Qed.

End Showing.

Lemma page_shows_current_witness :
  displayCurrent (onStepChange "3" (init trio page)) /\
  displayCurrent (navigateNext (init trio page)).
Proof.
  assert (R : indexInRange (init trio page)) by apply init_inRange.
  assert (L : currentIndex (init trio page) <
              Z.of_nat (List.length (filteredData (init trio page))) - 1)
    by (vm_compute; reflexivity).
  destruct (page_shows_current (init trio page) "3" R) as (_ & _ & _ & A & _ & B & _).
  split; [exact A | exact (B L)].
Defined.

Lemma toggle_twice_witness :
  onToggleReveal (onToggleReveal (init demo page)) = init demo page.
Proof.
  assert (D : displayCurrent (init demo page))
    by (apply updateUI_shows; unfold indexInRange; vm_compute; split; discriminate).
  exact (proj2 (proj2 (proj2 (proj2 (proj2 (proj2 (toggle_twice (init demo page) D))))))).
Defined.

(** ** What a session never changes *)

Section Static.

Ltac break_ifs :=
  repeat match goal with
         | |- context [if ?c then _ else _] => destruct c eqn:?
         end.

Ltac open_moves :=
  unfold moveToNextCategory, moveToNextTask, moveToNextSetting,
    moveToPreviousCategory, moveToPreviousTask, moveToPreviousSetting.

Lemma sameDataset_refl (v : Viewer) : sameDataset v v.
Proof. unfold sameDataset. tauto. Qed.

Lemma sameDataset_trans (a b c : Viewer) :
  sameDataset a b -> sameDataset b c -> sameDataset a c.
Proof.
  unfold sameDataset.
  intros (A1 & A2 & A3 & A4 & A5) (B1 & B2 & B3 & B4 & B5).
  rewrite A1, A2, A3, A4, A5. tauto.
Qed.

Lemma filterData_same (v : Viewer) : sameDataset (filterData v) v.
Proof. unfold sameDataset. cbn. tauto. Qed.

Lemma updateUI_same (v : Viewer) : sameDataset (updateUI v) v.
Proof.
  destruct (updateUI_fields v) as (Fa & _ & _ & _ & _ & _ & Ftn & _ & _ & Ft & Fo).
  unfold sameDataset. rewrite Fa, Ftn, Ft, Fo. repeat split; trivial;
    unfold updateUI; destruct (dataDisplay v) eqn:D; trivial;
    destruct (filteredData v); cbn; try discriminate;
    destruct (currentIndex v <? 0); try (rewrite D; discriminate);
    destruct (nth_error _ _); cbn; try (rewrite D; discriminate); discriminate.
Qed.

Lemma updateFilterUI_same (v : Viewer) : sameDataset (updateFilterUI v) v.
Proof.
  destruct (updateFilterUI_index v) as [->|[first ->]]; [apply sameDataset_refl|].
  unfold sameDataset. cbn. tauto.
Qed.

Lemma populate_same (v : Viewer) :
  sameDataset (populateStepLengthsForCurrentFilters v) v.
Proof.
  destruct (populate_fields v) as (Fa & _ & _ & _ & _ & Ftn & _ & Ft & Fd).
  destruct (populate_post v) as (_ & So & _).
  unfold sameDataset. rewrite Fa, Ftn, Ft, Fd, So.
  destruct (stepSelect v); cbn; repeat split; trivial; discriminate.
Qed.

Lemma set_currentStepLength_static (x : string) (v : Viewer) :
  sameDataset (set_currentStepLength x v) v.
Proof. unfold sameDataset. cbn. tauto. Qed.

Lemma set_currentTaskName_static (x : string) (v : Viewer) :
  sameDataset (set_currentTaskName x v) v.
Proof. unfold sameDataset. cbn. tauto. Qed.

Lemma set_currentSetting_static (x : string) (v : Viewer) :
  sameDataset (set_currentSetting x v) v.
Proof. unfold sameDataset. cbn. tauto. Qed.

Lemma set_currentIndex_static (x : Z) (v : Viewer) :
  sameDataset (set_currentIndex x v) v.
Proof. unfold sameDataset. cbn. tauto. Qed.

Lemma set_showAnswer_static (x : bool) (v : Viewer) :
  sameDataset (set_showAnswer x v) v.
Proof. unfold sameDataset. cbn. tauto. Qed.

Ltac same :=
  repeat match goal with
         | |- sameDataset ?a ?a => apply sameDataset_refl
         | |- sameDataset (filterData _) _ =>
             eapply sameDataset_trans; [apply filterData_same|]
         | |- sameDataset (updateUI _) _ =>
             eapply sameDataset_trans; [apply updateUI_same|]
         | |- sameDataset (updateFilterUI _) _ =>
             eapply sameDataset_trans; [apply updateFilterUI_same|]
         | |- sameDataset (populateStepLengthsForCurrentFilters _) _ =>
             eapply sameDataset_trans; [apply populate_same|]
         | |- sameDataset (set_currentStepLength _ _) _ =>
             eapply sameDataset_trans; [apply set_currentStepLength_static|]
         | |- sameDataset (set_currentTaskName _ _) _ =>
             eapply sameDataset_trans; [apply set_currentTaskName_static|]
         | |- sameDataset (set_currentSetting _ _) _ =>
             eapply sameDataset_trans; [apply set_currentSetting_static|]
         | |- sameDataset (set_currentIndex _ _) _ =>
             eapply sameDataset_trans; [apply set_currentIndex_static|]
         | |- sameDataset (set_showAnswer _ _) _ =>
             eapply sameDataset_trans; [apply set_showAnswer_static|]
         end.

Lemma moveToNextCategory_same (v : Viewer) : sameDataset (snd (moveToNextCategory v)) v.
Proof. open_moves; break_ifs; cbn [snd]; same. Qed.

Lemma moveToPreviousCategory_same (v : Viewer) :
  sameDataset (snd (moveToPreviousCategory v)) v.
Proof. open_moves; break_ifs; cbn [snd]; same. Qed.

Lemma handle_same (e : Event) (v : Viewer) : sameDataset (handle e v) v.
Proof.
  destruct e; cbn [handle].
  - unfold onSettingChange. same.
  - unfold onTaskChange. same.
  - unfold onStepChange. same.
  - unfold onToggleReveal. same.
  - unfold navigateNext. destruct (_ <? _); [same | apply moveToNextCategory_same].
  - unfold navigatePrevious. destruct (_ <? _); [same | apply moveToPreviousCategory_same].
Qed.

Lemma run_same (es : list Event) (v : Viewer) : sameDataset (run es v) v.
Proof.
  revert v. induction es as [|e es IH]; intros v; cbn [run]; [apply sameDataset_refl|].
  eapply sameDataset_trans; [apply IH | apply handle_same].
Qed.

(** X14.  No handler touches the dataset or the list of task names, and
    none adds or removes one of the elements of the page: after any
    sequence of events [allData] and [availableTaskNames] are what they
    were, and the page has the same elements. *)
Theorem session_keeps_dataset (es : list Event) (v : Viewer) :
  allData (run es v) = allData v /\
  availableTaskNames (run es v) = availableTaskNames v /\
  taskSelect (run es v) = taskSelect v /\
  (stepSelect (run es v) = None <-> stepSelect v = None) /\
  (dataDisplay (run es v) = None <-> dataDisplay v = None).
Proof. exact (run_same es v). Qed.

End Static.

(** ** What holds throughout a session *)

Section Throughout.

Ltac break_ifs :=
  repeat match goal with
         | |- context [if ?c then _ else _] => destruct c eqn:?
         end.

Ltac open_moves :=
  unfold moveToNextCategory, moveToNextTask, moveToNextSetting,
    moveToPreviousCategory, moveToPreviousTask, moveToPreviousSetting.

Lemma filterData_incl (v : Viewer) :
  incl (filteredData (filterData v)) (allData (filterData v)).
Proof. intros s Hs. cbn in Hs. now apply filter_In in Hs. Qed.

Lemma filterData_from (v : Viewer) : fromDataset v -> fromDataset (filterData v).
Proof.
  intros [_ D]. split; [apply filterData_incl | exact D].
Qed.

Lemma updateUI_from (v : Viewer) : fromDataset v -> fromDataset (updateUI v).
Proof.
  intros [I D]. destruct (updateUI_fields v) as (Fa & Fd & _).
  unfold fromDataset. rewrite Fa, Fd. split; [exact I|].
  unfold updateUI. destruct (dataDisplay v) eqn:E; [|now rewrite E].
  destruct (filteredData v) as [|x l] eqn:F; [cbn; discriminate|].
  destruct (currentIndex v <? 0); [now rewrite E|].
  destruct (nth_error (x :: l) (Z.to_nat (currentIndex v))) as [cur|] eqn:N;
    [|now rewrite E].
  cbn. intros s b [= <- _]. apply I. now apply nth_error_In in N.
Qed.

Lemma updateFilterUI_from (v : Viewer) : fromDataset v -> fromDataset (updateFilterUI v).
Proof.
  intros H. destruct (updateFilterUI_index v) as [->|[first ->]]; [exact H|].
  now apply filterData_from.
Qed.

Lemma populate_from (v : Viewer) :
  fromDataset v -> fromDataset (populateStepLengthsForCurrentFilters v).
Proof.
  intros H. destruct (populate_fields v) as (Fa & Fd & _ & _ & _ & _ & _ & _ & Fdisp).
  unfold fromDataset. now rewrite Fa, Fd, Fdisp.
Qed.

Lemma set_currentStepLength_from (x : string) (v : Viewer) :
  fromDataset v -> fromDataset (set_currentStepLength x v).
Proof. trivial. Qed.

Lemma set_currentTaskName_from (x : string) (v : Viewer) :
  fromDataset v -> fromDataset (set_currentTaskName x v).
Proof. trivial. Qed.

Lemma set_currentSetting_from (x : string) (v : Viewer) :
  fromDataset v -> fromDataset (set_currentSetting x v).
Proof. trivial. Qed.

Lemma set_currentIndex_from (x : Z) (v : Viewer) :
  fromDataset v -> fromDataset (set_currentIndex x v).
Proof. trivial. Qed.

Lemma set_showAnswer_from (x : bool) (v : Viewer) :
  fromDataset v -> fromDataset (set_showAnswer x v).
Proof. trivial. Qed.

Ltac keep_from :=
  repeat match goal with
         | H : fromDataset ?a |- fromDataset ?a => exact H
         | |- fromDataset (filterData _) => apply filterData_from
         | |- fromDataset (updateUI _) => apply updateUI_from
         | |- fromDataset (updateFilterUI _) => apply updateFilterUI_from
         | |- fromDataset (populateStepLengthsForCurrentFilters _) => apply populate_from
         | |- fromDataset (set_currentStepLength _ _) => apply set_currentStepLength_from
         | |- fromDataset (set_currentTaskName _ _) => apply set_currentTaskName_from
         | |- fromDataset (set_currentSetting _ _) => apply set_currentSetting_from
         | |- fromDataset (set_currentIndex _ _) => apply set_currentIndex_from
         | |- fromDataset (set_showAnswer _ _) => apply set_showAnswer_from
         end.

Lemma handle_from (e : Event) (v : Viewer) : fromDataset v -> fromDataset (handle e v).
Proof.
  intros H. destruct e; cbn [handle].
  - unfold onSettingChange. keep_from.
  - unfold onTaskChange. keep_from.
  - unfold onStepChange. keep_from.
  - unfold onToggleReveal. keep_from.
  - unfold navigateNext. destruct (_ <? _); [keep_from|].
    open_moves; break_ifs; cbn [snd]; keep_from.
  - unfold navigatePrevious. destruct (_ <? _); [keep_from|].
    open_moves; break_ifs; cbn [snd]; keep_from.
Qed.

Lemma updateFilterUI_inRange (v : Viewer) :
  indexInRange v -> indexInRange (updateFilterUI v).
Proof.
  intros H. destruct (updateFilterUI_index v) as [->|[first ->]]; [exact H|].
  apply filterData_inRange.
Qed.

Lemma updateFilterUI_incl (v : Viewer) :
  incl (filteredData v) (allData v) ->
  incl (filteredData (updateFilterUI v)) (allData (updateFilterUI v)).
Proof.
  intros H. destruct (updateFilterUI_index v) as [->|[first ->]]; [exact H|].
  apply filterData_incl.
Qed.

(** A page that shows the current sample shows a sample of the list. *)
Lemma shown_from (w : Viewer) :
  incl (filteredData w) (allData w) -> displayCurrent w -> fromDataset w.
Proof.
  intros I D. split; [exact I|]. intros s b E.
  unfold displayCurrent in D. rewrite E in D.
  destruct (filteredData w) as [|x l] eqn:F; [discriminate D|].
  destruct D as (s' & Hs & [= -> _]).
  unfold currentItem in Hs. destruct (_ <? _); [discriminate Hs|].
  rewrite F in Hs. apply I. now apply nth_error_In in Hs.
Qed.

Lemma init_from (samples : list Sample) (v : Viewer) : fromDataset (init samples v).
Proof.
  unfold init. apply shown_from.
  - destruct (updateUI_fields
                (updateFilterUI (filterData (populateFilterOptions (loadData samples v)))))
      as (-> & -> & _).
    apply updateFilterUI_incl, filterData_incl.
  - apply updateUI_shows, updateFilterUI_inRange, filterData_inRange.
Qed.

Lemma updateFilterSelectors_fields (v : Viewer) :
  allData (updateFilterSelectors v) = allData v /\
  filteredData (updateFilterSelectors v) = filteredData v /\
  currentIndex (updateFilterSelectors v) = currentIndex v /\
  currentSetting (updateFilterSelectors v) = currentSetting v /\
  availableTaskNames (updateFilterSelectors v) = availableTaskNames v /\
  availableStepLengths (updateFilterSelectors v) = availableStepLengths v /\
  dataDisplay (updateFilterSelectors v) = dataDisplay v.
Proof.
  unfold updateFilterSelectors. cbv zeta.
  destruct (taskSelect v); [destruct (availableTaskNames v) eqn:N;
                            [| destruct (negb (truthy (currentTaskName v)))] |];
    cbn [stepSelect set_currentTaskName];
    (destruct (stepSelect v);
     [cbn [availableStepLengths set_stepSelect set_currentTaskName];
      destruct (availableStepLengths v) eqn:L;
      [| cbn [currentStepLength set_stepSelect set_currentTaskName];
         destruct (negb (truthy (currentStepLength v)))] |]);
    cbn; rewrite ?N, ?L; repeat split.
Qed.

Lemma populateFilterOptions_lists (v : Viewer) :
  allData (populateFilterOptions v) = allData v /\
  availableTaskNames (populateFilterOptions v) = sortedTaskNames (allData v).
Proof.
  unfold populateFilterOptions.
  destruct (updateFilterSelectors_fields
              (set_availableStepLengths (sortedStepLengths (allData v))
                 (set_availableTaskNames (sortedTaskNames (allData v)) v)))
    as (E1 & _ & _ & _ & E2 & _).
  split; [exact E1 | exact E2].
Qed.

Lemma init_lists (samples : list Sample) (v : Viewer) :
  allData (init samples v) = samples /\
  availableTaskNames (init samples v) = sortedTaskNames samples.
Proof.
  unfold init.
  set (a := loadData samples v).
  assert (Ea : allData a = samples) by reflexivity.
  clearbody a.
  destruct (populateFilterOptions_lists a) as (P1 & P2).
  set (b := populateFilterOptions a) in *. clearbody b.
  assert (F1 : allData (filterData b) = allData b) by reflexivity.
  assert (F2 : availableTaskNames (filterData b) = availableTaskNames b) by reflexivity.
  set (c := filterData b) in *. clearbody c.
  destruct (updateFilterUI_same c) as (U1 & U2 & _).
  set (d := updateFilterUI c) in *. clearbody d.
  destruct (updateUI_fields d) as (V1 & _ & _ & _ & _ & _ & V2 & _).
  split; congruence.
Qed.

(** X15.  Throughout a session the filtered list holds only samples of
    the loaded dataset, and so does the page: whatever sample
    [data-display] shows is one of the dataset, which is the list that
    was loaded. *)
Theorem session_shows_dataset (samples : list Sample) (v : Viewer) (es : list Event) :
  let w := run es (init samples v) in
  allData w = samples /\
  (forall s, In s (filteredData w) -> In s samples) /\
  (forall s b, dataDisplay w = Some (SampleHTML s b) -> In s samples).
Proof.
  cbv zeta.
  assert (F : fromDataset (run es (init samples v))).
  { generalize (init_from samples v). generalize (init samples v).
    induction es as [|e es IH]; intros w H; cbn [run]; [exact H|].
    apply IH. now apply handle_from. }
  assert (A : allData (run es (init samples v)) = samples).
  { destruct (run_same es (init samples v)) as (-> & _). apply init_lists. }
  destruct F as [I D]. rewrite A in I, D. split; [exact A|]. split; [exact I | exact D].
Qed.

(** X16.  Throughout a session the index stays inside the filtered
    list: unless the list is empty there is a sample under the index,
    and it is one of the list. *)
Theorem session_index_in_range (samples : list Sample) (v : Viewer) (es : list Event) :
  let w := run es (init samples v) in
  0 <= currentIndex w <= Z.max 0 (Z.of_nat (List.length (filteredData w)) - 1) /\
  (filteredData w <> [] ->
   exists s, currentItem w = Some s /\ In s (filteredData w)).
Proof.
  cbv zeta.
  pose proof (run_inRange es (init samples v) (init_inRange samples v)) as R.
  unfold indexInRange, lastIndex in R. split; [exact R|].
  intros Hne. unfold currentItem.
  assert ((currentIndex (run es (init samples v)) <? 0) = false) as ->
    by (apply Z.ltb_ge; lia).
  destruct (nth_error (filteredData (run es (init samples v)))
              (Z.to_nat (currentIndex (run es (init samples v))))) as [s|] eqn:N.
  - exists s. split; [reflexivity | now apply nth_error_In in N].
  - exfalso. apply nth_error_None in N.
    destruct (filteredData (run es (init samples v))); [now elim Hne|].
    cbn [List.length] in R, N. lia.
Qed.

(** X17.  Throughout a session the two option lists are in order and
    the step selector shows the available step lengths: the options of
    [step-select] are the decimal strings of [availableStepLengths], the
    step lengths are strictly ascending, and the task names are the
    distinct non-empty task names of the dataset, strictly ascending in
    the order of their characters. *)
Theorem session_option_lists (samples : list Sample) (v : Viewer) (es : list Event) :
  let w := run es (init samples v) in
  (forall opts, stepSelect w = Some opts ->
                opts = map JS.toString (availableStepLengths w)) /\
  StronglySorted Nat.lt (availableStepLengths w) /\
  StronglySorted (ltBy String.leb) (availableTaskNames w) /\
  (forall t, In t (availableTaskNames w) <->
             t <> "" /\ exists s, In s samples /\ task_name s = Some t).
Proof.
  cbv zeta.
  destruct (run_wellFormed es (init samples v) (init_wellFormed samples v))
    as [Wo Ws Wt Wn].
  split; [exact Wo|]. split; [exact Ws|]. split; [exact Wt|].
  destruct (run_same es (init samples v)) as (_ & -> & _).
  assert (E : availableTaskNames (init samples v) = sortedTaskNames samples)
    by apply init_lists.
  rewrite E. apply sortedTaskNames_spec.
Qed.

End Throughout.

(** ** When a category move succeeds, and what it leaves *)

Section Outcomes.

Lemma setting_index (s : string) :
  JS.indexOf (String.eqb s) settings =
  if String.eqb s "" then 0
  else if String.eqb s "forward" then 1
  else if String.eqb s "inverse" then 2
  else -1.
Proof.
  unfold settings. cbn [JS.indexOf].
  destruct (String.eqb s ""); [reflexivity|].
  destruct (String.eqb s "forward"); [reflexivity|].
  destruct (String.eqb s "inverse"); reflexivity.
Qed.

Lemma step_dichotomy (v : Viewer) :
  stepExhausted v \/
  (currentStepLength v <> "" /\
   currentStepIndex v < Z.of_nat (List.length (availableStepLengths v)) - 1).
Proof.
  pose proof (indexOf_bounds (sameNumber (JS.parseInt (currentStepLength v)))
                (availableStepLengths v)) as B.
  fold (currentStepIndex v) in B. unfold stepExhausted.
  destruct (string_dec (currentStepLength v) ""); [tauto|].
  destruct (Z_lt_le_dec (currentStepIndex v)
              (Z.of_nat (List.length (availableStepLengths v)) - 1)); [tauto|].
  left. right. lia.
Qed.

Lemma task_dichotomy (v : Viewer) :
  taskExhausted v \/
  (currentTaskName v <> "" /\
   currentTaskIndex v < Z.of_nat (List.length (availableTaskNames v)) - 1).
Proof.
  pose proof (indexOf_bounds (String.eqb (currentTaskName v)) (availableTaskNames v)) as B.
  fold (currentTaskIndex v) in B. unfold taskExhausted.
  destruct (string_dec (currentTaskName v) ""); [tauto|].
  destruct (Z_lt_le_dec (currentTaskIndex v)
              (Z.of_nat (List.length (availableTaskNames v)) - 1)); [tauto|].
  left. right. lia.
Qed.

(** The index is zero and the answer hidden: so [filterData] leaves a
    session, and so the renderers keep it. *)
Lemma filterData_landed (v : Viewer) :
  currentIndex (filterData v) = 0 /\ showAnswer (filterData v) = false.
Proof. split; reflexivity. Qed.

Lemma updateUI_landed (v : Viewer) :
  currentIndex v = 0 /\ showAnswer v = false ->
  currentIndex (updateUI v) = 0 /\ showAnswer (updateUI v) = false.
Proof.
  destruct (updateUI_fields v) as (_ & _ & -> & _ & _ & _ & _ & _ & -> & _). trivial.
Qed.

Lemma updateFilterUI_landed (v : Viewer) :
  currentIndex v = 0 /\ showAnswer v = false ->
  currentIndex (updateFilterUI v) = 0 /\ showAnswer (updateFilterUI v) = false.
Proof.
  intros H. destruct (updateFilterUI_index v) as [->|[first ->]]; [exact H|].
  apply filterData_landed.
Qed.

Lemma populate_landed (v : Viewer) :
  currentIndex v = 0 /\ showAnswer v = false ->
  currentIndex (populateStepLengthsForCurrentFilters v) = 0 /\
  showAnswer (populateStepLengthsForCurrentFilters v) = false.
Proof.
  destruct (populate_fields v) as (_ & _ & -> & _ & _ & _ & -> & _). trivial.
Qed.

Lemma moveToNextSetting_outcome (v : Viewer) :
  (fst (moveToNextSetting v) = false <-> currentSetting v = "inverse") /\
  (fst (moveToNextSetting v) = false -> snd (moveToNextSetting v) = v) /\
  (fst (moveToNextSetting v) = true ->
   currentIndex (snd (moveToNextSetting v)) = 0 /\
   showAnswer (snd (moveToNextSetting v)) = false).
Proof.
  assert (Moved : forall w,
            currentSetting v <> "inverse" ->
            (fst (true, updateFilterUI (updateUI (filterData w))) = false <->
               currentSetting v = "inverse") /\
            (fst (true, updateFilterUI (updateUI (filterData w))) = false ->
               snd (true, updateFilterUI (updateUI (filterData w))) = v) /\
            (fst (true, updateFilterUI (updateUI (filterData w))) = true ->
               currentIndex (snd (true, updateFilterUI (updateUI (filterData w)))) = 0 /\
               showAnswer (snd (true, updateFilterUI (updateUI (filterData w)))) = false)).
  { intros w Hne. cbn [fst snd]. split; [|split].
    - split; [discriminate | intros K; now elim Hne].
    - discriminate.
    - intros _. apply updateFilterUI_landed, updateUI_landed, filterData_landed. }
  unfold moveToNextSetting. rewrite setting_index.
  change (Z.of_nat (List.length settings) - 1) with 2.
  destruct (String.eqb_spec (currentSetting v) "") as [E|E].
  - change (0 <? 2) with true. cbv iota. apply Moved. congruence.
  - destruct (String.eqb_spec (currentSetting v) "forward") as [E1|E1].
    + change (1 <? 2) with true. cbv iota. apply Moved. congruence.
    + destruct (String.eqb_spec (currentSetting v) "inverse") as [E2|E2].
      * change (2 <? 2) with false. cbv iota. cbn [fst snd].
        split; [split; [intros _; exact E2 | reflexivity] | split; [reflexivity | discriminate]].
      * change (-1 <? 2) with true. cbv iota. apply Moved. exact E2.
Qed.

Lemma moveToNextTask_outcome (v : Viewer) :
  (fst (moveToNextTask v) = false <-> taskExhausted v /\ currentSetting v = "inverse") /\
  (fst (moveToNextTask v) = false -> snd (moveToNextTask v) = set_currentTaskName "" v) /\
  (fst (moveToNextTask v) = true ->
   currentIndex (snd (moveToNextTask v)) = 0 /\
   showAnswer (snd (moveToNextTask v)) = false).
Proof.
  destruct (task_dichotomy v) as [Ex|[Hne Hi]].
  - rewrite (moveToNextTask_exhausted v Ex).
    destruct (moveToNextSetting_outcome (set_currentTaskName "" v)) as (A & B & C).
    split; [|split; [exact B | exact C]].
    rewrite A. cbn [currentSetting set_currentTaskName]. tauto.
  - unfold moveToNextTask. apply truthy_true in Hne as T. rewrite T.
    fold (currentTaskIndex v).
    assert ((currentTaskIndex v <? Z.of_nat (List.length (availableTaskNames v)) - 1) = true)
      as -> by (apply Z.ltb_lt; lia).
    cbn [fst snd]. split; [|split].
    + split; [discriminate|]. intros [[K|K] _]; [contradiction | lia].
    + discriminate.
    + intros _. apply updateFilterUI_landed, updateUI_landed, populate_landed, filterData_landed.
Qed.

Lemma moveToNextCategory_moved (v : Viewer) :
  currentStepLength v <> "" ->
  currentStepIndex v < Z.of_nat (List.length (availableStepLengths v)) - 1 ->
  fst (moveToNextCategory v) = true /\
  currentIndex (snd (moveToNextCategory v)) = 0 /\
  showAnswer (snd (moveToNextCategory v)) = false.
Proof.
  intros Hne Hi. unfold moveToNextCategory. apply truthy_true in Hne as T. rewrite T.
  fold (currentStepIndex v).
  assert ((currentStepIndex v <? Z.of_nat (List.length (availableStepLengths v)) - 1) = true)
    as -> by (apply Z.ltb_lt; lia).
  cbn [fst snd]. split; [reflexivity|].
  apply updateFilterUI_landed, updateUI_landed, filterData_landed.
Qed.

(** What a forward move leaves, failed or not. *)
Lemma moveToNextCategory_leaves (v : Viewer) :
  (fst (moveToNextCategory v) = false -> snd (moveToNextCategory v) = cleared v) /\
  (fst (moveToNextCategory v) = true ->
   currentIndex (snd (moveToNextCategory v)) = 0 /\
   showAnswer (snd (moveToNextCategory v)) = false).
Proof.
  destruct (step_dichotomy v) as [Ex|[Hne Hi]].
  - rewrite (moveToNextCategory_exhausted v Ex).
    destruct (moveToNextTask_outcome (set_currentStepLength "" v)) as (_ & B & C).
    split; [exact B | exact C].
  - destruct (moveToNextCategory_moved v Hne Hi) as (M & I & H).
    rewrite M. split; [discriminate | intros _; split; assumption].
Qed.

(** X18.  [moveToNextCategory] fails exactly at the global end: no next
    step length, no next task, and the setting "inverse".  When it fails
    it leaves the session as it was but for the task name and step
    length, which it clears; when it succeeds the index is zero and the
    answer hidden, whatever level moved. *)
Theorem moveToNextCategory_outcome (v : Viewer) :
  (fst (moveToNextCategory v) = false <->
     stepExhausted v /\ taskExhausted v /\ currentSetting v = "inverse") /\
  (fst (moveToNextCategory v) = false -> snd (moveToNextCategory v) = cleared v) /\
  (fst (moveToNextCategory v) = true ->
   currentIndex (snd (moveToNextCategory v)) = 0 /\
   showAnswer (snd (moveToNextCategory v)) = false).
Proof.
  split; [|apply moveToNextCategory_leaves].
  destruct (step_dichotomy v) as [Ex|[Hne Hi]].
  - rewrite (moveToNextCategory_exhausted v Ex).
    destruct (moveToNextTask_outcome (set_currentStepLength "" v)) as (A & _).
    rewrite A. unfold taskExhausted, currentTaskIndex.
    cbn [currentSetting currentTaskName availableTaskNames set_currentStepLength]. tauto.
  - destruct (moveToNextCategory_moved v Hne Hi) as (M & _). rewrite M.
    split; [discriminate|]. intros [[K|K] _]; [contradiction | lia].
Qed.

Lemma stepFirst_dichotomy (v : Viewer) :
  stepAtFirst v \/ (currentStepLength v <> "" /\ 0 < currentStepIndex v).
Proof.
  unfold stepAtFirst.
  destruct (string_dec (currentStepLength v) ""); [tauto|].
  destruct (Z_lt_le_dec 0 (currentStepIndex v)); tauto.
Qed.

Lemma taskFirst_dichotomy (v : Viewer) :
  taskAtFirst v \/ (currentTaskName v <> "" /\ 0 < currentTaskIndex v).
Proof.
  unfold taskAtFirst.
  destruct (string_dec (currentTaskName v) ""); [tauto|].
  destruct (Z_lt_le_dec 0 (currentTaskIndex v)); tauto.
Qed.

(** The index is in range and the answer hidden: so the assignment of
    the last index leaves a freshly filtered session, and so the
    renderers keep it. *)
Lemma atLast_settled (v : Viewer) :
  showAnswer v = false ->
  indexInRange (set_currentIndex (lastIndex v) v) /\
  showAnswer (set_currentIndex (lastIndex v) v) = false.
Proof.
  intros H. split; [|exact H]. unfold indexInRange, lastIndex. cbn. lia.
Qed.

Lemma updateUI_settled (v : Viewer) :
  indexInRange v /\ showAnswer v = false ->
  indexInRange (updateUI v) /\ showAnswer (updateUI v) = false.
Proof.
  unfold indexInRange, lastIndex.
  destruct (updateUI_fields v) as (_ & -> & -> & _ & _ & _ & _ & _ & -> & _). trivial.
Qed.

Lemma updateFilterUI_settled (v : Viewer) :
  indexInRange v /\ showAnswer v = false ->
  indexInRange (updateFilterUI v) /\ showAnswer (updateFilterUI v) = false.
Proof.
  intros H. destruct (updateFilterUI_index v) as [->|[first ->]]; [exact H|].
  split; [apply filterData_inRange | reflexivity].
Qed.

Lemma populate_hidden (v : Viewer) :
  showAnswer v = false -> showAnswer (populateStepLengthsForCurrentFilters v) = false.
Proof.
  destruct (populate_fields v) as (_ & _ & _ & _ & _ & _ & -> & _). trivial.
Qed.

Lemma moveToPreviousSetting_outcome (v : Viewer) :
  (fst (moveToPreviousSetting v) = false <->
     currentSetting v <> "forward" /\ currentSetting v <> "inverse") /\
  (fst (moveToPreviousSetting v) = false -> snd (moveToPreviousSetting v) = v) /\
  (fst (moveToPreviousSetting v) = true ->
   indexInRange (snd (moveToPreviousSetting v)) /\
   showAnswer (snd (moveToPreviousSetting v)) = false).
Proof.
  assert (Moved : forall w,
            currentSetting v = "forward" \/ currentSetting v = "inverse" ->
            let v1 := filterData w in
            let r := (true, updateFilterUI (updateUI (set_currentIndex (lastIndex v1) v1))) in
            (fst r = false <->
               currentSetting v <> "forward" /\ currentSetting v <> "inverse") /\
            (fst r = false -> snd r = v) /\
            (fst r = true -> indexInRange (snd r) /\ showAnswer (snd r) = false)).
  { intros w Hs v1 r. subst r. cbn [fst snd]. split; [|split].
    - split; [discriminate | intros [K1 K2]; destruct Hs; contradiction].
    - discriminate.
    - intros _. apply updateFilterUI_settled, updateUI_settled, atLast_settled.
      reflexivity. }
  unfold moveToPreviousSetting. rewrite setting_index.
  destruct (String.eqb_spec (currentSetting v) "") as [E|E].
  - change (0 <? 0) with false. cbv iota. cbn [fst snd].
    split; [split; [intros _; split; congruence | reflexivity]
           | split; [reflexivity | discriminate]].
  - destruct (String.eqb_spec (currentSetting v) "forward") as [E1|E1].
    + change (0 <? 1) with true. cbv iota. apply Moved. now left.
    + destruct (String.eqb_spec (currentSetting v) "inverse") as [E2|E2].
      * change (0 <? 2) with true. cbv iota. apply Moved. now right.
      * change (0 <? -1) with false. cbv iota. cbn [fst snd].
        split; [split; [intros _; split; assumption | reflexivity]
               | split; [reflexivity | discriminate]].
Qed.

Lemma moveToPreviousTask_outcome (v : Viewer) :
  (fst (moveToPreviousTask v) = false <->
     taskAtFirst v /\ currentSetting v <> "forward" /\ currentSetting v <> "inverse") /\
  (fst (moveToPreviousTask v) = false ->
   snd (moveToPreviousTask v) = set_currentTaskName "" v) /\
  (fst (moveToPreviousTask v) = true ->
   indexInRange (snd (moveToPreviousTask v)) /\
   showAnswer (snd (moveToPreviousTask v)) = false).
Proof.
  destruct (taskFirst_dichotomy v) as [Ex|[Hne Hi]].
  - rewrite (moveToPreviousTask_exhausted v Ex).
    destruct (moveToPreviousSetting_outcome (set_currentTaskName "" v)) as (A & B & C).
    split; [|split; [exact B | exact C]].
    rewrite A. cbn [currentSetting set_currentTaskName]. tauto.
  - unfold moveToPreviousTask. apply truthy_true in Hne as T. rewrite T.
    fold (currentTaskIndex v).
    assert ((0 <? currentTaskIndex v) = true) as -> by (apply Z.ltb_lt; lia).
    cbn [fst snd]. split; [|split].
    + split; [discriminate|]. intros [[K|K] _]; [contradiction | lia].
    + discriminate.
    + intros _. apply updateFilterUI_settled, updateUI_settled, atLast_settled.
      apply populate_hidden. reflexivity.
Qed.

Lemma moveToPreviousCategory_moved (v : Viewer) :
  currentStepLength v <> "" -> 0 < currentStepIndex v ->
  fst (moveToPreviousCategory v) = true /\
  indexInRange (snd (moveToPreviousCategory v)) /\
  showAnswer (snd (moveToPreviousCategory v)) = false.
Proof.
  intros Hne Hi. unfold moveToPreviousCategory. apply truthy_true in Hne as T. rewrite T.
  fold (currentStepIndex v).
  assert ((0 <? currentStepIndex v) = true) as -> by (apply Z.ltb_lt; lia).
  cbn [fst snd]. split; [reflexivity|].
  apply updateFilterUI_settled, updateUI_settled, atLast_settled. reflexivity.
Qed.

(** What a backward move leaves, failed or not. *)
Lemma moveToPreviousCategory_leaves (v : Viewer) :
  (fst (moveToPreviousCategory v) = false ->
   snd (moveToPreviousCategory v) = cleared v) /\
  (fst (moveToPreviousCategory v) = true ->
   indexInRange (snd (moveToPreviousCategory v)) /\
   showAnswer (snd (moveToPreviousCategory v)) = false).
Proof.
  destruct (stepFirst_dichotomy v) as [Ex|[Hne Hi]].
  - rewrite (moveToPreviousCategory_exhausted v Ex).
    destruct (moveToPreviousTask_outcome (set_currentStepLength "" v)) as (_ & B & C).
    split; [exact B | exact C].
  - destruct (moveToPreviousCategory_moved v Hne Hi) as (M & R & H).
    rewrite M. split; [discriminate | intros _; split; assumption].
Qed.

(** X19.  [moveToPreviousCategory] fails exactly at the global start: no
    previous step length, no previous task, and a setting that is
    neither "forward" nor "inverse".  When it fails it leaves the
    session as it was but for the task name and step length, which it
    clears; when it succeeds the index points into the new filtered list
    and the answer is hidden, whatever level moved. *)
Theorem moveToPreviousCategory_outcome (v : Viewer) :
  (fst (moveToPreviousCategory v) = false <->
     stepAtFirst v /\ taskAtFirst v /\
     currentSetting v <> "forward" /\ currentSetting v <> "inverse") /\
  (fst (moveToPreviousCategory v) = false ->
   snd (moveToPreviousCategory v) = cleared v) /\
  (fst (moveToPreviousCategory v) = true ->
   0 <= currentIndex (snd (moveToPreviousCategory v)) <=
     Z.max 0 (Z.of_nat (List.length (filteredData (snd (moveToPreviousCategory v)))) - 1) /\
   showAnswer (snd (moveToPreviousCategory v)) = false).
Proof.
  split; [|exact (moveToPreviousCategory_leaves v)].
  destruct (stepFirst_dichotomy v) as [Ex|[Hne Hi]].
  - rewrite (moveToPreviousCategory_exhausted v Ex).
    destruct (moveToPreviousTask_outcome (set_currentStepLength "" v)) as (A & _).
    assert (T : taskAtFirst (set_currentStepLength "" v) <-> taskAtFirst v) by reflexivity.
    rewrite A, T. cbn [currentSetting set_currentStepLength]. tauto.
  - destruct (moveToPreviousCategory_moved v Hne Hi) as (M & _). rewrite M.
    split; [discriminate|].
    intros [[K|K] _]; [contradiction | unfold stepAtFirst in *; lia].
Qed.

(** X20.  An answer that was revealed does not stay revealed on another
    sample: every event but the toggle leaves the answer hidden, except
    a press of next or previous that finds nowhere to move, which only
    clears the task name and step length. *)
Theorem answer_hidden_after_move (e : Event) (v : Viewer) :
  e <> ToggleReveal ->
  showAnswer (handle e v) = false \/ handle e v = cleared v.
Proof.
  intros Hne. destruct e; cbn [handle]; try (now elim Hne).
  - left. unfold onSettingChange.
    match goal with |- showAnswer (updateUI ?w) = _ =>
      destruct (updateUI_fields w) as (_ & _ & _ & _ & _ & _ & _ & _ & -> & _) end.
    reflexivity.
  - left. unfold onTaskChange.
    match goal with |- showAnswer (updateUI ?w) = _ =>
      destruct (updateUI_fields w) as (_ & _ & _ & _ & _ & _ & _ & _ & -> & _) end.
    reflexivity.
  - left. unfold onStepChange.
    match goal with |- showAnswer (updateUI ?w) = _ =>
      destruct (updateUI_fields w) as (_ & _ & _ & _ & _ & _ & _ & _ & -> & _) end.
    reflexivity.
  - unfold navigateNext. destruct (_ <? _).
    + left.
      match goal with |- showAnswer (updateUI ?w) = _ =>
        destruct (updateUI_fields w) as (_ & _ & _ & _ & _ & _ & _ & _ & -> & _) end.
      reflexivity.
    + destruct (moveToNextCategory_leaves v) as (B & C).
      destruct (fst (moveToNextCategory v)); [left; now apply C | right; now apply B].
  - unfold navigatePrevious. destruct (_ <? _).
    + left.
      match goal with |- showAnswer (updateUI ?w) = _ =>
        destruct (updateUI_fields w) as (_ & _ & _ & _ & _ & _ & _ & _ & -> & _) end.
      reflexivity.
    + destruct (moveToPreviousCategory_leaves v) as (B & C).
      destruct (fst (moveToPreviousCategory v)); [left; now apply C | right; now apply B].
Qed.

End Outcomes.

Lemma answer_hidden_after_move_witness :
  showAnswer (handle Next (handle ToggleReveal (init trio page))) = false \/
  handle Next (handle ToggleReveal (init trio page)) =
  cleared (handle ToggleReveal (init trio page)).
Proof.
  apply (answer_hidden_after_move Next (handle ToggleReveal (init trio page))).
  discriminate.
Defined.

(** ** The walk of repeated presses of previous *)

Section WalkBack.

Lemma settingsBefore_ext (a b : Viewer) :
  currentSetting a = currentSetting b -> settingsBefore a = settingsBefore b.
Proof. unfold settingsBefore. now intros ->. Qed.

Lemma tasksBefore_ext (a b : Viewer) :
  currentTaskName a = currentTaskName b ->
  availableTaskNames a = availableTaskNames b ->
  tasksBefore a = tasksBefore b.
Proof. unfold tasksBefore, currentTaskIndex. now intros -> ->. Qed.

Lemma stepsBefore_ext (a b : Viewer) :
  currentStepLength a = currentStepLength b ->
  availableStepLengths a = availableStepLengths b ->
  stepsBefore a = stepsBefore b.
Proof. unfold stepsBefore, currentStepIndex. now intros -> ->. Qed.

(** Inside the filtered list. *)
Lemma navigatePrevious_inside (v : Viewer) :
  0 < currentIndex v ->
  navigatePrevious v = updateUI (set_showAnswer false (set_currentIndex (currentIndex v - 1) v)) /\
  filteredData (navigatePrevious v) = filteredData v /\
  currentIndex (navigatePrevious v) = currentIndex v - 1 /\
  currentSetting (navigatePrevious v) = currentSetting v /\
  currentTaskName (navigatePrevious v) = currentTaskName v /\
  currentStepLength (navigatePrevious v) = currentStepLength v /\
  availableTaskNames (navigatePrevious v) = availableTaskNames v /\
  availableStepLengths (navigatePrevious v) = availableStepLengths v.
Proof.
  intros H. unfold navigatePrevious.
  assert ((0 <? currentIndex v) = true) as -> by (apply Z.ltb_lt; lia).
  split; [reflexivity|].
  destruct (updateUI_fields (set_showAnswer false (set_currentIndex (currentIndex v - 1) v)))
    as (_ & Fd & Fi & Fs & Ft & Fl & Ftn & Fas & _).
  rewrite Fd, Fi, Fs, Ft, Fl, Ftn, Fas. repeat split.
Qed.

Lemma navigatePrevious_atFirst (v : Viewer) :
  currentIndex v <= 0 -> navigatePrevious v = snd (moveToPreviousCategory v).
Proof.
  intros H. unfold navigatePrevious.
  assert ((0 <? currentIndex v) = false) as -> by (apply Z.ltb_ge; lia).
  reflexivity.
Qed.

Lemma back_inside (v : Viewer) :
  0 < currentIndex v -> closer (rankBack (navigatePrevious v)) (rankBack v).
Proof.
  intros H. destruct (navigatePrevious_inside v H) as (_ & Fd & Fi & Fs & Ft & Fl & Ftn & Fas).
  unfold rankBack.
  rewrite (settingsBefore_ext _ v Fs), (tasksBefore_ext _ v Ft Ftn), (stepsBefore_ext _ v Fl Fas).
  do 3 apply right_slex. unfold itemsBefore, Nat.lt. rewrite Fi. lia.
Qed.

Lemma back_step (v : Viewer) :
  wellFormed v ->
  currentIndex v <= 0 ->
  currentStepLength v <> "" ->
  0 < currentStepIndex v ->
  closer (rankBack (navigatePrevious v)) (rankBack v).
Proof.
  intros W Hfirst Hne Hi.
  pose proof (indexOf_bounds (sameNumber (JS.parseInt (currentStepLength v)))
                (availableStepLengths v)) as B.
  fold (currentStepIndex v) in B.
  rewrite (navigatePrevious_atFirst v Hfirst), (moveToPreviousCategory_step v W Hne Hi).
  cbn [snd].
  set (i := Z.to_nat (currentStepIndex v - 1)).
  set (v1 := filterData _).
  set (w := set_currentIndex (lastIndex v1) v1).
  destruct (updateUI_fields w) as (_ & _ & _ & Fs & Ft & Fl & Ftn & Fas & _).
  unfold rankBack.
  rewrite (settingsBefore_ext _ v Fs), (tasksBefore_ext _ v Ft Ftn).
  apply right_slex, right_slex, left_slex.
  assert (I : currentStepIndex (updateUI w) = Z.of_nat i).
  { apply stepIndex_selected; rewrite ?Fas, ?Fl; cbn;
      [now apply steps_NoDup | lia | reflexivity]. }
  unfold stepsBefore, Nat.lt. rewrite I, Fl.
  change (currentStepLength w)
    with (JS.toString (nth i (availableStepLengths v) 0%nat)).
  rewrite truthy_toString. apply truthy_true in Hne. rewrite Hne. lia.
Qed.

Lemma back_task (v : Viewer) :
  wellFormed v ->
  currentIndex v <= 0 ->
  stepAtFirst v ->
  currentTaskName v <> "" ->
  0 < currentTaskIndex v ->
  closer (rankBack (navigatePrevious v)) (rankBack v).
Proof.
  intros W Hfirst Hs Hne Hi.
  pose proof (indexOf_bounds (String.eqb (currentTaskName v)) (availableTaskNames v)) as B.
  fold (currentTaskIndex v) in B.
  rewrite (navigatePrevious_atFirst v Hfirst), (moveToPreviousCategory_task v Hs Hne Hi).
  cbn [snd].
  set (i := Z.to_nat (currentTaskIndex v - 1)).
  set (t := nth i (availableTaskNames v) "").
  set (u := filterData _).
  destruct (populate_fields u) as (_ & _ & _ & Ps & Pt & Ptn & _).
  set (p := populateStepLengthsForCurrentFilters u) in *.
  set (w := set_currentIndex (lastIndex p) p).
  destruct (updateUI_fields w) as (_ & _ & _ & Fs & Ft & _ & Ftn & _).
  assert (Es : currentSetting (updateUI w) = currentSetting v)
    by (rewrite Fs; exact Ps).
  assert (Et : currentTaskName (updateUI w) = t) by (rewrite Ft; exact Pt).
  assert (Etn : availableTaskNames (updateUI w) = availableTaskNames v)
    by (rewrite Ftn; exact Ptn).
  unfold rankBack. rewrite (settingsBefore_ext _ v Es).
  apply right_slex, left_slex.
  unfold tasksBefore, Nat.lt. rewrite Et.
  apply truthy_true in Hne. rewrite Hne.
  destruct (truthy t) eqn:T; [|lia].
  assert (I : currentTaskIndex (updateUI w) = Z.of_nat i).
  { apply taskIndex_selected; rewrite ?Etn, ?Et;
      [now apply tasks_NoDup | lia | reflexivity]. }
  rewrite I. lia.
Qed.

Lemma back_setting (v : Viewer) :
  currentIndex v <= 0 ->
  stepAtFirst v ->
  taskAtFirst v ->
  currentSetting v = "forward" \/ currentSetting v = "inverse" ->
  closer (rankBack (navigatePrevious v)) (rankBack v).
Proof.
  intros Hfirst Hs Ht Hc.
  rewrite (navigatePrevious_atFirst v Hfirst), (moveToPreviousCategory_setting v Hs Ht Hc).
  cbn [snd].
  set (previous := if String.eqb (currentSetting v) "forward" then "" else "forward").
  set (v1 := filterData _).
  set (w := set_currentIndex (lastIndex v1) v1).
  assert (Es : currentSetting (updateFilterUI (updateUI w)) = previous).
  { rewrite updateFilterUI_setting.
    destruct (updateUI_fields w) as (_ & _ & _ & Fs & _). rewrite Fs. reflexivity. }
  unfold rankBack. apply left_slex. unfold settingsBefore, Nat.lt. rewrite Es.
  rewrite !setting_index. subst previous.
  destruct Hc as [-> | ->]; cbn; lia.
Qed.

(** At the global start: nothing left to move to.  The first call clears
    task and step length; from then on nothing changes. *)
Lemma navigatePrevious_stuck (v : Viewer) :
  currentIndex v <= 0 ->
  stepAtFirst v ->
  taskAtFirst v ->
  currentSetting v <> "forward" -> currentSetting v <> "inverse" ->
  navigatePrevious v = cleared v.
Proof.
  intros Hfirst Hs Ht H1 H2.
  rewrite (navigatePrevious_atFirst v Hfirst), (moveToPreviousCategory_exhausted v Hs).
  destruct (moveToPreviousTask_outcome (set_currentStepLength "" v)) as (A & B & _).
  apply B, A. repeat split; assumption.
Qed.

(** What a position is like that presses of previous leave as it is. *)
Lemma cleared_rests (v : Viewer) :
  currentIndex v <= 0 ->
  currentSetting v <> "forward" -> currentSetting v <> "inverse" ->
  navigatePrevious (cleared v) = cleared v.
Proof.
  intros Hfirst H1 H2.
  rewrite (navigatePrevious_stuck (cleared v)); trivial; now left.
Qed.

(** One press of previous either brings the position closer to the
    global start, or finds nothing to move to. *)
Lemma navigatePrevious_progress (v : Viewer) :
  wellFormed v ->
  closer (rankBack (navigatePrevious v)) (rankBack v) \/
  (currentIndex v <= 0 /\
   currentSetting v <> "forward" /\ currentSetting v <> "inverse" /\
   navigatePrevious v = cleared v).
Proof.
  intros W.
  destruct (Z_lt_le_dec 0 (currentIndex v)) as [Hin|Hfirst];
    [left; now apply back_inside|].
  destruct (stepFirst_dichotomy v) as [Hs|[Hne Hi]];
    [|left; now apply back_step].
  destruct (taskFirst_dichotomy v) as [Ht|[Hne Hi]];
    [|left; now apply back_task].
  destruct (string_dec (currentSetting v) "forward") as [E1|E1];
    [left; apply back_setting; auto|].
  destruct (string_dec (currentSetting v) "inverse") as [E2|E2];
    [left; apply back_setting; auto|].
  right. repeat split; trivial. now apply navigatePrevious_stuck.
Qed.

Lemma retreat_rests (v : Viewer) :
  wellFormed v ->
  exists n,
    navigatePrevious (retreat n v) = retreat n v /\
    currentIndex (retreat n v) <= 0 /\
    currentStepLength (retreat n v) = "" /\
    currentTaskName (retreat n v) = "" /\
    currentSetting (retreat n v) <> "forward" /\
    currentSetting (retreat n v) <> "inverse".
Proof.
  remember (rankBack v) as r eqn:R. revert v R.
  induction r as [r IH] using (well_founded_induction closer_wf).
  intros v -> W.
  destruct (navigatePrevious_progress v W) as [C|(Hfirst & H1 & H2 & F)].
  - destruct (IH _ C (navigatePrevious v) eq_refl (handle_wellFormed Previous v W))
      as [n Hn].
    exists (S n). exact Hn.
  - exists 1%nat. cbn [retreat]. rewrite F.
    split; [now apply cleared_rests|]. repeat split; assumption.
Qed.

(** Inside the filtered list, [k] presses move the index [k] items
    back. *)
Lemma retreat_inside (k : nat) (v : Viewer) :
  Z.of_nat k <= currentIndex v ->
  filteredData (retreat k v) = filteredData v /\
  currentIndex (retreat k v) = currentIndex v - Z.of_nat k /\
  currentSetting (retreat k v) = currentSetting v /\
  currentTaskName (retreat k v) = currentTaskName v /\
  currentStepLength (retreat k v) = currentStepLength v.
Proof.
  revert v. induction k as [|k IH]; intros v H; cbn [retreat].
  - repeat split. lia.
  - destruct (navigatePrevious_inside v ltac:(lia)) as (_ & Fd & Fi & Fs & Ft & Fl & _).
    destruct (IH (navigatePrevious v) ltac:(rewrite Fi; lia)) as (Gd & Gi & Gs & Gt & Gl).
    rewrite Gd, Gi, Gs, Gt, Gl, Fd, Fi, Fs, Ft, Fl. repeat split. lia.
Qed.

Lemma retreat_S (n : nat) (v : Viewer) :
  retreat (S n) v = navigatePrevious (retreat n v).
Proof.
  revert v. induction n as [|n IH]; intros v; [reflexivity|].
  change (retreat (S (S n)) v) with (retreat (S n) (navigatePrevious v)).
  now rewrite IH.
Qed.

Lemma retreat_rested (n m : nat) (v : Viewer) :
  navigatePrevious (retreat n v) = retreat n v -> retreat (n + m) v = retreat n v.
Proof.
  intros H. induction m as [|m IH].
  - now rewrite Nat.add_0_r.
  - rewrite Nat.add_succ_r, retreat_S, IH. exact H.
Qed.

(** X21.  Repeated presses of previous walk the current filtered list
    one item at a time down to its first item, with the filter state
    unchanged, and after finitely many presses the session is at a
    position that every further press leaves as it is: setting none, no
    task and no step length selected, at the first item. *)
Theorem retreat_comes_to_rest (v : Viewer) :
  wellFormed v ->
  (forall k,
     Z.of_nat k <= currentIndex v ->
     filteredData (retreat k v) = filteredData v /\
     currentIndex (retreat k v) = currentIndex v - Z.of_nat k /\
     currentSetting (retreat k v) = currentSetting v /\
     currentTaskName (retreat k v) = currentTaskName v /\
     currentStepLength (retreat k v) = currentStepLength v) /\
  exists n,
    navigatePrevious (retreat n v) = retreat n v /\
    (forall m, retreat (n + m) v = retreat n v) /\
    currentIndex (retreat n v) <= 0 /\
    currentStepLength (retreat n v) = "" /\
    currentTaskName (retreat n v) = "" /\
    currentSetting (retreat n v) <> "forward" /\
    currentSetting (retreat n v) <> "inverse".
Proof.
  intros W. split; [intros k; apply retreat_inside|].
  destruct (retreat_rests v W) as (n & Hn & Hrest). exists n.
  split; [exact Hn|]. split; [|exact Hrest].
  intros m. now apply retreat_rested.
Qed.

(** X22.  From an index that is not the first of the filtered list,
    [navigatePrevious] followed by [navigateNext] comes back to the same
    index, the same filter state and the same filtered list; the answer
    is hidden, and the page shows the sample under the index. *)
Theorem retreat_then_advance (v : Viewer) :
  0 < currentIndex v <= Z.of_nat (List.length (filteredData v)) - 1 ->
  let v' := navigateNext (navigatePrevious v) in
  currentIndex v' = currentIndex v /\
  currentSetting v' = currentSetting v /\
  currentTaskName v' = currentTaskName v /\
  currentStepLength v' = currentStepLength v /\
  filteredData v' = filteredData v /\
  showAnswer v' = false /\
  displayCurrent v'.
Proof.
  intros [H0 Hl]. cbv zeta.
  destruct (navigatePrevious_inside v H0) as (_ & Fd & Fi & Fs & Ft & Fl & _).
  set (a := navigatePrevious v) in *. clearbody a.
  assert (Ha : currentIndex a < Z.of_nat (List.length (filteredData a)) - 1)
    by (rewrite Fd, Fi; lia).
  destruct (navigateNext_inside a Ha) as (E & Gd & Gi & Gs & Gt & Gl & _).
  rewrite Gd, Gi, Gs, Gt, Gl, Fd, Fi, Fs, Ft, Fl.
  repeat split; try lia.
  - rewrite E.
    destruct (updateUI_fields (set_showAnswer false (set_currentIndex (currentIndex a + 1) a)))
      as (_ & _ & _ & _ & _ & _ & _ & _ & -> & _).
    reflexivity.
  - rewrite E. apply updateUI_shows. unfold indexInRange, lastIndex. cbn. lia.
Qed.

End WalkBack.

Lemma retreat_comes_to_rest_witness :
  exists n, navigatePrevious (retreat n (init demo page)) = retreat n (init demo page).
Proof.
  destruct (retreat_comes_to_rest (init demo page) (init_wellFormed demo page))
    as (_ & n & Hn & _).
  exists n. exact Hn.
Defined.

Lemma retreat_then_advance_witness :
  currentIndex (navigateNext (navigatePrevious atSecond)) = currentIndex atSecond.
Proof.
  assert (H : 0 < currentIndex atSecond <=
              Z.of_nat (List.length (filteredData atSecond)) - 1)
    by (vm_compute; split; [reflexivity | discriminate]).
  exact (proj1 (retreat_then_advance atSecond H)).
Defined.

(** ** Start-up *)

Section StartUp.

(** What [updateFilterSelectors] selects: the first task when the page
    has the task selector and none is selected, the first step length
    when the page has the step selector and none is selected. *)
Lemma updateFilterSelectors_selects (v : Viewer) :
  currentTaskName (updateFilterSelectors v) =
    (if taskSelect v then
       match availableTaskNames v with
       | first :: _ => if truthy (currentTaskName v) then currentTaskName v else first
       | [] => currentTaskName v
       end
     else currentTaskName v) /\
  stepSelect (updateFilterSelectors v) =
    option_map (fun _ => map JS.toString (availableStepLengths v)) (stepSelect v) /\
  currentStepLength (updateFilterSelectors v) =
    match stepSelect v with
    | Some _ =>
        match availableStepLengths v with
        | first :: _ =>
            if truthy (currentStepLength v) then currentStepLength v else JS.toString first
        | [] => currentStepLength v
        end
    | None => currentStepLength v
    end /\
  showAnswer (updateFilterSelectors v) = showAnswer v.
Proof.
  unfold updateFilterSelectors. cbv zeta.
  destruct (taskSelect v); [destruct (availableTaskNames v) eqn:N;
                            [| destruct (truthy (currentTaskName v)); cbn [negb]] |];
    cbn [stepSelect set_currentTaskName];
    (destruct (stepSelect v) eqn:So;
     [cbn [availableStepLengths set_stepSelect set_currentTaskName];
      destruct (availableStepLengths v) eqn:L;
      [| cbn [currentStepLength set_stepSelect set_currentTaskName];
         destruct (truthy (currentStepLength v)); cbn [negb]] |]);
    cbn; rewrite ?N, ?L, ?So; repeat split.
Qed.

(** X23.  What [init] leaves, on a page with or without the selectors:
    the setting is "forward"; the step lengths on offer are those of the
    whole dataset, whatever the setting and task; the
    task is the first task name when the page has the task selector, the
    step length the first step length when it has the step selector;
    the filter for this state is applied, the index is zero, the answer
    hidden, and the page shows the first sample that matches, or the
    no-data message when none does. *)
Theorem init_defaults (samples : list Sample) (taskSel : bool)
    (stepSel : option (list string)) (display : option Display) :
  let v := init samples (construct taskSel stepSel display) in
  availableStepLengths v = sortedStepLengths samples /\
  (forall n, In n (availableStepLengths v) <->
     exists s ids, In s samples /\ key_frame_ids s = Some ids /\ List.length ids = n) /\
  currentSetting v = "forward" /\
  currentTaskName v = (if taskSel then hd "" (availableTaskNames v) else "") /\
  stepSelect v = option_map (fun _ => map JS.toString (availableStepLengths v)) stepSel /\
  currentStepLength v = defaultStepLength v /\
  filterApplied v /\
  currentIndex v = 0 /\
  showAnswer v = false /\
  displayCurrent v.
Proof.
  cbv zeta. unfold init.
  set (a := set_availableStepLengths (sortedStepLengths samples)
              (set_availableTaskNames (sortedTaskNames samples)
                 (loadData samples (construct taskSel stepSel display)))).
  change (populateFilterOptions (loadData samples (construct taskSel stepSel display)))
    with (updateFilterSelectors a).
  assert (A1 : taskSelect a = taskSel) by reflexivity.
  assert (A2 : stepSelect a = stepSel) by reflexivity.
  assert (A3 : availableTaskNames a = sortedTaskNames samples) by reflexivity.
  assert (A4 : availableStepLengths a = sortedStepLengths samples) by reflexivity.
  assert (A5 : currentTaskName a = "") by reflexivity.
  assert (A6 : currentStepLength a = "") by reflexivity.
  assert (A7 : currentSetting a = "forward") by reflexivity.
  assert (A8 : allData a = samples) by reflexivity.
  clearbody a.
  destruct (updateFilterSelectors_fields a) as (B1 & _ & _ & B2 & B3 & B4 & _).
  destruct (updateFilterSelectors_selects a) as (B5 & B6 & B7 & _).
  rewrite A1, A3, A5 in B5. rewrite A2, A4 in B6. rewrite A2, A4, A6 in B7.
  change (truthy "") with false in B5, B7. cbv iota in B5, B7.
  set (b := updateFilterSelectors a) in *. clearbody b.
  assert (C1 : filterApplied (filterData b)) by apply filterData_applied.
  assert (C2 : stepSelect (filterData b) = stepSelect b) by reflexivity.
  assert (C3 : currentStepLength (filterData b) = currentStepLength b) by reflexivity.
  assert (C4 : availableStepLengths (filterData b) = availableStepLengths b) by reflexivity.
  assert (C5 : availableTaskNames (filterData b) = availableTaskNames b) by reflexivity.
  assert (C6 : currentTaskName (filterData b) = currentTaskName b) by reflexivity.
  assert (C7 : currentSetting (filterData b) = currentSetting b) by reflexivity.
  assert (C8 : currentIndex (filterData b) = 0) by reflexivity.
  assert (C9 : showAnswer (filterData b) = false) by reflexivity.
  assert (C10 : indexInRange (filterData b)) by apply filterData_inRange.
  set (c := filterData b) in *. clearbody c.
  assert (U : updateFilterUI c = c).
  { apply updateFilterUI_noop. intros opts Ho. rewrite C2, B6 in Ho. rewrite C3, B7.
    destruct stepSel as [o|]; [|discriminate Ho]. cbn [option_map] in Ho.
    injection Ho as <-. destruct (sortedStepLengths samples); [now right | left; now left]. }
  rewrite U.
  destruct (updateUI_fields c) as (_ & D1 & D2 & D3 & D4 & D5 & D6 & D7 & D8 & _ & D9).
  pose proof (updateUI_shows c C10) as S.
  pose proof (updateUI_applied c C1) as F.
  set (d := updateUI c) in *. clearbody d.
  unfold defaultStepLength.
  rewrite D7, C4, B4, A4, D3, C7, B2, A7, D4, C6, B5, D9, C2, B6, D5, C3, B7, D2, C8,
    D8, C9, D6, C5, B3, A3.
  split; [reflexivity|]. split; [apply sortedStepLengths_spec|].
  split; [reflexivity|]. split.
  { destruct taskSel; [|reflexivity]. now destruct (sortedTaskNames samples). }
  split; [reflexivity|]. split.
  { destruct stepSel; [|reflexivity]. cbn [option_map].
    now destruct (sortedStepLengths samples). }
  split; [exact F|]. split; [reflexivity|]. split; [reflexivity | exact S].
Qed.

End StartUp.

(** ** The step options after a change of setting or task *)

Section LiveOptions.

(** The callback of [filterData] is that of
    [populateStepLengthsForCurrentFilters] followed by the test of the
    step length. *)
Lemma keeps_split (v : Viewer) (s : Sample) :
  keeps v s =
  (inCurrentSettingAndTask v s &&
   (negb (truthy (currentStepLength v)) ||
    sameNumber (JS.parseInt (currentStepLength v)) (stepCountOf s)))%bool.
Proof.
  unfold keeps, inCurrentSettingAndTask, stepCountOf.
  destruct (truthy (currentSetting v) && _)%bool; [reflexivity|].
  destruct (truthy (currentTaskName v) && _)%bool; [reflexivity|].
  destruct (truthy (currentStepLength v)); cbn [negb andb orb];
    [destruct (sameNumber _ _)|]; reflexivity.
Qed.

(** A step length seen among the samples of the current setting and
    task, once selected, leaves a sample in the filtered list. *)
Lemma observed_kept (w : Viewer) (n : nat) :
  observedStepCount w n ->
  exists s, In s (allData w) /\ keeps (set_currentStepLength (JS.toString n) w) s = true.
Proof.
  intros (s & ids & Hs & Hc & K & L). exists s. split; [exact Hs|].
  rewrite keeps_split.
  rewrite (inCurrentSettingAndTask_ext (set_currentStepLength (JS.toString n) w) w s
             eq_refl eq_refl), Hc.
  cbn [currentStepLength set_currentStepLength andb].
  rewrite truthy_toString, sameNumber_toString. unfold stepCountOf. rewrite K, L.
  now rewrite Nat.eqb_refl.
Qed.

Lemma onStepChange_filtered (value : string) (w : Viewer) :
  filteredData (onStepChange value w) =
  filter (keeps (set_currentStepLength value w)) (allData w).
Proof.
  unfold onStepChange.
  destruct (updateUI_fields (filterData (set_currentStepLength value w)))
    as (_ & -> & _).
  reflexivity.
Qed.

(** What follows for a session in which the available step lengths are
    those seen among the samples of the current setting and task, the
    default step length is selected, and the filter is applied. *)
Lemma refreshed_live (w : Viewer) :
  (forall n, In n (availableStepLengths w) <-> observedStepCount w n) ->
  currentStepLength w = defaultStepLength w ->
  filterApplied w ->
  (filteredData w = [] <->
     forall s, In s (allData w) -> inCurrentSettingAndTask w s = false) /\
  (forall n, In n (availableStepLengths w) ->
     filteredData (onStepChange (JS.toString n) w) <> []).
Proof.
  intros Ha Hl Hf.
  assert (Live : forall n, In n (availableStepLengths w) ->
                 exists s, In s (allData w) /\
                           keeps (set_currentStepLength (JS.toString n) w) s = true).
  { intros n Hn. apply observed_kept. now apply Ha. }
  split.
  - unfold filterApplied in Hf. rewrite Hf. split.
    + intros E s Hs.
      destruct (inCurrentSettingAndTask w s) eqn:C; [exfalso | reflexivity].
      unfold defaultStepLength in Hl.
      destruct (stepSelect w) as [opts|] eqn:So;
        [destruct (availableStepLengths w) as [|first rest] eqn:L |].
      * assert (K : In s (filter (keeps w) (allData w))).
        { apply filter_In. split; [exact Hs|]. rewrite keeps_split, C, Hl. reflexivity. }
        rewrite E in K. exact K.
      * destruct (Live first (or_introl eq_refl)) as (s' & Hs' & Hk).
        assert (K : In s' (filter (keeps w) (allData w))).
        { apply filter_In. split; [exact Hs'|].
          rewrite <- Hk. apply keeps_ext; trivial. }
        rewrite E in K. exact K.
      * assert (K : In s (filter (keeps w) (allData w))).
        { apply filter_In. split; [exact Hs|]. rewrite keeps_split, C, Hl. reflexivity. }
        rewrite E in K. exact K.
    + intros H. destruct (filter (keeps w) (allData w)) as [|x l] eqn:E; [reflexivity|].
      exfalso. assert (K : In x (filter (keeps w) (allData w))) by (rewrite E; now left).
      apply filter_In in K as [Hx Hk]. rewrite keeps_split, (H x Hx) in Hk. discriminate Hk.
  - intros n Hn E. rewrite onStepChange_filtered in E.
    destruct (Live n Hn) as (s & Hs & Hk).
    assert (K : In s (filter (keeps (set_currentStepLength (JS.toString n) w)) (allData w)))
      by (apply filter_In; now split).
    rewrite E in K. exact K.
Qed.

(** X24.  After a change of the setting or of the task no step option is
    dead and the default is live: every available step length, once
    selected, shows at least one sample, and the list the change itself
    leaves is empty only when the dataset has no sample at all of the
    new setting and task. *)
Theorem selector_change_live (value : string) (v : Viewer) :
  (let w := onSettingChange value v in
   (filteredData w = [] <->
      forall s, In s (allData v) -> inCurrentSettingAndTask w s = false) /\
   (forall n, In n (availableStepLengths w) ->
      filteredData (onStepChange (JS.toString n) w) <> [])) /\
  (let w := onTaskChange value v in
   (filteredData w = [] <->
      forall s, In s (allData v) -> inCurrentSettingAndTask w s = false) /\
   (forall n, In n (availableStepLengths w) ->
      filteredData (onStepChange (JS.toString n) w) <> [])).
Proof.
  assert (G : forall u, currentStepLength u = "" -> allData u = allData v ->
              let w := updateUI (filterData (populateStepLengthsForCurrentFilters u)) in
              (filteredData w = [] <->
                 forall s, In s (allData v) -> inCurrentSettingAndTask w s = false) /\
              (forall n, In n (availableStepLengths w) ->
                 filteredData (onStepChange (JS.toString n) w) <> [])).
  { intros u E Eu.
    destruct (change_then_refresh u E) as (_ & _ & _ & Ha & Hl & Hf & _).
    destruct (populate_fields u) as (Pa & _).
    set (p := populateStepLengthsForCurrentFilters u) in *. clearbody p.
    assert (Fa : allData (filterData p) = allData p) by reflexivity.
    set (c := filterData p) in *. clearbody c.
    destruct (updateUI_fields c) as (Ua & _).
    set (w := updateUI c) in *. clearbody w. cbv zeta.
    replace (allData v) with (allData w) by congruence.
    now apply refreshed_live. }
  split.
  - exact (G (set_currentStepLength "" (set_currentSetting value v)) eq_refl eq_refl).
  - exact (G (set_currentStepLength "" (set_currentTaskName value v)) eq_refl eq_refl).
Qed.

End LiveOptions.

(** ** The primitives and the verifier on examples *)

Section Examples.

Example includes_forward : JS.includes "forward" "enact_forward_world" = true.
Proof. reflexivity. Qed.

Example getSettingFromType_both :
  getSettingFromType "inverse_of_forward" = "forward".
Proof. reflexivity. Qed.

Example parseInt_decimal : JS.parseInt "12" = Some 12.
Proof. reflexivity. Qed.

Example parseInt_hexadecimal : JS.parseInt " -0x1f" = Some (-31).
Proof. reflexivity. Qed.

Example parseInt_NaN : JS.parseInt "steps" = None.
Proof. reflexivity. Qed.

Example toString_120 : JS.toString 120 = "120".
Proof. reflexivity. Qed.

Example trim_both : JS.trim "  [1, 2] " = "[1, 2]".
Proof. reflexivity. Qed.

Example sort_numbers : JS.sort Nat.leb (JS.setFrom Nat.eqb [3; 2; 3; 10; 2]%nat []) = [2; 3; 10]%nat.
Proof. reflexivity. Qed.

Example indexOf_absent : JS.indexOf (String.eqb "stir") ["cook"; "wash"] = -1.
Proof. reflexivity. Qed.

Example stringify_nested :
  JSON.stringify (JArray [intValue 1; JArray [intValue (-2); JNull]; JBool true]) =
  "[1,[-2,null],true]".
Proof. reflexivity. Qed.

Example verify_correct :
  verifyAnswer exampleParse "[1,2,3]" (Some (JArray (map intValue [1; 2; 3]))) = Correct.
Proof. reflexivity. Qed.

Example verify_shorter :
  verifyAnswer exampleParse "[1,2]" (Some (JArray (map intValue [1; 2; 3]))) = MaybeIncorrect.
Proof. reflexivity. Qed.

Example verify_not_json :
  verifyAnswer exampleParse "not json" (Some (JArray (map intValue [1]))) = InvalidFormat.
Proof. reflexivity. Qed.

Example verify_out_of_range :
  verifyAnswer exampleParse "[1,11]" (Some (JArray (map intValue [1; 11]))) = NotInRange.
Proof. reflexivity. Qed.

Example verify_fraction :
  verifyAnswer exampleParse " [1.5] " (Some (JArray (map intValue [1]))) = NotInRange.
Proof. reflexivity. Qed.

Example verify_object :
  verifyAnswer exampleParse "{}" (Some (JArray (map intValue [1]))) = NotAnArray.
Proof. reflexivity. Qed.

Example verify_scalar_truth :
  verifyAnswer exampleParse "[1,2]" (Some (intValue 12)) = MaybeIncorrect.
Proof. reflexivity. Qed.

Example verify_missing_truth :
  verifyAnswer exampleParse "[1,2]" None = MaybeIncorrect.
Proof. reflexivity. Qed.

(** Start-up on [demo]: "forward", the first task and the first of all
    step lengths; one sample matches. *)
Example init_demo :
  let v := init demo page in
  (currentSetting v, currentTaskName v, currentStepLength v) = ("forward", "cook", "2") /\
  availableTaskNames v = ["cook"; "wash"] /\
  availableStepLengths v = [2; 3]%nat /\
  filteredData v = [demo1] /\
  dataDisplay v = Some (SampleHTML demo1 false).
Proof. vm_compute. repeat split. Qed.

(** The backward move across settings: the index is assigned the last
    position of the list of the setting moved to, then [updateFilterUI]
    selects the first step option and filters again, which puts the index
    back at zero; the page still shows the sample drawn before. *)
Example previous_setting_on_demo :
  let v := navigatePrevious (init demo page) in
  (currentSetting v, currentTaskName v, currentStepLength v) = ("", "", "2") /\
  filteredData v = [demo1; demo2] /\
  currentIndex v = 0 /\
  dataDisplay v = Some (SampleHTML demo4 false).
Proof. vm_compute. repeat split. Qed.

End Examples.

(** ** The loader, the names and the labels on examples *)

Section MoreExamples.

Example split_pieces_example :
  Text.split "_" "_a__" = [""; "a"; ""; ""] /\ Text.split "_" "" = [""].
Proof. split; reflexivity. Qed.

(** Blank lines are skipped; a line is parsed as it stands, with the
    white space it has. *)
Example recordLines_example :
  recordLines ("  {}" ++ String "010" (String "010" ("   " ++ String "010" (" [1,2] " ++ String "010" "")))) =
  ["{}"; " [1,2]"].
Proof. reflexivity. Qed.

Example parseJSONL_examples :
  parseJSONL exampleParse ("{}" ++ String "010" (String "010" ("[1,2]" ++ String "010" ""))) =
    Some [JObject []; JArray (map intValue [1; 2])] /\
  parseJSONL exampleParse ("{}" ++ String "010" "oops") = None /\
  parseJSONL exampleParse "  " = Some [].
Proof. repeat split. Qed.

(** Only the last run of digits is a time stamp, and only after an
    underscore. *)
Example formatTaskName_examples :
  formatTaskName "wash_dishes_1700000000" = "Wash Dishes" /\
  formatTaskName "a_12_34" = "A 12" /\
  formatTaskName "x_12a" = "X 12a" /\
  formatTaskName "_123" = "".
Proof. repeat split. Qed.

Example gridClass_examples :
  map gridClass [0; 1; 2; 3; 4; 5; 9]%nat =
  [ "images-grid-2col"; "images-grid-2col"; "images-grid-2col"; "images-grid-3col";
    "images-grid-4col"; "images-grid-5col"; "images-grid-5col" ].
Proof. reflexivity. Qed.

Example imageLabels_examples :
  imageLabels 0 = ["Current State"] /\
  imageLabels 3 = ["Current State"; "Next State 1"; "Next State 2"].
Proof. split; reflexivity. Qed.

End MoreExamples.
